(** * mmlfm-go: the MML parser and the tick sequencer

    A shallow embedding of [internal/mml] (preprocessor and parser) and of
    [internal/sequencer] (tick dispatch, note-off queue, release tail), with
    the properties of the specification stated over it.

    Conventions of the embedding.
    - Go's [int] is a 64-bit two's complement integer: a [Z] whose
      arithmetic goes through [GoInt.wrap].  [/] and [%] truncate towards
      zero ([Z.quot], [Z.rem]).
    - Go's [string] is a sequence of bytes: a [string] of [ascii].  Positions
      in a string stay below its length and are kept as [nat].
    - Go's [float64] is the kernel's binary64 [float]; [math.Pow] is the one
      library function taken as a parameter (class [GoMath]).
    - Go's [map] is a [gmap]; a slice is a [list].
    - A function that can return an [error], panic, or loop returns an
      [outcome]. *)

From Stdlib Require Import ZArith Floats Ascii String List Lia Bool.
From stdpp Require Import base option gmap strings list sorting.

Local Open Scope string_scope.
Local Open Scope Z_scope.

(** ** Results of fallible code *)

Inductive outcome (A : Type) : Type :=
| Ok (a : A)            (* normal return *)
| Fail (msg : string)   (* a Go [error] value is returned *)
| Panic (msg : string)  (* run-time panic: division by zero, index out of range *)
| Fuel.                 (* the model's loop bound was reached *)
Arguments Ok {A} a.
Arguments Fail {A} msg.
Arguments Panic {A} msg.
Arguments Fuel {A}.

#[global] Instance outcome_ret : MRet outcome := fun _ a => Ok a.
#[global] Instance outcome_bind : MBind outcome := fun _ _ f m =>
  match m with
  | Ok a => f a
  | Fail e => Fail e
  | Panic e => Panic e
  | Fuel => Fuel
  end.

#[global] Instance outcome_fmap : FMap outcome := fun _ _ f m =>
  match m with
  | Ok a => Ok (f a)
  | Fail e => Fail e
  | Panic e => Panic e
  | Fuel => Fuel
  end.

Definition isOk {A} (o : outcome A) : bool :=
  match o with Ok _ => true | _ => false end.

Definition isFail {A} (o : outcome A) : bool :=
  match o with Fail _ => true | _ => false end.

(** ** Go's [int] *)

Module GoInt.

Definition minInt : Z := - 2 ^ 63.
Definition maxInt : Z := 2 ^ 63 - 1.

Definition wrap (z : Z) : Z := (z + 2 ^ 63) `mod` 2 ^ 64 - 2 ^ 63.

Definition inRange (z : Z) : Prop := minInt <= z <= maxInt.

Definition add (a b : Z) : Z := wrap (a + b).
Definition sub (a b : Z) : Z := wrap (a - b).
Definition mul (a b : Z) : Z := wrap (a * b).
Definition neg (a : Z) : Z := wrap (- a).

(** [a / b] and [a % b] for a divisor the caller knows to be non-zero. *)
Definition div (a b : Z) : Z := wrap (a ÷ b).
Definition rem (a b : Z) : Z := Z.rem a b.

(** [a / b] and [a % b] where the divisor may be zero. *)
Definition divP (a b : Z) : outcome Z :=
  if b =? 0 then Panic "integer divide by zero" else Ok (div a b).
Definition remP (a b : Z) : outcome Z :=
  if b =? 0 then Panic "integer divide by zero" else Ok (rem a b).

(** [a << n] and [a >> n] for a shift count [0 <= n]. *)
Definition shl (a n : Z) : Z := wrap (Z.shiftl a n).
Definition shr (a n : Z) : Z := Z.shiftr a n.

Definition land (a b : Z) : Z := Z.land a b.

End GoInt.

Infix "⊞" := GoInt.add (at level 50, left associativity).
Infix "⊟" := GoInt.sub (at level 50, left associativity).
Infix "⊠" := GoInt.mul (at level 40, left associativity).
Infix "⊘" := GoInt.div (at level 40, left associativity).

(** [clampInt] is declared in both packages with the same body. *)
Definition clampInt (v lo hi : Z) : Z :=
  if v <? lo then lo else if v >? hi then hi else v.

(** ** Go's [float64] *)

Module GoFloat.

(** [float64(n)] for an [int] [n]. *)
Definition ofInt (z : Z) : float :=
  if z <? 0 then PrimFloat.opp (PrimFloat.of_uint63 (Uint63.of_Z (- z)))
  else PrimFloat.of_uint63 (Uint63.of_Z z).

(** [int(f)]: truncation towards zero; a NaN, an infinity or a value out
    of range gives the smallest [int], as on amd64. *)
Definition toInt (f : float) : Z :=
  match Prim2SF f with
  | S754_zero _ => 0
  | S754_finite s m e =>
      let v := if 0 <=? e then Z.pos m * 2 ^ e else Z.shiftr (Z.pos m) (- e) in
      let r := if s then - v else v in
      if (GoInt.minInt <=? r) && (r <=? GoInt.maxInt) then r else GoInt.minInt
  | _ => GoInt.minInt
  end.

(** [math.Round]: to the nearest integer, halves away from zero. *)
Definition Round (f : float) : float :=
  match Prim2SF f with
  | S754_finite s m e =>
      if 0 <=? e then f
      else
        let v := Z.shiftr (Z.pos m + 2 ^ (- e - 1)) (- e) in
        let r := PrimFloat.of_uint63 (Uint63.of_Z v) in
        if s then PrimFloat.opp r else r
  | _ => f
  end.

(** [math.Max] on operands that are not NaN. *)
Definition Max (a b : float) : float :=
  if PrimFloat.ltb a b then b else a.

Definition Sqrt (f : float) : float := PrimFloat.sqrt f.

End GoFloat.

(** [math.Pow] is not reconstructed; every definition that reaches it takes
    it from this class. *)
Class GoMath := { math_Pow : float -> float -> float }.

(** ** Go's [string] and package [strings] on byte strings *)

Module GoStr.

Abbreviation byte := ascii (only parsing).

Definition len (s : string) : nat := String.length s.

(** [s[i]] for a position the caller has checked. *)
Definition byteAt (s : string) (i : nat) : byte :=
  match String.get i s with Some c => c | None => zero end.

(** [s[a:b]] and [s[a:]]. *)
Definition slice (s : string) (a b : nat) : string := substring a (b - a) s.
Definition sliceFrom (s : string) (a : nat) : string := substring a (len s - a) s.

Definition byteIn (lo hi c : byte) : bool := Ascii.leb lo c && Ascii.leb c hi.

Definition isDigit (c : byte) : bool := byteIn "0" "9" c.

(** The white space of [strings.TrimSpace] within ASCII. *)
Definition isSpaceU (c : byte) : bool :=
  Ascii.eqb c " " || byteIn (ascii_of_nat 9) (ascii_of_nat 13) c.

Definition toLowerB (c : byte) : byte :=
  if byteIn "A" "Z" c then ascii_of_nat (nat_of_ascii c + 32) else c.
Definition toUpperB (c : byte) : byte :=
  if byteIn "a" "z" c then ascii_of_nat (nat_of_ascii c - 32) else c.

Fixpoint mapB (f : byte -> byte) (s : string) : string :=
  match s with
  | EmptyString => EmptyString
  | String c r => String (f c) (mapB f r)
  end.

Definition ToLower : string -> string := mapB toLowerB.
Definition ToUpper : string -> string := mapB toUpperB.

(** Length of the longest prefix whose bytes satisfy [p]. *)
Fixpoint spanLen (p : byte -> bool) (s : string) : nat :=
  match s with
  | String c r => if p c then S (spanLen p r) else O
  | EmptyString => O
  end.

(** [for i < len(s) && p(s[i]) { i++ }], returning the final [i]. *)
Definition skipWhile (p : byte -> bool) (s : string) (i : nat) : nat :=
  (i + spanLen p (sliceFrom s i))%nat.

Fixpoint dropWhile (p : byte -> bool) (s : string) : string :=
  match s with
  | String c r => if p c then dropWhile p r else s
  | EmptyString => EmptyString
  end.

Definition dropWhileEnd (p : byte -> bool) (s : string) : string :=
  String.rev (dropWhile p (String.rev s)).

Definition TrimSpace (s : string) : string :=
  dropWhileEnd isSpaceU (dropWhile isSpaceU s).

Definition HasPrefix (s p : string) : bool := String.prefix p s.

Definition TrimPrefix (s p : string) : string :=
  if HasPrefix s p then sliceFrom s (len p) else s.

(** [strings.TrimRight(s, cutset)] for a one-byte cutset. *)
Definition TrimRightB (s : string) (c : byte) : string :=
  dropWhileEnd (Ascii.eqb c) s.

(** [strings.Index]; [None] stands for [-1]. *)
Definition Index (s sub : string) : option nat := String.index 0 sub s.

Definition Contains (s sub : string) : bool :=
  match Index s sub with Some _ => true | None => false end.

Fixpoint IndexByteFrom (s : string) (c : byte) (i : nat) : option nat :=
  match s with
  | EmptyString => None
  | String d r => if Ascii.eqb d c then Some i else IndexByteFrom r c (S i)
  end.
Definition IndexByte (s : string) (c : byte) : option nat := IndexByteFrom s c 0.

Fixpoint LastIndexByteFrom (s : string) (c : byte) (i : nat) (acc : option nat) : option nat :=
  match s with
  | EmptyString => acc
  | String d r => LastIndexByteFrom r c (S i) (if Ascii.eqb d c then Some i else acc)
  end.
Definition LastIndexByte (s : string) (c : byte) : option nat :=
  LastIndexByteFrom s c 0 None.

(** [strings.Split(s, sep)] for a one-byte separator. *)
Fixpoint SplitB (s : string) (c : byte) : list string :=
  match s with
  | EmptyString => [EmptyString]
  | String d r =>
      if Ascii.eqb d c then EmptyString :: SplitB r c
      else match SplitB r c with
           | [] => [String d EmptyString]
           | h :: t => String d h :: t
           end
  end.

(** [strings.ReplaceAll(s, old, new)] for one-byte [old]. *)
Fixpoint ReplaceAllB (s : string) (old : byte) (new : string) : string :=
  match s with
  | EmptyString => EmptyString
  | String d r =>
      if Ascii.eqb d old then new +:+ ReplaceAllB r old new
      else String d (ReplaceAllB r old new)
  end.

Definition digitVal (c : byte) : Z := Z.of_nat (nat_of_ascii c) - 48.

Fixpoint digitsValAcc (s : string) (acc : Z) : Z :=
  match s with
  | EmptyString => acc
  | String c r => digitsValAcc r (acc * 10 + digitVal c)
  end.

Fixpoint allDigits (s : string) : bool :=
  match s with
  | EmptyString => true
  | String c r => isDigit c && allDigits r
  end.

(** [strconv.Atoi]: an optional sign and at least one decimal digit; a
    value outside [int] is an error. [None] stands for the error. *)
Definition Atoi (s : string) : option Z :=
  let '(sign, body) :=
    match s with
    | String "+" r => (1, r)
    | String "-" r => (-1, r)
    | _ => (1, s)
    end in
  if (len body =? 0)%nat || negb (allDigits body) then None
  else
    let v := sign * digitsValAcc body 0 in
    if (GoInt.minInt <=? v) && (v <=? GoInt.maxInt) then Some v else None.

End GoStr.

(** ** Package [mml]: the score data model ([types.go]) *)

Module mml.

Import GoStr.

(** [EventType] is an [int] enumeration starting at 1; [EventZero] is the
    value 0 of an [Event{}] literal without a [Type]. *)
Inductive EventType : Type :=
| EventZero
| EventNote | EventRest | EventTempo | EventVolume | EventFineVolume
| EventProgram | EventPan | EventExpression | EventModule | EventDetune
| EventTranspose | EventQuantize | EventKeyOnDelay | EventSlur
| EventTableEnv | EventControl.

Inductive SlurMode : Type := SlurNone | SlurNormal | SlurWeak.

#[global] Instance EventType_eq_dec : EqDecision EventType.
Proof. solve_decision. Defined.
#[global] Instance SlurMode_eq_dec : EqDecision SlurMode.
Proof. solve_decision. Defined.

Record Event : Type := mkEvent {
  Type_ : EventType;
  Tick : Z;
  Duration : Z;
  Note : Z;
  Value : Z;
Program : Z;
Pan : Z;
Module_ : Z;
Channel : Z;
Detune : Z;
Expr : Z;
GateTick : Z;
Delay : Z;
Slur : SlurMode;
Command : string;
Text : string;
Values : list Z
}.

Definition Event0 : Event :=
  mkEvent EventZero 0 0 0 0 0 0 0 0 0 0 0 0 SlurNone "" "" [].

Definition set_Type_ (v : EventType) (r : Event) : Event :=
  mkEvent v (r.(Tick)) (r.(Duration)) (r.(Note)) (r.(Value)) (r.(Program)) (r.(Pan)) (r.(Module_)) (r.(Channel)) (r.(Detune)) (r.(Expr)) (r.(GateTick)) (r.(Delay)) (r.(Slur)) (r.(Command)) (r.(Text)) (r.(Values)).
Definition set_Tick (v : Z) (r : Event) : Event :=
  mkEvent (r.(Type_)) v (r.(Duration)) (r.(Note)) (r.(Value)) (r.(Program)) (r.(Pan)) (r.(Module_)) (r.(Channel)) (r.(Detune)) (r.(Expr)) (r.(GateTick)) (r.(Delay)) (r.(Slur)) (r.(Command)) (r.(Text)) (r.(Values)).
Definition set_Duration (v : Z) (r : Event) : Event :=
  mkEvent (r.(Type_)) (r.(Tick)) v (r.(Note)) (r.(Value)) (r.(Program)) (r.(Pan)) (r.(Module_)) (r.(Channel)) (r.(Detune)) (r.(Expr)) (r.(GateTick)) (r.(Delay)) (r.(Slur)) (r.(Command)) (r.(Text)) (r.(Values)).
Definition set_Note (v : Z) (r : Event) : Event :=
  mkEvent (r.(Type_)) (r.(Tick)) (r.(Duration)) v (r.(Value)) (r.(Program)) (r.(Pan)) (r.(Module_)) (r.(Channel)) (r.(Detune)) (r.(Expr)) (r.(GateTick)) (r.(Delay)) (r.(Slur)) (r.(Command)) (r.(Text)) (r.(Values)).
Definition set_Value (v : Z) (r : Event) : Event :=
  mkEvent (r.(Type_)) (r.(Tick)) (r.(Duration)) (r.(Note)) v (r.(Program)) (r.(Pan)) (r.(Module_)) (r.(Channel)) (r.(Detune)) (r.(Expr)) (r.(GateTick)) (r.(Delay)) (r.(Slur)) (r.(Command)) (r.(Text)) (r.(Values)).
Definition set_Program (v : Z) (r : Event) : Event :=
  mkEvent (r.(Type_)) (r.(Tick)) (r.(Duration)) (r.(Note)) (r.(Value)) v (r.(Pan)) (r.(Module_)) (r.(Channel)) (r.(Detune)) (r.(Expr)) (r.(GateTick)) (r.(Delay)) (r.(Slur)) (r.(Command)) (r.(Text)) (r.(Values)).
Definition set_Pan (v : Z) (r : Event) : Event :=
  mkEvent (r.(Type_)) (r.(Tick)) (r.(Duration)) (r.(Note)) (r.(Value)) (r.(Program)) v (r.(Module_)) (r.(Channel)) (r.(Detune)) (r.(Expr)) (r.(GateTick)) (r.(Delay)) (r.(Slur)) (r.(Command)) (r.(Text)) (r.(Values)).
Definition set_Module_ (v : Z) (r : Event) : Event :=
  mkEvent (r.(Type_)) (r.(Tick)) (r.(Duration)) (r.(Note)) (r.(Value)) (r.(Program)) (r.(Pan)) v (r.(Channel)) (r.(Detune)) (r.(Expr)) (r.(GateTick)) (r.(Delay)) (r.(Slur)) (r.(Command)) (r.(Text)) (r.(Values)).
Definition set_Channel (v : Z) (r : Event) : Event :=
  mkEvent (r.(Type_)) (r.(Tick)) (r.(Duration)) (r.(Note)) (r.(Value)) (r.(Program)) (r.(Pan)) (r.(Module_)) v (r.(Detune)) (r.(Expr)) (r.(GateTick)) (r.(Delay)) (r.(Slur)) (r.(Command)) (r.(Text)) (r.(Values)).
Definition set_Detune (v : Z) (r : Event) : Event :=
  mkEvent (r.(Type_)) (r.(Tick)) (r.(Duration)) (r.(Note)) (r.(Value)) (r.(Program)) (r.(Pan)) (r.(Module_)) (r.(Channel)) v (r.(Expr)) (r.(GateTick)) (r.(Delay)) (r.(Slur)) (r.(Command)) (r.(Text)) (r.(Values)).
Definition set_Expr (v : Z) (r : Event) : Event :=
  mkEvent (r.(Type_)) (r.(Tick)) (r.(Duration)) (r.(Note)) (r.(Value)) (r.(Program)) (r.(Pan)) (r.(Module_)) (r.(Channel)) (r.(Detune)) v (r.(GateTick)) (r.(Delay)) (r.(Slur)) (r.(Command)) (r.(Text)) (r.(Values)).
Definition set_GateTick (v : Z) (r : Event) : Event :=
  mkEvent (r.(Type_)) (r.(Tick)) (r.(Duration)) (r.(Note)) (r.(Value)) (r.(Program)) (r.(Pan)) (r.(Module_)) (r.(Channel)) (r.(Detune)) (r.(Expr)) v (r.(Delay)) (r.(Slur)) (r.(Command)) (r.(Text)) (r.(Values)).
Definition set_Delay (v : Z) (r : Event) : Event :=
  mkEvent (r.(Type_)) (r.(Tick)) (r.(Duration)) (r.(Note)) (r.(Value)) (r.(Program)) (r.(Pan)) (r.(Module_)) (r.(Channel)) (r.(Detune)) (r.(Expr)) (r.(GateTick)) v (r.(Slur)) (r.(Command)) (r.(Text)) (r.(Values)).
Definition set_Slur (v : SlurMode) (r : Event) : Event :=
  mkEvent (r.(Type_)) (r.(Tick)) (r.(Duration)) (r.(Note)) (r.(Value)) (r.(Program)) (r.(Pan)) (r.(Module_)) (r.(Channel)) (r.(Detune)) (r.(Expr)) (r.(GateTick)) (r.(Delay)) v (r.(Command)) (r.(Text)) (r.(Values)).
Definition set_Command (v : string) (r : Event) : Event :=
  mkEvent (r.(Type_)) (r.(Tick)) (r.(Duration)) (r.(Note)) (r.(Value)) (r.(Program)) (r.(Pan)) (r.(Module_)) (r.(Channel)) (r.(Detune)) (r.(Expr)) (r.(GateTick)) (r.(Delay)) (r.(Slur)) v (r.(Text)) (r.(Values)).
Definition set_Text (v : string) (r : Event) : Event :=
  mkEvent (r.(Type_)) (r.(Tick)) (r.(Duration)) (r.(Note)) (r.(Value)) (r.(Program)) (r.(Pan)) (r.(Module_)) (r.(Channel)) (r.(Detune)) (r.(Expr)) (r.(GateTick)) (r.(Delay)) (r.(Slur)) (r.(Command)) v (r.(Values)).
Definition set_Values (v : list Z) (r : Event) : Event :=
  mkEvent (r.(Type_)) (r.(Tick)) (r.(Duration)) (r.(Note)) (r.(Value)) (r.(Program)) (r.(Pan)) (r.(Module_)) (r.(Channel)) (r.(Detune)) (r.(Expr)) (r.(GateTick)) (r.(Delay)) (r.(Slur)) (r.(Command)) (r.(Text)) v.

Record Track : Type := mkTrack {
  Events : list Event;
  EndTick : Z;
  LoopTick : Z;
  LoopIndex : Z
}.

Record Score : Type := mkScore {
  Resolution : Z;
  InitialBPM : float;
  Tracks : list Track;
Definitions : gmap string string
}.

Module ParserConfig.
Record t : Type := mk {
  Resolution : Z;
  DefaultBPM : float;
  DefaultLValue : Z;
  DefaultOctave : Z;
  MinOctave : Z;
  MaxOctave : Z;
  DefaultVolume : Z;
  DefaultFineVol : Z;
  OctavePolarize : Z
}.
End ParserConfig.

Definition DefaultParserConfig : ParserConfig.t :=
  {| ParserConfig.Resolution := 1920;
     ParserConfig.DefaultBPM := 120%float;
     ParserConfig.DefaultLValue := 4;
     ParserConfig.DefaultOctave := 5;
     ParserConfig.MinOctave := 0;
     ParserConfig.MaxOctave := 9;
     ParserConfig.DefaultVolume := 16;
     ParserConfig.DefaultFineVol := 127;
     ParserConfig.OctavePolarize := -1 |}.

(** *** The parser ([Parser], [parseState] and the helpers of its file) *)

Record parserOptions : Type := mkOptions {
  opt_quantMax : Z;
  tempoMode : string;
  tempoUnit : Z;
  tempoFPS : Z
}.

Record parseState : Type := mkState {
  resolution : Z;
  tick : Z;
  octave : Z;
  defaultLen : Z;
  bpm : float;
  volume : Z;
  fineVol : Z;
  expression : Z;
  quantMax : Z;
  quantValue : Z;
  gatePercent : Z;
  keyOffTick : Z;
  keyOnDelay : Z;
  slurMode : SlurMode;
  transpose : Z;
  detune : Z;
  pan : Z;
  program : Z;
  module : Z;
  channel : Z;
  revVolume : bool;
  keySig : gmap ascii Z;
  vmode : string;
  vScaleMode : Z;
  vScaleMax : Z;
  xScaleMode : Z
}.

Definition set_resolution (v : Z) (r : parseState) : parseState :=
  mkState v (r.(tick)) (r.(octave)) (r.(defaultLen)) (r.(bpm)) (r.(volume)) (r.(fineVol)) (r.(expression)) (r.(quantMax)) (r.(quantValue)) (r.(gatePercent)) (r.(keyOffTick)) (r.(keyOnDelay)) (r.(slurMode)) (r.(transpose)) (r.(detune)) (r.(pan)) (r.(program)) (r.(module)) (r.(channel)) (r.(revVolume)) (r.(keySig)) (r.(vmode)) (r.(vScaleMode)) (r.(vScaleMax)) (r.(xScaleMode)).
Definition set_tick (v : Z) (r : parseState) : parseState :=
  mkState (r.(resolution)) v (r.(octave)) (r.(defaultLen)) (r.(bpm)) (r.(volume)) (r.(fineVol)) (r.(expression)) (r.(quantMax)) (r.(quantValue)) (r.(gatePercent)) (r.(keyOffTick)) (r.(keyOnDelay)) (r.(slurMode)) (r.(transpose)) (r.(detune)) (r.(pan)) (r.(program)) (r.(module)) (r.(channel)) (r.(revVolume)) (r.(keySig)) (r.(vmode)) (r.(vScaleMode)) (r.(vScaleMax)) (r.(xScaleMode)).
Definition set_octave (v : Z) (r : parseState) : parseState :=
  mkState (r.(resolution)) (r.(tick)) v (r.(defaultLen)) (r.(bpm)) (r.(volume)) (r.(fineVol)) (r.(expression)) (r.(quantMax)) (r.(quantValue)) (r.(gatePercent)) (r.(keyOffTick)) (r.(keyOnDelay)) (r.(slurMode)) (r.(transpose)) (r.(detune)) (r.(pan)) (r.(program)) (r.(module)) (r.(channel)) (r.(revVolume)) (r.(keySig)) (r.(vmode)) (r.(vScaleMode)) (r.(vScaleMax)) (r.(xScaleMode)).
Definition set_defaultLen (v : Z) (r : parseState) : parseState :=
  mkState (r.(resolution)) (r.(tick)) (r.(octave)) v (r.(bpm)) (r.(volume)) (r.(fineVol)) (r.(expression)) (r.(quantMax)) (r.(quantValue)) (r.(gatePercent)) (r.(keyOffTick)) (r.(keyOnDelay)) (r.(slurMode)) (r.(transpose)) (r.(detune)) (r.(pan)) (r.(program)) (r.(module)) (r.(channel)) (r.(revVolume)) (r.(keySig)) (r.(vmode)) (r.(vScaleMode)) (r.(vScaleMax)) (r.(xScaleMode)).
Definition set_bpm (v : float) (r : parseState) : parseState :=
  mkState (r.(resolution)) (r.(tick)) (r.(octave)) (r.(defaultLen)) v (r.(volume)) (r.(fineVol)) (r.(expression)) (r.(quantMax)) (r.(quantValue)) (r.(gatePercent)) (r.(keyOffTick)) (r.(keyOnDelay)) (r.(slurMode)) (r.(transpose)) (r.(detune)) (r.(pan)) (r.(program)) (r.(module)) (r.(channel)) (r.(revVolume)) (r.(keySig)) (r.(vmode)) (r.(vScaleMode)) (r.(vScaleMax)) (r.(xScaleMode)).
Definition set_volume (v : Z) (r : parseState) : parseState :=
  mkState (r.(resolution)) (r.(tick)) (r.(octave)) (r.(defaultLen)) (r.(bpm)) v (r.(fineVol)) (r.(expression)) (r.(quantMax)) (r.(quantValue)) (r.(gatePercent)) (r.(keyOffTick)) (r.(keyOnDelay)) (r.(slurMode)) (r.(transpose)) (r.(detune)) (r.(pan)) (r.(program)) (r.(module)) (r.(channel)) (r.(revVolume)) (r.(keySig)) (r.(vmode)) (r.(vScaleMode)) (r.(vScaleMax)) (r.(xScaleMode)).
Definition set_fineVol (v : Z) (r : parseState) : parseState :=
  mkState (r.(resolution)) (r.(tick)) (r.(octave)) (r.(defaultLen)) (r.(bpm)) (r.(volume)) v (r.(expression)) (r.(quantMax)) (r.(quantValue)) (r.(gatePercent)) (r.(keyOffTick)) (r.(keyOnDelay)) (r.(slurMode)) (r.(transpose)) (r.(detune)) (r.(pan)) (r.(program)) (r.(module)) (r.(channel)) (r.(revVolume)) (r.(keySig)) (r.(vmode)) (r.(vScaleMode)) (r.(vScaleMax)) (r.(xScaleMode)).
Definition set_expression (v : Z) (r : parseState) : parseState :=
  mkState (r.(resolution)) (r.(tick)) (r.(octave)) (r.(defaultLen)) (r.(bpm)) (r.(volume)) (r.(fineVol)) v (r.(quantMax)) (r.(quantValue)) (r.(gatePercent)) (r.(keyOffTick)) (r.(keyOnDelay)) (r.(slurMode)) (r.(transpose)) (r.(detune)) (r.(pan)) (r.(program)) (r.(module)) (r.(channel)) (r.(revVolume)) (r.(keySig)) (r.(vmode)) (r.(vScaleMode)) (r.(vScaleMax)) (r.(xScaleMode)).
Definition set_quantMax (v : Z) (r : parseState) : parseState :=
  mkState (r.(resolution)) (r.(tick)) (r.(octave)) (r.(defaultLen)) (r.(bpm)) (r.(volume)) (r.(fineVol)) (r.(expression)) v (r.(quantValue)) (r.(gatePercent)) (r.(keyOffTick)) (r.(keyOnDelay)) (r.(slurMode)) (r.(transpose)) (r.(detune)) (r.(pan)) (r.(program)) (r.(module)) (r.(channel)) (r.(revVolume)) (r.(keySig)) (r.(vmode)) (r.(vScaleMode)) (r.(vScaleMax)) (r.(xScaleMode)).
Definition set_quantValue (v : Z) (r : parseState) : parseState :=
  mkState (r.(resolution)) (r.(tick)) (r.(octave)) (r.(defaultLen)) (r.(bpm)) (r.(volume)) (r.(fineVol)) (r.(expression)) (r.(quantMax)) v (r.(gatePercent)) (r.(keyOffTick)) (r.(keyOnDelay)) (r.(slurMode)) (r.(transpose)) (r.(detune)) (r.(pan)) (r.(program)) (r.(module)) (r.(channel)) (r.(revVolume)) (r.(keySig)) (r.(vmode)) (r.(vScaleMode)) (r.(vScaleMax)) (r.(xScaleMode)).
Definition set_gatePercent (v : Z) (r : parseState) : parseState :=
  mkState (r.(resolution)) (r.(tick)) (r.(octave)) (r.(defaultLen)) (r.(bpm)) (r.(volume)) (r.(fineVol)) (r.(expression)) (r.(quantMax)) (r.(quantValue)) v (r.(keyOffTick)) (r.(keyOnDelay)) (r.(slurMode)) (r.(transpose)) (r.(detune)) (r.(pan)) (r.(program)) (r.(module)) (r.(channel)) (r.(revVolume)) (r.(keySig)) (r.(vmode)) (r.(vScaleMode)) (r.(vScaleMax)) (r.(xScaleMode)).
Definition set_keyOffTick (v : Z) (r : parseState) : parseState :=
  mkState (r.(resolution)) (r.(tick)) (r.(octave)) (r.(defaultLen)) (r.(bpm)) (r.(volume)) (r.(fineVol)) (r.(expression)) (r.(quantMax)) (r.(quantValue)) (r.(gatePercent)) v (r.(keyOnDelay)) (r.(slurMode)) (r.(transpose)) (r.(detune)) (r.(pan)) (r.(program)) (r.(module)) (r.(channel)) (r.(revVolume)) (r.(keySig)) (r.(vmode)) (r.(vScaleMode)) (r.(vScaleMax)) (r.(xScaleMode)).
Definition set_keyOnDelay (v : Z) (r : parseState) : parseState :=
  mkState (r.(resolution)) (r.(tick)) (r.(octave)) (r.(defaultLen)) (r.(bpm)) (r.(volume)) (r.(fineVol)) (r.(expression)) (r.(quantMax)) (r.(quantValue)) (r.(gatePercent)) (r.(keyOffTick)) v (r.(slurMode)) (r.(transpose)) (r.(detune)) (r.(pan)) (r.(program)) (r.(module)) (r.(channel)) (r.(revVolume)) (r.(keySig)) (r.(vmode)) (r.(vScaleMode)) (r.(vScaleMax)) (r.(xScaleMode)).
Definition set_slurMode (v : SlurMode) (r : parseState) : parseState :=
  mkState (r.(resolution)) (r.(tick)) (r.(octave)) (r.(defaultLen)) (r.(bpm)) (r.(volume)) (r.(fineVol)) (r.(expression)) (r.(quantMax)) (r.(quantValue)) (r.(gatePercent)) (r.(keyOffTick)) (r.(keyOnDelay)) v (r.(transpose)) (r.(detune)) (r.(pan)) (r.(program)) (r.(module)) (r.(channel)) (r.(revVolume)) (r.(keySig)) (r.(vmode)) (r.(vScaleMode)) (r.(vScaleMax)) (r.(xScaleMode)).
Definition set_transpose (v : Z) (r : parseState) : parseState :=
  mkState (r.(resolution)) (r.(tick)) (r.(octave)) (r.(defaultLen)) (r.(bpm)) (r.(volume)) (r.(fineVol)) (r.(expression)) (r.(quantMax)) (r.(quantValue)) (r.(gatePercent)) (r.(keyOffTick)) (r.(keyOnDelay)) (r.(slurMode)) v (r.(detune)) (r.(pan)) (r.(program)) (r.(module)) (r.(channel)) (r.(revVolume)) (r.(keySig)) (r.(vmode)) (r.(vScaleMode)) (r.(vScaleMax)) (r.(xScaleMode)).
Definition set_detune (v : Z) (r : parseState) : parseState :=
  mkState (r.(resolution)) (r.(tick)) (r.(octave)) (r.(defaultLen)) (r.(bpm)) (r.(volume)) (r.(fineVol)) (r.(expression)) (r.(quantMax)) (r.(quantValue)) (r.(gatePercent)) (r.(keyOffTick)) (r.(keyOnDelay)) (r.(slurMode)) (r.(transpose)) v (r.(pan)) (r.(program)) (r.(module)) (r.(channel)) (r.(revVolume)) (r.(keySig)) (r.(vmode)) (r.(vScaleMode)) (r.(vScaleMax)) (r.(xScaleMode)).
Definition set_pan (v : Z) (r : parseState) : parseState :=
  mkState (r.(resolution)) (r.(tick)) (r.(octave)) (r.(defaultLen)) (r.(bpm)) (r.(volume)) (r.(fineVol)) (r.(expression)) (r.(quantMax)) (r.(quantValue)) (r.(gatePercent)) (r.(keyOffTick)) (r.(keyOnDelay)) (r.(slurMode)) (r.(transpose)) (r.(detune)) v (r.(program)) (r.(module)) (r.(channel)) (r.(revVolume)) (r.(keySig)) (r.(vmode)) (r.(vScaleMode)) (r.(vScaleMax)) (r.(xScaleMode)).
Definition set_program (v : Z) (r : parseState) : parseState :=
  mkState (r.(resolution)) (r.(tick)) (r.(octave)) (r.(defaultLen)) (r.(bpm)) (r.(volume)) (r.(fineVol)) (r.(expression)) (r.(quantMax)) (r.(quantValue)) (r.(gatePercent)) (r.(keyOffTick)) (r.(keyOnDelay)) (r.(slurMode)) (r.(transpose)) (r.(detune)) (r.(pan)) v (r.(module)) (r.(channel)) (r.(revVolume)) (r.(keySig)) (r.(vmode)) (r.(vScaleMode)) (r.(vScaleMax)) (r.(xScaleMode)).
Definition set_module (v : Z) (r : parseState) : parseState :=
  mkState (r.(resolution)) (r.(tick)) (r.(octave)) (r.(defaultLen)) (r.(bpm)) (r.(volume)) (r.(fineVol)) (r.(expression)) (r.(quantMax)) (r.(quantValue)) (r.(gatePercent)) (r.(keyOffTick)) (r.(keyOnDelay)) (r.(slurMode)) (r.(transpose)) (r.(detune)) (r.(pan)) (r.(program)) v (r.(channel)) (r.(revVolume)) (r.(keySig)) (r.(vmode)) (r.(vScaleMode)) (r.(vScaleMax)) (r.(xScaleMode)).
Definition set_channel (v : Z) (r : parseState) : parseState :=
  mkState (r.(resolution)) (r.(tick)) (r.(octave)) (r.(defaultLen)) (r.(bpm)) (r.(volume)) (r.(fineVol)) (r.(expression)) (r.(quantMax)) (r.(quantValue)) (r.(gatePercent)) (r.(keyOffTick)) (r.(keyOnDelay)) (r.(slurMode)) (r.(transpose)) (r.(detune)) (r.(pan)) (r.(program)) (r.(module)) v (r.(revVolume)) (r.(keySig)) (r.(vmode)) (r.(vScaleMode)) (r.(vScaleMax)) (r.(xScaleMode)).
Definition set_revVolume (v : bool) (r : parseState) : parseState :=
  mkState (r.(resolution)) (r.(tick)) (r.(octave)) (r.(defaultLen)) (r.(bpm)) (r.(volume)) (r.(fineVol)) (r.(expression)) (r.(quantMax)) (r.(quantValue)) (r.(gatePercent)) (r.(keyOffTick)) (r.(keyOnDelay)) (r.(slurMode)) (r.(transpose)) (r.(detune)) (r.(pan)) (r.(program)) (r.(module)) (r.(channel)) v (r.(keySig)) (r.(vmode)) (r.(vScaleMode)) (r.(vScaleMax)) (r.(xScaleMode)).
Definition set_keySig (v : gmap ascii Z) (r : parseState) : parseState :=
  mkState (r.(resolution)) (r.(tick)) (r.(octave)) (r.(defaultLen)) (r.(bpm)) (r.(volume)) (r.(fineVol)) (r.(expression)) (r.(quantMax)) (r.(quantValue)) (r.(gatePercent)) (r.(keyOffTick)) (r.(keyOnDelay)) (r.(slurMode)) (r.(transpose)) (r.(detune)) (r.(pan)) (r.(program)) (r.(module)) (r.(channel)) (r.(revVolume)) v (r.(vmode)) (r.(vScaleMode)) (r.(vScaleMax)) (r.(xScaleMode)).
Definition set_vmode (v : string) (r : parseState) : parseState :=
  mkState (r.(resolution)) (r.(tick)) (r.(octave)) (r.(defaultLen)) (r.(bpm)) (r.(volume)) (r.(fineVol)) (r.(expression)) (r.(quantMax)) (r.(quantValue)) (r.(gatePercent)) (r.(keyOffTick)) (r.(keyOnDelay)) (r.(slurMode)) (r.(transpose)) (r.(detune)) (r.(pan)) (r.(program)) (r.(module)) (r.(channel)) (r.(revVolume)) (r.(keySig)) v (r.(vScaleMode)) (r.(vScaleMax)) (r.(xScaleMode)).
Definition set_vScaleMode (v : Z) (r : parseState) : parseState :=
  mkState (r.(resolution)) (r.(tick)) (r.(octave)) (r.(defaultLen)) (r.(bpm)) (r.(volume)) (r.(fineVol)) (r.(expression)) (r.(quantMax)) (r.(quantValue)) (r.(gatePercent)) (r.(keyOffTick)) (r.(keyOnDelay)) (r.(slurMode)) (r.(transpose)) (r.(detune)) (r.(pan)) (r.(program)) (r.(module)) (r.(channel)) (r.(revVolume)) (r.(keySig)) (r.(vmode)) v (r.(vScaleMax)) (r.(xScaleMode)).
Definition set_vScaleMax (v : Z) (r : parseState) : parseState :=
  mkState (r.(resolution)) (r.(tick)) (r.(octave)) (r.(defaultLen)) (r.(bpm)) (r.(volume)) (r.(fineVol)) (r.(expression)) (r.(quantMax)) (r.(quantValue)) (r.(gatePercent)) (r.(keyOffTick)) (r.(keyOnDelay)) (r.(slurMode)) (r.(transpose)) (r.(detune)) (r.(pan)) (r.(program)) (r.(module)) (r.(channel)) (r.(revVolume)) (r.(keySig)) (r.(vmode)) (r.(vScaleMode)) v (r.(xScaleMode)).
Definition set_xScaleMode (v : Z) (r : parseState) : parseState :=
  mkState (r.(resolution)) (r.(tick)) (r.(octave)) (r.(defaultLen)) (r.(bpm)) (r.(volume)) (r.(fineVol)) (r.(expression)) (r.(quantMax)) (r.(quantValue)) (r.(gatePercent)) (r.(keyOffTick)) (r.(keyOnDelay)) (r.(slurMode)) (r.(transpose)) (r.(detune)) (r.(pan)) (r.(program)) (r.(module)) (r.(channel)) (r.(revVolume)) (r.(keySig)) (r.(vmode)) (r.(vScaleMode)) (r.(vScaleMax)) v.

Definition noteOffsets (b : ascii) : option Z :=
  match b with
  | "c" => Some 0 | "d" => Some 2 | "e" => Some 4 | "f" => Some 5
  | "g" => Some 7 | "a" => Some 9 | "b" => Some 11
  | _ => None
  end%char.

Definition lower (b : ascii) : ascii :=
  if byteIn "A" "Z" b then ascii_of_nat (nat_of_ascii b + 32) else b.

Definition isSpace (b : ascii) : bool :=
  Ascii.eqb b " " || Ascii.eqb b (ascii_of_nat 10)
  || Ascii.eqb b (ascii_of_nat 13) || Ascii.eqb b (ascii_of_nat 9).

Definition isNote (b : ascii) : bool :=
  match noteOffsets b with Some _ => true | None => false end.

Definition isAlpha (b : ascii) : bool := byteIn "a" "z" b || byteIn "A" "Z" b.

Definition isMacroName (b : ascii) : bool := byteIn "A" "Z" b.

Definition startsWithWord (src : string) (at_ : nat) (word : string) : bool :=
  if (len src <? at_ + len word)%nat then false
  else String.eqb (mapB lower (slice src at_ (at_ + len word))) (mapB lower word).

Definition isWordByte (ch : ascii) : bool :=
  byteIn "a" "z" ch || byteIn "A" "Z" ch || Ascii.eqb ch "@" || Ascii.eqb ch "_".

Definition parseWordToken (src : string) (at_ : nat) : string * nat :=
  let i := skipWhile isWordByte src at_ in
  (slice src at_ i, i).

(** **** Numbers *)

Definition parseNumberOptional (s : string) (at_ : nat) : outcome (Z * nat) :=
  let i := skipWhile isDigit s at_ in
  if (at_ =? i)%nat then Ok (-1, i)
  else match Atoi (slice s at_ i) with
       | Some n => Ok (n, i)
       | None => Fail "strconv.Atoi: value out of range"
       end.

Definition parseNumberDefault (s : string) (at_ : nat) (def : Z) : outcome (Z * nat) :=
  '(v, i) ← parseNumberOptional s at_;
  if v =? -1 then Ok (def, i) else Ok (v, i).

Definition parseSignedNumberDefault (s : string) (at_ : nat) (def : Z) : outcome (Z * nat) :=
  if (len s <=? at_)%nat then Ok (def, at_)
  else
    let '(sign, i) :=
      if Ascii.eqb (byteAt s at_) "+" then (1, S at_)
      else if Ascii.eqb (byteAt s at_) "-" then (-1, S at_)
      else (1, at_) in
    '(v, next) ← parseNumberOptional s i;
    if v =? -1 then Ok (def, next) else Ok (sign ⊠ v, next).

(** **** Lengths and gates *)

(** [for k := 0; k < dots; k++ { term >>= 1; dur += term }] *)
Fixpoint addDots (dots : nat) (dur term : Z) : Z :=
  match dots with
  | O => dur
  | S k => let term' := GoInt.shr term 1 in addDots k (dur ⊞ term') term'
  end.

Definition parseLengthToken (s : string) (at_ : nat) (resolution defaultLen : Z)
  : outcome (Z * nat) :=
  '(val, i) ← parseNumberOptional s at_;
  let base := if val >? 0 then resolution ⊘ val else defaultLen in
  let i' := skipWhile (Ascii.eqb ".") s i in
  Ok (addDots (i' - i) base base, i').

(** The loop of [parseLengthWithTie]; every round consumes the ['^']. *)
Fixpoint tieLoop (fuel : nat) (s : string) (resolution defaultLen : Z) (dur : Z) (i : nat)
  : outcome (Z * nat) :=
  match fuel with
  | O => Fuel
  | S f =>
      if (i <? len s)%nat && Ascii.eqb (lower (byteAt s i)) "^" then
        '(extra, next) ← parseLengthToken s (S i) resolution defaultLen;
        tieLoop f s resolution defaultLen (dur ⊞ extra) next
      else Ok (dur, i)
  end.

Definition parseLengthWithTie (s : string) (at_ : nat) (st : parseState) : outcome (Z * nat) :=
  '(dur, i) ← parseLengthToken s at_ st.(resolution) st.(defaultLen);
  tieLoop (S (len s)) s st.(resolution) st.(defaultLen) dur i.

Definition parseGateDuration (dur gatePercent : Z) : Z :=
  if gatePercent <=? 0 then 0
  else
    let gated := (dur ⊠ gatePercent) ⊘ 100 in
    if (gated <=? 0) && (dur >? 0) then 1 else gated.

Definition convertQuarter192ToTicks (v resolution : Z) : Z :=
  if v <? 0 then v
  else
    let resolution := if resolution <=? 0 then 1920 else resolution in
    (v ⊠ resolution) ⊘ 192.

Definition normalizePanValue (v : Z) : Z :=
  if (v >=? 0) && (v <=? 8) then (v ⊟ 4) ⊠ 16
  else if v >? 64 then 64
  else if v <? -64 then -64
  else v.

(** **** Definitions captured by the preprocessor *)

Definition isVolumeReversed (defs : gmap string string) : bool :=
  match defs !! "REV" with
  | None => false
  | Some rev =>
      let rev := ToLower (TrimSpace rev) in
      String.eqb rev "" || Contains rev "volume"
  end.

Definition parseQuantMax (defs : gmap string string) : Z :=
  match defs !! "QUANT" with
  | None => 8
  | Some raw =>
      match Atoi (TrimSpace raw) with
      | Some v => if v <=? 0 then 8 else v
      | None => 8
      end
  end.

Definition parseTMODE (defs : gmap string string) : string * Z * Z :=
  match defs !! "TMODE" with
  | None => ("", 100, 60)
  | Some raw =>
      let raw := ToLower (TrimSpace raw) in
      if HasPrefix raw "unit=" then
        match Atoi (TrimSpace (TrimPrefix raw "unit=")) with
        | Some v => if v <=? 0 then ("", 100, 60) else ("unit", v, 60)
        | None => ("", 100, 60)
        end
      else if HasPrefix raw "fps=" then
        match Atoi (TrimSpace (TrimPrefix raw "fps=")) with
        | Some v => if v <=? 0 then ("", 100, 60) else ("fps", 100, v)
        | None => ("", 100, 60)
        end
      else ("", 100, 60)
  end.

Definition applyTMODETempo (rawTempo : Z) (opts : parserOptions) : float :=
  if rawTempo <=? 0 then 120%float
  else if String.eqb opts.(tempoMode) "unit" then
    let unit := if opts.(tempoUnit) <=? 0 then 100 else opts.(tempoUnit) in
    (GoFloat.ofInt rawTempo / GoFloat.ofInt unit)%float
  else if String.eqb opts.(tempoMode) "fps" then
    let fps := if opts.(tempoFPS) <=? 0 then 60 else opts.(tempoFPS) in
    ((GoFloat.ofInt fps * 60) / GoFloat.ofInt rawTempo)%float
  else GoFloat.ofInt rawTempo.

(** The key signature: the seven note letters, each with -1, 0 or 1. *)
Definition keySig0 : gmap ascii Z :=
  list_to_map (map (fun c => (c, 0)) (list_ascii_of_string "cdefgab")).

Definition setKeys (keys : list ascii) (v : Z) (m : gmap ascii Z) : gmap ascii Z :=
  foldl (fun acc k => <[k := v]> acc) m keys.

(** One token of the comma form of [#SIGN], e.g. [f+]. *)
Definition applySignToken (out : gmap ascii Z) (tok : string) : gmap ascii Z :=
  let tok := TrimSpace tok in
  if (len tok <? 2)%nat then out
  else
    let n := byteAt tok 0 in
    match out !! n with
    | None => out
    | Some _ =>
        let last := byteAt tok (len tok - 1) in
        if Ascii.eqb last "+" || Ascii.eqb last "#" then <[n := 1]> out
        else if Ascii.eqb last "-" || Ascii.eqb last "b" then <[n := -1]> out
        else <[n := 0]> out
    end.

(** The named keys of [parseKeySignature]'s [switch], in its order. *)
Definition keyTable : list (list string * list ascii * Z) :=
  let k := list_ascii_of_string in
  [ (["c"; "am"], k "", 0);
    (["g"; "em"], k "f", 1);
    (["d"; "bm"], k "fc", 1);
    (["a"; "f#m"], k "fcg", 1);
    (["e"; "c#m"], k "fcgd", 1);
    (["b"; "g#m"], k "fcgda", 1);
    (["f#"; "d#m"], k "fcgdae", 1);
    (["c#"; "a#m"], k "fcgdaeb", 1);
    (["f"; "dm"], k "b", -1);
    (["bb"; "gm"], k "be", -1);
    (["eb"; "cm"], k "bea", -1);
    (["ab"; "fm"], k "bead", -1);
    (["db"; "bbm"], k "beadg", -1);
    (["gb"; "ebm"], k "beadgc", -1);
    (["cb"; "abm"], k "beadgcf", -1) ].

Fixpoint lookupKey (key : string) (tbl : list (list string * list ascii * Z))
  : option (list ascii * Z) :=
  match tbl with
  | [] => None
  | (names, keys, v) :: rest =>
      if existsb (String.eqb key) names then Some (keys, v) else lookupKey key rest
  end.

Definition parseKeySignature (defs : gmap string string) : gmap ascii Z :=
  let out := keySig0 in
  let raw := TrimSpace (default "" (defs !! "SIGN")) in
  if String.eqb raw "" then out
  else
    let lowerRaw := ToLower raw in
    if Contains lowerRaw "," then foldl applySignToken out (SplitB lowerRaw ",")
    else
      let key := ReplaceAllB (ReplaceAllB lowerRaw "+" "#") " " "" in
      match lookupKey key keyTable with
      | Some (keys, v) => setKeys keys v out
      | None => out
      end.

Definition newState (cfg : ParserConfig.t) (opts : parserOptions)
  (defs : gmap string string) : outcome parseState :=
  let quantMax := if opts.(opt_quantMax) <=? 0 then 8 else opts.(opt_quantMax) in
  let quantValue := (quantMax ⊠ 3) ⊘ 4 in
  let quantValue := if quantValue <=? 0 then quantMax else quantValue in
  defaultLen ← GoInt.divP cfg.(ParserConfig.Resolution) cfg.(ParserConfig.DefaultLValue);
  Ok {| resolution := cfg.(ParserConfig.Resolution);
        tick := 0;
        octave := cfg.(ParserConfig.DefaultOctave);
        defaultLen := defaultLen;
        bpm := cfg.(ParserConfig.DefaultBPM);
        volume := cfg.(ParserConfig.DefaultVolume);
        fineVol := cfg.(ParserConfig.DefaultFineVol);
        expression := 128;
        quantMax := quantMax;
        quantValue := quantValue;
        gatePercent := (quantValue ⊠ 100) ⊘ quantMax;
        keyOffTick := -1;
        keyOnDelay := 0;
        slurMode := SlurNone;
        transpose := 0;
        detune := 0;
        pan := 0;
        program := 0;
        module := 0;
        channel := 0;
        revVolume := isVolumeReversed defs;
        keySig := parseKeySignature defs;
        vmode := ToLower (TrimSpace (default "" (defs !! "VMODE")));
        vScaleMode := 0;
        vScaleMax := 16;
        xScaleMode := 0 |}.

(** **** Velocity *)

Section Velocity.
Context `{!GoMath}.

Definition dbScale (norm dbRange : float) : float :=
  if PrimFloat.leb norm 0 then 0%float
  else if PrimFloat.leb 1 norm then 1%float
  else math_Pow 10 (- dbRange * (1 - norm) / 20)%float.

Definition scaledVelocity (volume expression fineVol vScaleMode vScaleMax xScaleMode : Z)
  (vmode : string) : Z :=
  let volMax := if vScaleMax <=? 0 then 16 else vScaleMax in
  let vol := clampInt volume 0 127 in
  let expr := clampInt expression 0 128 in
  let fine := clampInt fineVol 0 128 in
  let volNorm := (GoFloat.ofInt vol / GoFloat.ofInt volMax)%float in
  let volNorm := if PrimFloat.ltb volNorm 0 then 0%float else volNorm in
  let volNorm := if PrimFloat.ltb 1 volNorm then 1%float else volNorm in
  let exprNorm := (GoFloat.ofInt expr / 128)%float in
  let volNorm :=
    if (vScaleMode =? 1) || (Contains vmode "n88" && (vScaleMode =? 0)) then dbScale volNorm 96
    else if (vScaleMode =? 2) || (Contains vmode "mdx" && (vScaleMode =? 0)) then dbScale volNorm 64
    else if (vScaleMode =? 3) || (Contains vmode "mck" && (vScaleMode =? 0)) then dbScale volNorm 48
    else if (vScaleMode =? 4) || (Contains vmode "tss" && (vScaleMode =? 0)) then dbScale volNorm 32
    else volNorm in
  let exprNorm :=
    if xScaleMode =? 1 then GoFloat.Sqrt exprNorm
    else if xScaleMode =? 2 then (exprNorm * exprNorm)%float
    else if xScaleMode =? 3 then dbScale exprNorm 48
    else if xScaleMode =? 4 then dbScale exprNorm 32
    else exprNorm in
  let vel := (volNorm * exprNorm * (GoFloat.ofInt fine / 128) * 127)%float in
  clampInt (GoFloat.toInt (GoFloat.Round vel)) 0 127.

(** **** Notes *)

(** The statements that end both [parseNote] and [parseNoteByNumber]:
    clamp the note number, scale the velocity, gate the duration. *)
Definition emitNote (st : parseState) (nn dur : Z) : Event :=
  let nn := nn ⊞ st.(transpose) in
  let nn := nn ⊞ (st.(detune) ⊘ 64) in
  let nn := if nn <? 0 then 0 else nn in
  let nn := if nn >? 127 then 127 else nn in
  let vel := scaledVelocity st.(volume) st.(expression) st.(fineVol) st.(vScaleMode)
               st.(vScaleMax) st.(xScaleMode) st.(vmode) in
  let noteDur := parseGateDuration dur st.(gatePercent) in
  let noteDur :=
    if st.(keyOffTick) >? 0 then
      let d := noteDur ⊟ st.(keyOffTick) ⊟ st.(keyOnDelay) in
      if d <? 0 then 0 else d
    else noteDur in
  {| Type_ := EventNote; Tick := st.(tick); Duration := noteDur; Note := nn;
     Value := vel; Program := st.(program); Pan := st.(pan); Module_ := st.(module);
     Channel := st.(channel); Detune := st.(detune); Expr := st.(expression);
     GateTick := st.(keyOffTick); Delay := st.(keyOnDelay); Slur := st.(slurMode);
     Command := ""; Text := ""; Values := [] |}.

End Velocity.

(** **** Loop expansion ([expandLoops]) *)

Fixpoint repeatStr (n : nat) (s : string) : string :=
  match n with
  | O => ""
  | S k => s +:+ repeatStr k s
  end.

(** [parseLoopBody]; [pre], [post] and [breakHit] are its local variables. *)
Fixpoint parseLoopBody (fuel : nat) (src : string) (at_ : nat) (depth : Z)
  (pre post : string) (breakHit : bool) : outcome (string * nat) :=
  match fuel with
  | O => Fuel
  | S f =>
      if (at_ <? len src)%nat then
        let ch := byteAt src at_ in
        if Ascii.eqb ch "[" then
          '(body, next) ← parseLoopBody f src (S at_) (depth ⊞ 1) "" "" false;
          if breakHit then parseLoopBody f src next depth pre (post +:+ body) breakHit
          else parseLoopBody f src next depth (pre +:+ body) post breakHit
        else if Ascii.eqb ch "|" && (depth =? 1) then
          parseLoopBody f src (S at_) depth pre post true
        else if Ascii.eqb ch "]" then
          '(repeat, next) ← parseNumberDefault src (S at_) 2;
          let repeat := if repeat <? 1 then 1 else repeat in
          if breakHit
          then Ok (repeatStr (Z.to_nat (repeat - 1)) pre +:+ post, next)
          else Ok (repeatStr (Z.to_nat repeat) pre, next)
        else if breakHit then
          parseLoopBody f src (S at_) depth pre (post +:+ String ch "") breakHit
        else
          parseLoopBody f src (S at_) depth (pre +:+ String ch "") post breakHit
      else Fail "unclosed loop block"
  end.

Fixpoint parseExpanded (fuel : nat) (src : string) (at_ : nat) (depth : Z) (out : string)
  : outcome (string * nat) :=
  match fuel with
  | O => Fuel
  | S f =>
      if (at_ <? len src)%nat then
        let ch := byteAt src at_ in
        if Ascii.eqb ch "]" then
          if depth =? 0 then Fail "unmatched ']'" else Ok (out, at_)
        else if negb (Ascii.eqb ch "[") then
          parseExpanded f src (S at_) depth (out +:+ String ch "")
        else
          '(body, next) ← parseLoopBody (2 * len src + 2) src (S at_) (depth ⊞ 1) "" "" false;
          parseExpanded f src next depth (out +:+ body)
      else if depth >? 0 then Fail "unclosed '['"
      else Ok (out, at_)
  end.

Definition expandLoops (src : string) : outcome string :=
  '(out, i) ← parseExpanded (len src + 1) src 0 0 "";
  if (i =? len src)%nat then Ok out else Fail "unexpected parser position".

Section Track.
Context `{!GoMath}.

Definition isAccidental (c : ascii) : bool :=
  let c := lower c in
  Ascii.eqb c "#" || Ascii.eqb c "+" || Ascii.eqb c "-" || Ascii.eqb c "b".

(** The sum of the accidentals of a run of accidental bytes. *)
Fixpoint accidentalShift (s : string) : Z :=
  match s with
  | EmptyString => 0
  | String c r =>
      let c := lower c in
      (if Ascii.eqb c "#" || Ascii.eqb c "+" then 1 else -1) + accidentalShift r
  end.

Definition parseNoteByNumber (s : string) (at_ : nat) (st : parseState)
  : outcome (Event * Z * nat) :=
  '(nn, next) ← parseNumberDefault s (S at_) 60;
  '(dur, next) ← parseLengthWithTie s next st;
  Ok (emitNote st nn dur, dur, next).

Definition parseNote (s : string) (at_ : nat) (st : parseState)
  : outcome (Event * Z * nat) :=
  let base := default 0 (noteOffsets (lower (byteAt s at_))) in
  let i := skipWhile isAccidental s (S at_) in
  let shift := accidentalShift (slice s (S at_) i) in
  let explicitAccidental := (S at_ <? i)%nat in
  let shift :=
    if explicitAccidental then shift
    else shift ⊞ default 0 (st.(keySig) !! lower (byteAt s at_)) in
  '(dur, next) ← parseLengthWithTie s i st;
  let nn := st.(octave) ⊠ 12 ⊞ base ⊞ shift in
  Ok (emitNote st nn dur, dur, next).

(** The variables of [parseTrack]'s loop. *)
Record trackAcc : Type := mkAcc {
  pos : nat;
  pst : parseState;
  evs : list Event;
  lTick : Z;
  lIndex : Z
}.

(** [for next < len(s) && s[next] == ',' { arg := parse(s, next+1, 0); ... }] *)
Fixpoint argLoop (parse : string -> nat -> Z -> outcome (Z * nat)) (fuel : nat)
  (s : string) (next : nat) (values : list Z) : outcome (list Z * nat) :=
  match fuel with
  | O => Fuel
  | S f =>
      if (next <? len s)%nat && Ascii.eqb (byteAt s next) "," then
        '(arg, n2) ← parse s (S next) 0;
        argLoop parse f s n2 (values ++ [arg])
      else Ok (values, next)
  end.

(** The argument loop of a program change, which stops at an error. *)
Fixpoint argLoopBreak (fuel : nat) (s : string) (next : nat) (values : list Z)
  : list Z * nat :=
  match fuel with
  | O => (values, next)
  | S f =>
      if (next <? len s)%nat && Ascii.eqb (byteAt s next) "," then
        match parseNumberDefault s (S next) 0 with
        | Ok (arg, n2) => argLoopBreak f s n2 (values ++ [arg])
        | _ => (values, next)
        end
      else (values, next)
  end.

Definition isTailByte (c : ascii) : bool :=
  Ascii.eqb c "," || Ascii.eqb c "+" || Ascii.eqb c "-" || isDigit c || isSpace c.

Definition control (st : parseState) (cmd : string) (val : Z) : Event :=
  set_Value val (set_Command cmd (set_Tick st.(tick) (set_Type_ EventControl Event0))).

Definition simple (ty : EventType) (st : parseState) (val : Z) : Event :=
  set_Value val (set_Tick st.(tick) (set_Type_ ty Event0)).

Definition guillemetL : string := String (ascii_of_nat 194) (String (ascii_of_nat 171) "").
Definition guillemetR : string := String (ascii_of_nat 194) (String (ascii_of_nat 187) "").

Definition isTableWord (src : string) (i : nat) : bool :=
  existsb (startsWithWord src i)
    ["na"; "np"; "nt"; "nf"; "_na"; "_np"; "_nt"; "_nf"; "@@"; "_@@"].

(** The [default:] branch of the [switch]. *)
Definition stepDefault (expanded : string) (a : trackAcc) : outcome trackAcc :=
  let i := a.(pos) in
  let st := a.(pst) in
  let ch := lower (byteAt expanded i) in
  if startsWithWord expanded i "kt" then
    '(val, next) ← parseSignedNumberDefault expanded (i + 2) st.(transpose);
    Ok (mkAcc next (set_transpose val st) (a.(evs) ++ [simple EventTranspose st val])
          a.(lTick) a.(lIndex))
  else if startsWithWord expanded i "po" || Ascii.eqb ch "*" then
    let '(cmd, advance) :=
      if startsWithWord expanded i "po" then ("po", (i + 2)%nat)
      else (String ch "", (i + 1)%nat) in
    '(val, next) ← parseSignedNumberDefault expanded advance 0;
    Ok (mkAcc next st (a.(evs) ++ [control st cmd val]) a.(lTick) a.(lIndex))
  else if startsWithWord expanded i "mp" || startsWithWord expanded i "ma"
          || startsWithWord expanded i "mf" then
    let cmd := ToLower (slice expanded i (i + 2)) in
    '(val, next) ← parseSignedNumberDefault expanded (i + 2) 0;
    let tailStart := next in
    let next := skipWhile isTailByte expanded next in
    Ok (mkAcc next st
          (a.(evs) ++ [set_Text (TrimSpace (slice expanded tailStart next)) (control st cmd val)])
          a.(lTick) a.(lIndex))
  else if isTableWord expanded i then
    let '(cmd, next) := parseWordToken expanded i in
    let '(val, n2) :=
      match parseSignedNumberDefault expanded next 0 with
      | Ok r => r
      | _ => (0, next)
      end in
    let '(step, values, n2) :=
      if (n2 <? len expanded)%nat && Ascii.eqb (byteAt expanded n2) "," then
        let '(v2, n3) :=
          match parseNumberDefault expanded (S n2) 1 with
          | Ok r => r
          | _ => (0, S n2)
          end in
        (v2, [val; v2], n3)
      else (1, [val], n2) in
    Ok (mkAcc n2 st
          (a.(evs) ++ [set_Values values (set_Delay step (set_Value val
             (set_Command cmd (set_Tick st.(tick) (set_Type_ EventTableEnv Event0)))))])
          a.(lTick) a.(lIndex))
  else Ok (mkAcc (S i) st a.(evs) a.(lTick) a.(lIndex)).

(** The [case ch == '%'] branch. *)
Definition stepPercent (expanded : string) (a : trackAcc) : outcome trackAcc :=
  let i := a.(pos) in
  let st := a.(pst) in
  let n := len expanded in
  let c1 := lower (byteAt expanded (S i)) in
  if (S i <? n)%nat && (Ascii.eqb c1 "f" || Ascii.eqb c1 "t" || Ascii.eqb c1 "e") then
    let cmd := "%" +:+ String c1 "" in
    '(val, next) ← parseSignedNumberDefault expanded (i + 2) 0;
    '(values, next) ← argLoop parseSignedNumberDefault (S n) expanded next [val];
    Ok (mkAcc next st (a.(evs) ++ [set_Values values (control st cmd val)])
          a.(lTick) a.(lIndex))
  else if (S i <? n)%nat && (Ascii.eqb c1 "v" || Ascii.eqb c1 "x") then
    '(val, next) ← parseNumberDefault expanded (i + 2) 0;
    if Ascii.eqb c1 "v" then
      let mode := val in
      '(max, next) ←
        (if (next <? n)%nat && Ascii.eqb (byteAt expanded next) "," then
           '(mv, n2) ← parseNumberDefault expanded (S next) 0;
           Ok (if mv >? 0 then GoInt.shr 256 mv else st.(vScaleMax), n2)
         else Ok (st.(vScaleMax), next));
      let max := if max <=? 0 then 16 else max in
      Ok (mkAcc next (set_vScaleMax max (set_vScaleMode mode st))
            (a.(evs) ++ [set_Values [mode; max] (control st "%v" mode)])
            a.(lTick) a.(lIndex))
    else
      Ok (mkAcc next (set_xScaleMode val st)
            (a.(evs) ++ [set_Values [val] (control st "%x" val)])
            a.(lTick) a.(lIndex))
  else
    '(mod_, next) ← parseNumberDefault expanded (S i) st.(module);
    '(chv, next) ←
      (if (next <? n)%nat && Ascii.eqb (byteAt expanded next) "," then
         parseNumberDefault expanded (S next) 0
       else Ok (0, next));
    let st := set_channel chv (set_module mod_ st) in
    Ok (mkAcc next st
          (a.(evs) ++ [set_Channel chv (set_Module_ mod_
             (set_Tick st.(tick) (set_Type_ EventModule Event0)))])
          a.(lTick) a.(lIndex)).

(** The [case ch == '@'] branch. *)
Definition stepAt (expanded : string) (a : trackAcc) : outcome trackAcc :=
  let i := a.(pos) in
  let st := a.(pst) in
  let n := len expanded in
  let c1 := lower (byteAt expanded (S i)) in
  if (S i <? n)%nat && Ascii.eqb c1 "v" then
    '(val, next) ← parseNumberDefault expanded (i + 2) st.(fineVol);
    '(values, next) ← argLoop parseNumberDefault (S n) expanded next [val];
    Ok (mkAcc next (set_fineVol val st)
          (a.(evs) ++ [set_Values values (simple EventFineVolume st val)])
          a.(lTick) a.(lIndex))
  else if (S i <? n)%nat && Ascii.eqb c1 "q" then
    '(off, next) ← parseNumberDefault expanded (i + 2) st.(keyOffTick);
    let convertedOff := convertQuarter192ToTicks off st.(resolution) in
    let convertedOff := if convertedOff <=? 0 then -1 else convertedOff in
    '(delay, next) ←
      (if (next <? n)%nat && Ascii.eqb (byteAt expanded next) "," then
         '(delay, n2) ← parseNumberDefault expanded (S next) 0;
         Ok (convertQuarter192ToTicks delay st.(resolution), n2)
       else Ok (0, next));
    let st := set_keyOnDelay delay (set_keyOffTick convertedOff st) in
    Ok (mkAcc next st
          (a.(evs) ++ [set_Delay delay (set_GateTick convertedOff
             (set_Tick st.(tick) (set_Type_ EventKeyOnDelay Event0)))])
          a.(lTick) a.(lIndex))
  else if startsWithWord expanded i "@p" then
    '(val, next) ← parseSignedNumberDefault expanded (i + 2) st.(pan);
    let st := set_pan (normalizePanValue val) st in
    Ok (mkAcc next st (a.(evs) ++ [simple EventPan st st.(pan)]) a.(lTick) a.(lIndex))
  else if startsWithWord expanded i "@mask" then
    '(val, next) ← parseNumberDefault expanded (i + 5) 0;
    Ok (mkAcc next st (a.(evs) ++ [control st "@mask" (clampInt val 0 63)])
          a.(lTick) a.(lIndex))
  else if (S i <? n)%nat && isAlpha c1 then
    let cmdStart := S i in
    let cmdEnd := skipWhile (fun c => isAlpha (lower c)) expanded cmdStart in
    let cmd := ToLower (slice expanded cmdStart cmdEnd) in
    let '(first, next) :=
      if (cmdEnd <? n)%nat then
        match parseSignedNumberDefault expanded cmdEnd 0 with
        | Ok r => r
        | _ => (0, cmdEnd)
        end
      else (0, cmdEnd) in
    let tailStart := next in
    let next := skipWhile isTailByte expanded next in
    Ok (mkAcc next st
          (a.(evs) ++ [set_Text (TrimSpace (slice expanded tailStart next))
                         (control st ("@" +:+ cmd) first)])
          a.(lTick) a.(lIndex))
  else
    '(val, next) ← parseNumberDefault expanded (S i) st.(program);
    let st := set_program val st in
    let '(args, next) := argLoopBreak (S n) expanded next [] in
    Ok (mkAcc next st (a.(evs) ++ [set_Values args (simple EventProgram st val)])
          a.(lTick) a.(lIndex)).

(** One round of the loop of [parseTrack]: the byte at [pos] and the
    command it starts. *)
Definition parseTrackStep (cfg : ParserConfig.t) (opts : parserOptions)
  (expanded : string) (a : trackAcc) : outcome trackAcc :=
  let i := a.(pos) in
  let st := a.(pst) in
  let n := len expanded in
  let ch := lower (byteAt expanded i) in
  let keep st' next new := Ok (mkAcc next st' (a.(evs) ++ new) a.(lTick) a.(lIndex)) in
  if isSpace ch then keep st (S i) []
  else if Ascii.eqb ch "n" && (S i <? n)%nat && isDigit (byteAt expanded (S i)) then
    '(evt, stepDur, next) ← parseNoteByNumber expanded i st;
    keep (set_tick (st.(tick) ⊞ stepDur) (set_slurMode SlurNone st)) next [evt]
  else if isNote ch then
    '(evt, stepDur, next) ← parseNote expanded i st;
    keep (set_tick (st.(tick) ⊞ stepDur) (set_slurMode SlurNone st)) next [evt]
  else if Ascii.eqb ch "r" then
    '(dur, next) ← parseLengthWithTie expanded (S i) st;
    keep (set_tick (st.(tick) ⊞ dur) st) next
      [set_Duration dur (set_Tick st.(tick) (set_Type_ EventRest Event0))]
  else if Ascii.eqb ch "l" then
    '(length, next) ← parseLengthToken expanded (S i) st.(resolution) st.(defaultLen);
    keep (set_defaultLen length st) next []
  else if Ascii.eqb ch "t" then
    '(val, next) ← parseNumberDefault expanded (S i) (GoFloat.toInt st.(bpm));
    let bpm := applyTMODETempo val opts in
    keep (set_bpm bpm st) next
      [simple EventTempo st (GoFloat.toInt (GoFloat.Round bpm))]
  else if Ascii.eqb ch "o" then
    '(val, next) ← parseNumberDefault expanded (S i) st.(octave);
    if (val <? cfg.(ParserConfig.MinOctave)) || (val >? cfg.(ParserConfig.MaxOctave))
    then Fail "octave out of range"
    else keep (set_octave val st) next []
  else if HasPrefix (sliceFrom expanded i) guillemetL then
    let o := st.(octave) ⊞ 2 ⊠ cfg.(ParserConfig.OctavePolarize) in
    keep (set_octave (clampInt o cfg.(ParserConfig.MinOctave) cfg.(ParserConfig.MaxOctave)) st)
      (i + len guillemetL)%nat []
  else if HasPrefix (sliceFrom expanded i) guillemetR then
    let o := st.(octave) ⊟ 2 ⊠ cfg.(ParserConfig.OctavePolarize) in
    keep (set_octave (clampInt o cfg.(ParserConfig.MinOctave) cfg.(ParserConfig.MaxOctave)) st)
      (i + len guillemetR)%nat []
  else if Ascii.eqb ch "<" then
    '(val, next) ← parseNumberDefault expanded (S i) 1;
    let o := st.(octave) ⊞ val ⊠ cfg.(ParserConfig.OctavePolarize) in
    keep (set_octave (clampInt o cfg.(ParserConfig.MinOctave) cfg.(ParserConfig.MaxOctave)) st)
      next []
  else if Ascii.eqb ch ">" then
    '(val, next) ← parseNumberDefault expanded (S i) 1;
    let o := st.(octave) ⊟ val ⊠ cfg.(ParserConfig.OctavePolarize) in
    keep (set_octave (clampInt o cfg.(ParserConfig.MinOctave) cfg.(ParserConfig.MaxOctave)) st)
      next []
  else if Ascii.eqb ch "v" then
    '(val, next) ← parseNumberDefault expanded (S i) st.(volume);
    keep (set_volume val st) next [simple EventVolume st val]
  else if Ascii.eqb ch "x" then
    '(val, next) ← parseNumberDefault expanded (S i) st.(expression);
    let e := clampInt val 0 128 in
    keep (set_expression e st) next [simple EventExpression st e]
  else if Ascii.eqb ch "q" then
    '(val, next) ← parseNumberDefault expanded (S i) st.(quantValue);
    let val := clampInt val 0 st.(quantMax) in
    gp ← GoInt.divP (val ⊠ 100) st.(quantMax);
    keep (set_gatePercent gp (set_quantValue val st)) next [simple EventQuantize st val]
  else if Ascii.eqb ch "k" then
    if (S i <? n)%nat && Ascii.eqb (lower (byteAt expanded (S i))) "t" then
      '(val, next) ← parseSignedNumberDefault expanded (i + 2) st.(transpose);
      keep (set_transpose val st) next [simple EventTranspose st val]
    else
      '(val, next) ← parseSignedNumberDefault expanded (S i) st.(detune);
      keep (set_detune val st) next [simple EventDetune st val]
  else if Ascii.eqb ch "p" then
    if (S i <? n)%nat && Ascii.eqb (lower (byteAt expanded (S i))) "o" then
      '(val, next) ← parseSignedNumberDefault expanded (i + 2) 0;
      keep st next [control st "po" val]
    else
      '(val, next) ← parseSignedNumberDefault expanded (S i) st.(pan);
      let st := set_pan (normalizePanValue val) st in
      keep st next [simple EventPan st st.(pan)]
  else if Ascii.eqb ch "%" then stepPercent expanded a
  else if Ascii.eqb ch "&" then
    if (S i <? n)%nat && Ascii.eqb (byteAt expanded (S i)) "&" then
      keep (set_slurMode SlurWeak st) (i + 2)%nat
        [set_Slur SlurWeak (set_Tick st.(tick) (set_Type_ EventSlur Event0))]
    else
      keep (set_slurMode SlurNormal st) (S i)
        [set_Slur SlurNormal (set_Tick st.(tick) (set_Type_ EventSlur Event0))]
  else if Ascii.eqb ch "s" then
    '(val, next) ← parseSignedNumberDefault expanded (S i) 0;
    '(values, next) ←
      (if (next <? n)%nat && Ascii.eqb (byteAt expanded next) "," then
         '(v2, n2) ← parseSignedNumberDefault expanded (S next) 0;
         Ok ([val; v2], n2)
       else Ok ([val], next));
    keep st next [set_Values values (control st "s" val)]
  else if Ascii.eqb ch "(" || Ascii.eqb ch ")" then
    '(shift, next) ← parseNumberDefault expanded (S i) 1;
    let up := Ascii.eqb ch "(" in
    let up := if st.(revVolume) then negb up else up in
    let vol := if up then st.(volume) ⊞ shift else st.(volume) ⊟ shift in
    let vol := clampInt vol 0 127 in
    keep (set_volume vol st) next [simple EventVolume st vol]
  else if Ascii.eqb ch "@" then stepAt expanded a
  else if Ascii.eqb ch "$" then
    Ok (mkAcc (S i) st a.(evs) st.(tick) (Z.of_nat (length a.(evs))))
  else stepDefault expanded a.

Fixpoint parseTrackLoop (fuel : nat) (cfg : ParserConfig.t) (opts : parserOptions)
  (expanded : string) (a : trackAcc) : outcome trackAcc :=
  match fuel with
  | O => Fuel
  | S f =>
      if (a.(pos) <? len expanded)%nat then
        a' ← parseTrackStep cfg opts expanded a;
        parseTrackLoop f cfg opts expanded a'
      else Ok a
  end.

(** [Parser.parseTrack]; the parser [p] is its configuration. *)
Definition parseTrack (cfg : ParserConfig.t) (input : string) (opts : parserOptions)
  (defs : gmap string string) : outcome (Track * float) :=
  expanded ← expandLoops input;
  st ← newState cfg opts defs;
  a ← parseTrackLoop (S (len expanded)) cfg opts expanded (mkAcc 0 st [] (-1) (-1));
  Ok ({| Events := a.(evs); EndTick := a.(pst).(tick);
         LoopTick := a.(lTick); LoopIndex := a.(lIndex) |}, a.(pst).(bpm)).

End Track.

(** *** The preprocessor *)

(** [preprocessorState]; its [revVolume] field is [pp_revVolume] here,
    the name being taken by [parseState]. *)
Record preprocessorState : Type := mkPre {
  macros : gmap string string;
  definitions : gmap string string;
  macroDynamic : bool;
  revOctave : bool;
  pp_revVolume : bool
}.

Definition newline : ascii := ascii_of_nat 10.

(** The inner loop of a block comment: the value of [i] when it ends. *)
Fixpoint blockEnd (fuel : nat) (src : string) (i : nat) : nat :=
  match fuel with
  | O => i
  | S f =>
      if (i <? len src)%nat then
        if (S i <? len src)%nat && Ascii.eqb (byteAt src i) "*"
           && Ascii.eqb (byteAt src (S i)) "/"
        then S i
        else blockEnd f src (S i)
      else i
  end.

Fixpoint stripLoop (fuel : nat) (src : string) (i : nat) (out : string) : string :=
  match fuel with
  | O => out
  | S f =>
      if (i <? len src)%nat then
        if (S i <? len src)%nat && Ascii.eqb (byteAt src i) "/"
           && Ascii.eqb (byteAt src (S i)) "*" then
          stripLoop f src (S (blockEnd (len src) src (i + 2))) out
        else if (S i <? len src)%nat && Ascii.eqb (byteAt src i) "/"
                && Ascii.eqb (byteAt src (S i)) "/" then
          let j := skipWhile (fun c => negb (Ascii.eqb c newline)) src (i + 2) in
          let out :=
            if (j <? len src)%nat && Ascii.eqb (byteAt src j) newline
            then out +:+ String newline "" else out in
          stripLoop f src (S j) out
        else stripLoop f src (S i) (out +:+ String (byteAt src i) "")
      else out
  end.

Definition stripComments (src : string) : string := stripLoop (S (len src)) src 0 "".

Definition swapOctaveMarkers (src : string) : string :=
  mapB (fun c => if Ascii.eqb c "<" then ">"%char
                 else if Ascii.eqb c ">" then "<"%char else c) src.

Definition noteNameForSemitone (n : Z) : string :=
  match n with
  | 0 => "c" | 1 => "c+" | 2 => "d" | 3 => "d+" | 4 => "e" | 5 => "f"
  | 6 => "f+" | 7 => "g" | 8 => "g+" | 9 => "a" | 10 => "a+"
  | _ => "b"
  end.

Definition isAccidentalByte (c : ascii) : bool :=
  let c := lower c in
  Ascii.eqb c "#" || Ascii.eqb c "+" || Ascii.eqb c "-" || Ascii.eqb c "b".

Fixpoint accidentalSum (s : string) : Z :=
  match s with
  | EmptyString => 0
  | String c r =>
      let c := lower c in
      (if Ascii.eqb c "#" || Ascii.eqb c "+" then 1 else -1) + accidentalSum r
  end.

Fixpoint transposeLoop (fuel : nat) (src : string) (semitone : Z) (i : nat)
  (currentOctave : Z) (out : string) : string :=
  match fuel with
  | O => out
  | S f =>
      if (i <? len src)%nat then
        let ch := byteAt src i in
        let lo := lower ch in
        if Ascii.eqb lo "o" then
          let out := out +:+ String ch "" in
          match parseNumberOptional src (S i) with
          | Ok (val, next) =>
              if val >=? 0
              then transposeLoop f src semitone next val (out +:+ slice src (S i) next)
              else transposeLoop f src semitone (S i) currentOctave out
          | _ => transposeLoop f src semitone (S i) currentOctave out
          end
        else if Ascii.eqb lo "<" || Ascii.eqb lo ">" then
          let '(delta, next) :=
            match parseNumberDefault src (S i) 1 with
            | Ok r => r
            | _ => (1, S i)
            end in
          let currentOctave :=
            if Ascii.eqb lo "<" then currentOctave ⊞ delta else currentOctave ⊟ delta in
          let out := out +:+ String ch "" in
          let out := if (S i <? next)%nat then out +:+ slice src (S i) next else out in
          transposeLoop f src semitone next currentOctave out
        else if negb (isNote lo) then
          transposeLoop f src semitone (S i) currentOctave (out +:+ String ch "")
        else
          let base := default 0 (noteOffsets lo) in
          let j := skipWhile isAccidentalByte src (S i) in
          let shift := accidentalSum (slice src (S i) j) in
          let abs := currentOctave ⊠ 12 ⊞ base ⊞ shift ⊞ semitone in
          let newOct := abs ⊘ 12 in
          let newNote := GoInt.rem abs 12 in
          let '(newNote, newOct) :=
            if newNote <? 0 then (newNote ⊞ 12, newOct ⊟ 1) else (newNote, newOct) in
          transposeLoop f src semitone j newOct (out +:+ noteNameForSemitone newNote)
      else out
  end.

Definition transposeNotes (src : string) (semitone : Z) : string :=
  transposeLoop (S (len src)) src semitone 0 5 "".

Definition parseOptionalSignedParen (src : string) (at_ : nat) : Z * nat :=
  if (len src <=? at_)%nat || negb (Ascii.eqb (byteAt src at_) "(") then (0, at_)
  else
    let i := S at_ in
    let '(sign, i) :=
      if (i <? len src)%nat && Ascii.eqb (byteAt src i) "+" then (1, S i)
      else if (i <? len src)%nat && Ascii.eqb (byteAt src i) "-" then (-1, S i)
      else (1, i) in
    let startDigits := i in
    let i := skipWhile isDigit src i in
    if (startDigits =? i)%nat || (len src <=? i)%nat || negb (Ascii.eqb (byteAt src i) ")")
    then (0, at_)
    else match Atoi (slice src startDigits i) with
         | Some v => (sign ⊠ v, S i)
         | None => (0, at_)
         end.

(** [expandMacroByName], with the call to [expandMacroText] it makes in
    dynamic mode passed as [expandText]. *)
Definition expandMacroByNameWith (expandText : string -> Z -> string)
  (name : string) (shift : Z) (st : preprocessorState) (depth : Z) : string :=
  if depth >? 32 then name
  else
    match st.(macros) !! name with
    | None => name
    | Some body =>
        let body := if st.(macroDynamic) then expandText body (depth ⊞ 1) else body in
        let body := if shift =? 0 then body else transposeNotes body shift in
        let body := if st.(revOctave) then swapOctaveMarkers body else body in
        body
    end.

(** The loop of [expandMacroText] over the bytes of [src]. *)
Fixpoint textLoop (byName : string -> Z -> string) (st : preprocessorState)
  (fuel : nat) (src : string) (i : nat) (out : string) : string :=
  match fuel with
  | O => out
  | S f =>
      if (i <? len src)%nat then
        let ch := byteAt src i in
        if isMacroName ch && bool_decide (is_Some (st.(macros) !! String ch "")) then
          let '(shift, next) := parseOptionalSignedParen src (S i) in
          textLoop byName st f src next (out +:+ byName (String ch "") shift)
        else textLoop byName st f src (S i) (out +:+ String ch "")
      else out
  end.

(** [expandMacroText]; [depth] is bounded by 32 in the source, and [fuel]
    follows it. *)
Fixpoint expandMacroTextF (fuel : nat) (src : string) (st : preprocessorState) (depth : Z)
  : string :=
  match fuel with
  | O => src
  | S f =>
      if depth >? 32 then src
      else
        textLoop
          (fun name shift =>
             expandMacroByNameWith (fun body d => expandMacroTextF f body st d)
               name shift st (depth ⊞ 1))
          st (S (len src)) src 0 ""
  end.

Definition expandMacroText (src : string) (st : preprocessorState) (depth : Z) : string :=
  expandMacroTextF 40 src st depth.

Definition expandMacroByName (name : string) (shift : Z) (st : preprocessorState)
  (depth : Z) : string :=
  expandMacroByNameWith (fun body d => expandMacroText body st d) name shift st depth.

Definition addTarget (out : list string) (key : string) : list string :=
  if existsb (String.eqb key) out then out else out ++ [key].

(** [for c := from; ; c += step { ...; if c == to { break } }] *)
Definition targetRange (from to : nat) : list string :=
  let codes :=
    if (from <=? to)%nat then seq from (S (to - from))
    else rev (seq to (S (from - to))) in
  map (fun c => String (ascii_of_nat c) "") codes.

Fixpoint targetsLoop (fuel : nat) (noSpace : string) (i : nat) (out : list string)
  : list string :=
  match fuel with
  | O => out
  | S f =>
      if (i <? len noSpace)%nat then
        if (i + 2 <? len noSpace)%nat && isMacroName (byteAt noSpace i)
           && Ascii.eqb (byteAt noSpace (S i)) "-" && isMacroName (byteAt noSpace (i + 2))
        then
          targetsLoop f noSpace (i + 3)
            (foldl addTarget out
               (targetRange (nat_of_ascii (byteAt noSpace i))
                  (nat_of_ascii (byteAt noSpace (i + 2)))))
        else if isMacroName (byteAt noSpace i) then
          targetsLoop f noSpace (S i) (addTarget out (String (byteAt noSpace i) ""))
        else targetsLoop f noSpace (S i) out
      else out
  end.

Fixpoint filterB (p : ascii -> bool) (s : string) : string :=
  match s with
  | EmptyString => EmptyString
  | String c r => if p c then String c (filterB p r) else filterB p r
  end.

Definition parseMacroTargets (spec : string) : list string :=
  let noSpace := filterB (fun r => negb (isSpace r)) spec in
  targetsLoop (S (len noSpace)) noSpace 0 [].

Definition applyMacroDefinition (stmt : string) (st : preprocessorState)
  : bool * preprocessorState :=
  let '(opIdx, opLen, appendMode) :=
    match Index stmt "+=" with
    | Some k => (Some k, 2%nat, true)
    | None => (IndexByte stmt "=", 1%nat, false)
    end in
  match opIdx with
  | None | Some O => (false, st)
  | Some opIdx =>
      let targetSpec := TrimSpace (slice stmt 0 opIdx) in
      let value := TrimSpace (sliceFrom stmt (opIdx + opLen)) in
      let targets := parseMacroTargets targetSpec in
      match targets with
      | [] => (false, st)
      | _ =>
          let expandedValue :=
            if st.(macroDynamic) then value else expandMacroText value st 0 in
          let macros' :=
            foldl (fun m target =>
                     if appendMode
                     then <[target := default "" (m !! target) +:+ expandedValue]> m
                     else <[target := expandedValue]> m)
              st.(macros) targets in
          (true, mkPre macros' st.(definitions) st.(macroDynamic) st.(revOctave)
                   st.(pp_revVolume))
      end
  end.

Definition parseBraceValue (s : string) : string :=
  let s := TrimSpace s in
  if (len s <? 2)%nat || negb (Ascii.eqb (byteAt s 0) "{") then ""
  else match IndexByte s "}" with
       | None | Some O => ""
       | Some close => slice s 1 close
       end.

Definition isDirectiveNameByte (ch : ascii) : bool :=
  byteIn "A" "Z" ch || byteIn "0" "9" ch || Ascii.eqb ch "@" || Ascii.eqb ch "_".

Definition extractDirectiveName (s : string) : string :=
  if String.eqb s "" then "DIRECTIVE"
  else
    let end_ := skipWhile isDirectiveNameByte s 0 in
    if (end_ =? 0)%nat then "DIRECTIVE" else slice s 0 end_.

Definition parseKnownDirective (body : string) : option (string * string) :=
  let upper := ToUpper (TrimSpace body) in
  if HasPrefix upper "TITLE{" then Some ("TITLE", parseBraceValue (sliceFrom body 5))
  else if HasPrefix upper "SIGN{" then Some ("SIGN", parseBraceValue (sliceFrom body 4))
  else if HasPrefix upper "VMODE{" then Some ("VMODE", parseBraceValue (sliceFrom body 5))
  else if HasPrefix upper "TMODE{" then Some ("TMODE", parseBraceValue (sliceFrom body 5))
  else if HasPrefix upper "FPS" then Some ("FPS", TrimSpace (sliceFrom body 3))
  else if HasPrefix upper "QUANT" then Some ("QUANT", TrimSpace (sliceFrom body 5))
  else if HasPrefix upper "TABLE" then Some (extractDirectiveName upper, body)
  else if HasPrefix upper "WAV" then Some (extractDirectiveName upper, body)
  else if existsb (HasPrefix upper)
            ["OPL@"; "OPM@"; "OPN@"; "OPX@"; "MA@"; "@"; "FM{"; "EFFECT"; "SAMPLER";
             "PCMWAVE"; "PCMVOICE"]
  then Some (extractDirectiveName upper, body)
  else None.

Definition setDefinition (k v : string) (st : preprocessorState) : preprocessorState :=
  mkPre st.(macros) (<[k := v]> st.(definitions)) st.(macroDynamic) st.(revOctave)
    st.(pp_revVolume).

(** [parseDirective] returns the position after the statement, whether
    to stop scanning ([#END]), and the state it leaves. *)
Definition parseDirective (src : string) (at_ : nat) (st : preprocessorState)
  : nat * bool * preprocessorState :=
  let end_ := skipWhile (fun c => negb (Ascii.eqb c ";")) src (S at_) in
  let stmtEnd :=
    if (end_ <? len src)%nat && Ascii.eqb (byteAt src end_) ";" then S end_ else end_ in
  let body := TrimSpace (slice src (S at_) (Nat.min end_ (len src))) in
  if String.eqb body "" then (stmtEnd, false, st)
  else
    let upperBody := ToUpper body in
    if String.eqb upperBody "END" then (len src, true, setDefinition "END" "1" st)
    else if HasPrefix upperBody "MACRO{" then
      let mode := ToLower (TrimSpace (parseBraceValue (sliceFrom body 5))) in
      let dyn :=
        if String.eqb mode "dynamic" then true
        else if String.eqb mode "static" then false
        else st.(macroDynamic) in
      (stmtEnd, false,
       setDefinition "MACRO_MODE" mode
         (mkPre st.(macros) st.(definitions) dyn st.(revOctave) st.(pp_revVolume)))
    else if HasPrefix upperBody "REV" then
      let opts := ToLower (TrimSpace (parseBraceValue (sliceFrom body 3))) in
      let ro := if String.eqb opts "" || Contains opts "octave" then true else st.(revOctave) in
      let rv :=
        if String.eqb opts "" || Contains opts "volume" then true else st.(pp_revVolume) in
      (stmtEnd, false,
       setDefinition "REV" opts (mkPre st.(macros) st.(definitions) st.(macroDynamic) ro rv))
    else
      match parseKnownDirective body with
      | Some (key, val) => (stmtEnd, false, setDefinition key val st)
      | None => (stmtEnd, false, snd (applyMacroDefinition body st))
      end.

Fixpoint preprocessLoop (fuel : nat) (src : string) (i : nat) (st : preprocessorState)
  (out : string) : string * preprocessorState :=
  match fuel with
  | O => (out, st)
  | S f =>
      if (i <? len src)%nat then
        let c := byteAt src i in
        if Ascii.eqb c "#" then
          let '(advance, stopAll, st') := parseDirective src i st in
          if stopAll then (out, st') else preprocessLoop f src advance st' out
        else if isMacroName c && bool_decide (is_Some (st.(macros) !! String c "")) then
          let '(shift, next) := parseOptionalSignedParen src (S i) in
          preprocessLoop f src next st (out +:+ expandMacroByName (String c "") shift st 0)
        else if st.(revOctave) && Ascii.eqb c "<" then
          preprocessLoop f src (S i) st (out +:+ ">")
        else if st.(revOctave) && Ascii.eqb c ">" then
          preprocessLoop f src (S i) st (out +:+ "<")
        else preprocessLoop f src (S i) st (out +:+ String c "")
      else (out, st)
  end.

Definition preprocessStream (src : string) (st : preprocessorState)
  : string * preprocessorState :=
  preprocessLoop (S (len src)) src 0 st "".

Record preprocessedInput : Type := mkPreprocessed {
  text : string;
  pre_definitions : gmap string string
}.

Definition preprocessInput (src : string) : preprocessedInput :=
  let noComments := stripComments src in
  let state := mkPre ∅ ∅ false false false in
  let '(out, st) := preprocessStream noComments state in
  mkPreprocessed out st.(definitions).

(** *** Track splitting *)

Definition isArgumentComma (src : string) (at_ : nat) : bool :=
  if (len src <=? at_)%nat || negb (Ascii.eqb (byteAt src at_) ",") then false
  else
    let i := skipWhile isSpace src (S at_) in
    if (i <? len src)%nat then
      let ch := byteAt src i in
      byteIn "0" "9" ch || Ascii.eqb ch "+" || Ascii.eqb ch "-"
    else false.

Fixpoint splitLoop (fuel : nat) (src : string) (sep : ascii) (i : nat) (depth : Z)
  (start : nat) (parts : list string) : list string :=
  match fuel with
  | O => parts
  | S f =>
      if (i <? len src)%nat then
        let c := byteAt src i in
        if Ascii.eqb c "[" then splitLoop f src sep (S i) (depth ⊞ 1) start parts
        else if Ascii.eqb c "]" then
          splitLoop f src sep (S i) (if depth >? 0 then depth ⊟ 1 else depth) start parts
        else if Ascii.eqb c sep && (depth =? 0) then
          if Ascii.eqb sep "," && isArgumentComma src i
          then splitLoop f src sep (S i) depth start parts
          else splitLoop f src sep (S i) depth (S i) (parts ++ [slice src start i])
        else splitLoop f src sep (S i) depth start parts
      else parts ++ [sliceFrom src start]
  end.

Definition splitTopLevel (src : string) (sep : ascii) : list string :=
  splitLoop (S (len src)) src sep 0 0 0 [].

Fixpoint existsB (p : ascii -> bool) (s : string) : bool :=
  match s with
  | EmptyString => false
  | String c r => p c || existsB p r
  end.

Definition containsPlayableEvents (src : string) : bool :=
  existsB (fun c => let ch := lower c in isNote ch || Ascii.eqb ch "r") src.

Definition splitSectionsAsTracks (src : string) : list string :=
  let sections := splitTopLevel src ";" in
  let nonEmptySections :=
    filter (fun s => negb (String.eqb s "")) (map TrimSpace sections) in
  match nonEmptySections with
  | [] => []
  | first :: rest =>
      let '(globalPrelude, body) :=
        if (1 <? length nonEmptySections)%nat && negb (containsPlayableEvents first)
        then (first, rest) else ("", nonEmptySections) in
      let parts :=
        flat_map
          (fun section =>
             flat_map
               (fun part =>
                  let part := TrimSpace part in
                  if String.eqb part "" then []
                  else if negb (String.eqb globalPrelude "")
                  then [globalPrelude +:+ " " +:+ part]
                  else [part])
               (splitTopLevel section ","))
          body in
      match parts with
      | [] => if negb (String.eqb globalPrelude "") then [globalPrelude] else []
      | _ => parts
      end
  end.

(** *** [Parser.Parse] *)

Section Parse.
Context `{!GoMath}.

Fixpoint parseParts (cfg : ParserConfig.t) (opts : parserOptions)
  (defs : gmap string string) (parts : list string) (tracks : list Track)
  : outcome (list Track) :=
  match parts with
  | [] => Ok tracks
  | part :: rest =>
      if String.eqb (TrimSpace part) "" then parseParts cfg opts defs rest tracks
      else
        '(tr, _) ← parseTrack cfg part opts defs;
        parseParts cfg opts defs rest (tracks ++ [tr])
  end.

Definition Parse (cfg : ParserConfig.t) (input : string) : outcome Score :=
  let preprocessed := preprocessInput input in
  let parts := splitSectionsAsTracks preprocessed.(text) in
  let defs := preprocessed.(pre_definitions) in
  let '(tmode, tunit, tfps) := parseTMODE defs in
  let opts := {| opt_quantMax := parseQuantMax defs; tempoMode := tmode;
                 tempoUnit := tunit; tempoFPS := tfps |} in
  tracks ← parseParts cfg opts defs parts [];
  Ok {| Resolution := cfg.(ParserConfig.Resolution);
        InitialBPM := cfg.(ParserConfig.DefaultBPM);
        Tracks := tracks;
Definitions := defs |}.

End Parse.

End mml.

(** ** Package [sequencer] *)

(** The engine the sequencer drives.  Every method takes the engine and
    returns it, since an engine is a mutable object behind an interface.
    The last three are the optional interfaces the sequencer probes with a
    type assertion; [None] is an engine that does not implement them. *)
Class VoiceEngine (E : Type) : Type := {
  NoteOn : E -> Z -> Z -> Z -> Z -> E * Z;
  NoteOff : E -> Z -> E;
  RenderFrame : E -> E * (float * float);
  SetMasterGain : E -> float -> E;
  ActiveVoiceCount : E -> Z;
  SetFilterType : E -> Z -> E;
  SetNoteOnPhase : E -> Z -> E;
  SetPortamento : E -> Z -> Z -> E;
  SetPitchLFO : E -> float -> float -> Z -> E;
  SetAmpLFO : E -> float -> float -> Z -> E;
  SetFilterLFO : E -> float -> float -> Z -> E;
  SetCurrentModule : option (E -> Z -> E);
  SetAlgorithmAndOperatorCount : option ((E -> Z -> E) * (E -> Z -> E));
  SetFeedback : option (E -> float -> E)
}.

Module sequencer.

Import GoStr.

Inductive EventKind : Type := EventLoopCompleted | EventPlaybackEnded | EventTrigger.

#[global] Instance EventKind_eq_dec : EqDecision EventKind.
Proof. solve_decision. Defined.

Record TriggerEvent : Type := mkTrigger {
  TriggerID : Z;
  NoteOnType : Z;
  NoteOffType : Z
}.

(** [OnEvent] and [OnTrigger] are callbacks; here they say whether one is
    installed, and the calls made are logged in the sequencer. *)
Record Options : Type := mkOptions {
  LoopWholeScore : bool;
  OnEvent : bool;
  OnTrigger : bool;
  ReleaseTailFrames : Z;
  MasterTranspose : Z
}.

Record tableData : Type := mkTable {
  values : list Z;
  loopStart : Z
}.

Record trackCursor : Type := mkCursor {
  events : list mml.Event;
  index : Z;
  loopIndex : Z;
  loopTick : Z;
  endTick : Z;
  loopCycle : Z
}.

(** A [nil] slice and an empty one differ for [patchMod]. *)
Record patchMod : Type := mkPatchMod {
  mpArgs : option (list Z);
  maArgs : option (list Z);
  mfArgs : option (list Z)
}.

Record noteOff : Type := mkNoteOff {
  tick : Z;
  voice : Z;
  fired : bool
}.

Record filterEnvelope : Type := mkFilterEnv {
  co : Z;
  ar : Z;
  dr : Z;
  sr : Z;
  rr : Z;
  co2 : Z;
  co3 : Z;
  sc : Z;
  rc : Z;
  state : Z;
  frame : Z;
  current : Z
}.

Definition filterEnvelope0 : filterEnvelope :=
  mkFilterEnv 0 0 0 0 0 0 0 0 0 0 0 0.

Record runtimeState : Type := mkRuntime {
  volume : Z;
  fineVolume : Z;
  expression : Z;
  vScaleMode : Z;
  vScaleMax : Z;
  xScaleMode : Z;
  pan : Z;
  program : Z;
  module : Z;
  channel : Z;
  delay : Z;
  slur : mml.SlurMode;
  transpose : Z;
  detune : Z;
  filterCut : Z;
  filterType : Z;
  filterEnv : filterEnvelope;
  filterEnvOn : bool;
  phase : Z;
  portamento : Z;
  lfoRate : Z;
  lfoDepth : Z;
  lfoWave : Z;
  modPitch : Z;
  modAmp : Z;
  modPan : Z;
  modFilter : Z;
  tableStep : gmap string Z;
  tableStart : gmap string Z;
  tableRate : gmap string Z;
  mask : Z;
  lastVoice : Z;
  lastNote : Z;
  mpEnd : Z;
  mpDelay : Z;
  mpChange : Z;
  maEnd : Z;
  maDelay : Z;
  maChange : Z;
  mfEnd : Z;
  mfDelay : Z;
  mfChange : Z;
  fpsRate : Z
}.

Definition runtimeState0 : runtimeState :=
  mkRuntime 0 0 0 0 0 0 0 0 0 0 0 mml.SlurNone 0 0 0 0 filterEnvelope0 false 0 0 0 0 0 0 0 0 0 ∅ ∅ ∅ 0 0 0 0 0 0 0 0 0 0 0 0 0.

Definition set_volume (v : Z) (r : runtimeState) : runtimeState :=
  mkRuntime v (r.(fineVolume)) (r.(expression)) (r.(vScaleMode)) (r.(vScaleMax)) (r.(xScaleMode)) (r.(pan)) (r.(program)) (r.(module)) (r.(channel)) (r.(delay)) (r.(slur)) (r.(transpose)) (r.(detune)) (r.(filterCut)) (r.(filterType)) (r.(filterEnv)) (r.(filterEnvOn)) (r.(phase)) (r.(portamento)) (r.(lfoRate)) (r.(lfoDepth)) (r.(lfoWave)) (r.(modPitch)) (r.(modAmp)) (r.(modPan)) (r.(modFilter)) (r.(tableStep)) (r.(tableStart)) (r.(tableRate)) (r.(mask)) (r.(lastVoice)) (r.(lastNote)) (r.(mpEnd)) (r.(mpDelay)) (r.(mpChange)) (r.(maEnd)) (r.(maDelay)) (r.(maChange)) (r.(mfEnd)) (r.(mfDelay)) (r.(mfChange)) (r.(fpsRate)).
Definition set_fineVolume (v : Z) (r : runtimeState) : runtimeState :=
  mkRuntime (r.(volume)) v (r.(expression)) (r.(vScaleMode)) (r.(vScaleMax)) (r.(xScaleMode)) (r.(pan)) (r.(program)) (r.(module)) (r.(channel)) (r.(delay)) (r.(slur)) (r.(transpose)) (r.(detune)) (r.(filterCut)) (r.(filterType)) (r.(filterEnv)) (r.(filterEnvOn)) (r.(phase)) (r.(portamento)) (r.(lfoRate)) (r.(lfoDepth)) (r.(lfoWave)) (r.(modPitch)) (r.(modAmp)) (r.(modPan)) (r.(modFilter)) (r.(tableStep)) (r.(tableStart)) (r.(tableRate)) (r.(mask)) (r.(lastVoice)) (r.(lastNote)) (r.(mpEnd)) (r.(mpDelay)) (r.(mpChange)) (r.(maEnd)) (r.(maDelay)) (r.(maChange)) (r.(mfEnd)) (r.(mfDelay)) (r.(mfChange)) (r.(fpsRate)).
Definition set_expression (v : Z) (r : runtimeState) : runtimeState :=
  mkRuntime (r.(volume)) (r.(fineVolume)) v (r.(vScaleMode)) (r.(vScaleMax)) (r.(xScaleMode)) (r.(pan)) (r.(program)) (r.(module)) (r.(channel)) (r.(delay)) (r.(slur)) (r.(transpose)) (r.(detune)) (r.(filterCut)) (r.(filterType)) (r.(filterEnv)) (r.(filterEnvOn)) (r.(phase)) (r.(portamento)) (r.(lfoRate)) (r.(lfoDepth)) (r.(lfoWave)) (r.(modPitch)) (r.(modAmp)) (r.(modPan)) (r.(modFilter)) (r.(tableStep)) (r.(tableStart)) (r.(tableRate)) (r.(mask)) (r.(lastVoice)) (r.(lastNote)) (r.(mpEnd)) (r.(mpDelay)) (r.(mpChange)) (r.(maEnd)) (r.(maDelay)) (r.(maChange)) (r.(mfEnd)) (r.(mfDelay)) (r.(mfChange)) (r.(fpsRate)).
Definition set_vScaleMode (v : Z) (r : runtimeState) : runtimeState :=
  mkRuntime (r.(volume)) (r.(fineVolume)) (r.(expression)) v (r.(vScaleMax)) (r.(xScaleMode)) (r.(pan)) (r.(program)) (r.(module)) (r.(channel)) (r.(delay)) (r.(slur)) (r.(transpose)) (r.(detune)) (r.(filterCut)) (r.(filterType)) (r.(filterEnv)) (r.(filterEnvOn)) (r.(phase)) (r.(portamento)) (r.(lfoRate)) (r.(lfoDepth)) (r.(lfoWave)) (r.(modPitch)) (r.(modAmp)) (r.(modPan)) (r.(modFilter)) (r.(tableStep)) (r.(tableStart)) (r.(tableRate)) (r.(mask)) (r.(lastVoice)) (r.(lastNote)) (r.(mpEnd)) (r.(mpDelay)) (r.(mpChange)) (r.(maEnd)) (r.(maDelay)) (r.(maChange)) (r.(mfEnd)) (r.(mfDelay)) (r.(mfChange)) (r.(fpsRate)).
Definition set_vScaleMax (v : Z) (r : runtimeState) : runtimeState :=
  mkRuntime (r.(volume)) (r.(fineVolume)) (r.(expression)) (r.(vScaleMode)) v (r.(xScaleMode)) (r.(pan)) (r.(program)) (r.(module)) (r.(channel)) (r.(delay)) (r.(slur)) (r.(transpose)) (r.(detune)) (r.(filterCut)) (r.(filterType)) (r.(filterEnv)) (r.(filterEnvOn)) (r.(phase)) (r.(portamento)) (r.(lfoRate)) (r.(lfoDepth)) (r.(lfoWave)) (r.(modPitch)) (r.(modAmp)) (r.(modPan)) (r.(modFilter)) (r.(tableStep)) (r.(tableStart)) (r.(tableRate)) (r.(mask)) (r.(lastVoice)) (r.(lastNote)) (r.(mpEnd)) (r.(mpDelay)) (r.(mpChange)) (r.(maEnd)) (r.(maDelay)) (r.(maChange)) (r.(mfEnd)) (r.(mfDelay)) (r.(mfChange)) (r.(fpsRate)).
Definition set_xScaleMode (v : Z) (r : runtimeState) : runtimeState :=
  mkRuntime (r.(volume)) (r.(fineVolume)) (r.(expression)) (r.(vScaleMode)) (r.(vScaleMax)) v (r.(pan)) (r.(program)) (r.(module)) (r.(channel)) (r.(delay)) (r.(slur)) (r.(transpose)) (r.(detune)) (r.(filterCut)) (r.(filterType)) (r.(filterEnv)) (r.(filterEnvOn)) (r.(phase)) (r.(portamento)) (r.(lfoRate)) (r.(lfoDepth)) (r.(lfoWave)) (r.(modPitch)) (r.(modAmp)) (r.(modPan)) (r.(modFilter)) (r.(tableStep)) (r.(tableStart)) (r.(tableRate)) (r.(mask)) (r.(lastVoice)) (r.(lastNote)) (r.(mpEnd)) (r.(mpDelay)) (r.(mpChange)) (r.(maEnd)) (r.(maDelay)) (r.(maChange)) (r.(mfEnd)) (r.(mfDelay)) (r.(mfChange)) (r.(fpsRate)).
Definition set_pan (v : Z) (r : runtimeState) : runtimeState :=
  mkRuntime (r.(volume)) (r.(fineVolume)) (r.(expression)) (r.(vScaleMode)) (r.(vScaleMax)) (r.(xScaleMode)) v (r.(program)) (r.(module)) (r.(channel)) (r.(delay)) (r.(slur)) (r.(transpose)) (r.(detune)) (r.(filterCut)) (r.(filterType)) (r.(filterEnv)) (r.(filterEnvOn)) (r.(phase)) (r.(portamento)) (r.(lfoRate)) (r.(lfoDepth)) (r.(lfoWave)) (r.(modPitch)) (r.(modAmp)) (r.(modPan)) (r.(modFilter)) (r.(tableStep)) (r.(tableStart)) (r.(tableRate)) (r.(mask)) (r.(lastVoice)) (r.(lastNote)) (r.(mpEnd)) (r.(mpDelay)) (r.(mpChange)) (r.(maEnd)) (r.(maDelay)) (r.(maChange)) (r.(mfEnd)) (r.(mfDelay)) (r.(mfChange)) (r.(fpsRate)).
Definition set_program (v : Z) (r : runtimeState) : runtimeState :=
  mkRuntime (r.(volume)) (r.(fineVolume)) (r.(expression)) (r.(vScaleMode)) (r.(vScaleMax)) (r.(xScaleMode)) (r.(pan)) v (r.(module)) (r.(channel)) (r.(delay)) (r.(slur)) (r.(transpose)) (r.(detune)) (r.(filterCut)) (r.(filterType)) (r.(filterEnv)) (r.(filterEnvOn)) (r.(phase)) (r.(portamento)) (r.(lfoRate)) (r.(lfoDepth)) (r.(lfoWave)) (r.(modPitch)) (r.(modAmp)) (r.(modPan)) (r.(modFilter)) (r.(tableStep)) (r.(tableStart)) (r.(tableRate)) (r.(mask)) (r.(lastVoice)) (r.(lastNote)) (r.(mpEnd)) (r.(mpDelay)) (r.(mpChange)) (r.(maEnd)) (r.(maDelay)) (r.(maChange)) (r.(mfEnd)) (r.(mfDelay)) (r.(mfChange)) (r.(fpsRate)).
Definition set_module (v : Z) (r : runtimeState) : runtimeState :=
  mkRuntime (r.(volume)) (r.(fineVolume)) (r.(expression)) (r.(vScaleMode)) (r.(vScaleMax)) (r.(xScaleMode)) (r.(pan)) (r.(program)) v (r.(channel)) (r.(delay)) (r.(slur)) (r.(transpose)) (r.(detune)) (r.(filterCut)) (r.(filterType)) (r.(filterEnv)) (r.(filterEnvOn)) (r.(phase)) (r.(portamento)) (r.(lfoRate)) (r.(lfoDepth)) (r.(lfoWave)) (r.(modPitch)) (r.(modAmp)) (r.(modPan)) (r.(modFilter)) (r.(tableStep)) (r.(tableStart)) (r.(tableRate)) (r.(mask)) (r.(lastVoice)) (r.(lastNote)) (r.(mpEnd)) (r.(mpDelay)) (r.(mpChange)) (r.(maEnd)) (r.(maDelay)) (r.(maChange)) (r.(mfEnd)) (r.(mfDelay)) (r.(mfChange)) (r.(fpsRate)).
Definition set_channel (v : Z) (r : runtimeState) : runtimeState :=
  mkRuntime (r.(volume)) (r.(fineVolume)) (r.(expression)) (r.(vScaleMode)) (r.(vScaleMax)) (r.(xScaleMode)) (r.(pan)) (r.(program)) (r.(module)) v (r.(delay)) (r.(slur)) (r.(transpose)) (r.(detune)) (r.(filterCut)) (r.(filterType)) (r.(filterEnv)) (r.(filterEnvOn)) (r.(phase)) (r.(portamento)) (r.(lfoRate)) (r.(lfoDepth)) (r.(lfoWave)) (r.(modPitch)) (r.(modAmp)) (r.(modPan)) (r.(modFilter)) (r.(tableStep)) (r.(tableStart)) (r.(tableRate)) (r.(mask)) (r.(lastVoice)) (r.(lastNote)) (r.(mpEnd)) (r.(mpDelay)) (r.(mpChange)) (r.(maEnd)) (r.(maDelay)) (r.(maChange)) (r.(mfEnd)) (r.(mfDelay)) (r.(mfChange)) (r.(fpsRate)).
Definition set_delay (v : Z) (r : runtimeState) : runtimeState :=
  mkRuntime (r.(volume)) (r.(fineVolume)) (r.(expression)) (r.(vScaleMode)) (r.(vScaleMax)) (r.(xScaleMode)) (r.(pan)) (r.(program)) (r.(module)) (r.(channel)) v (r.(slur)) (r.(transpose)) (r.(detune)) (r.(filterCut)) (r.(filterType)) (r.(filterEnv)) (r.(filterEnvOn)) (r.(phase)) (r.(portamento)) (r.(lfoRate)) (r.(lfoDepth)) (r.(lfoWave)) (r.(modPitch)) (r.(modAmp)) (r.(modPan)) (r.(modFilter)) (r.(tableStep)) (r.(tableStart)) (r.(tableRate)) (r.(mask)) (r.(lastVoice)) (r.(lastNote)) (r.(mpEnd)) (r.(mpDelay)) (r.(mpChange)) (r.(maEnd)) (r.(maDelay)) (r.(maChange)) (r.(mfEnd)) (r.(mfDelay)) (r.(mfChange)) (r.(fpsRate)).
Definition set_slur (v : mml.SlurMode) (r : runtimeState) : runtimeState :=
  mkRuntime (r.(volume)) (r.(fineVolume)) (r.(expression)) (r.(vScaleMode)) (r.(vScaleMax)) (r.(xScaleMode)) (r.(pan)) (r.(program)) (r.(module)) (r.(channel)) (r.(delay)) v (r.(transpose)) (r.(detune)) (r.(filterCut)) (r.(filterType)) (r.(filterEnv)) (r.(filterEnvOn)) (r.(phase)) (r.(portamento)) (r.(lfoRate)) (r.(lfoDepth)) (r.(lfoWave)) (r.(modPitch)) (r.(modAmp)) (r.(modPan)) (r.(modFilter)) (r.(tableStep)) (r.(tableStart)) (r.(tableRate)) (r.(mask)) (r.(lastVoice)) (r.(lastNote)) (r.(mpEnd)) (r.(mpDelay)) (r.(mpChange)) (r.(maEnd)) (r.(maDelay)) (r.(maChange)) (r.(mfEnd)) (r.(mfDelay)) (r.(mfChange)) (r.(fpsRate)).
Definition set_transpose (v : Z) (r : runtimeState) : runtimeState :=
  mkRuntime (r.(volume)) (r.(fineVolume)) (r.(expression)) (r.(vScaleMode)) (r.(vScaleMax)) (r.(xScaleMode)) (r.(pan)) (r.(program)) (r.(module)) (r.(channel)) (r.(delay)) (r.(slur)) v (r.(detune)) (r.(filterCut)) (r.(filterType)) (r.(filterEnv)) (r.(filterEnvOn)) (r.(phase)) (r.(portamento)) (r.(lfoRate)) (r.(lfoDepth)) (r.(lfoWave)) (r.(modPitch)) (r.(modAmp)) (r.(modPan)) (r.(modFilter)) (r.(tableStep)) (r.(tableStart)) (r.(tableRate)) (r.(mask)) (r.(lastVoice)) (r.(lastNote)) (r.(mpEnd)) (r.(mpDelay)) (r.(mpChange)) (r.(maEnd)) (r.(maDelay)) (r.(maChange)) (r.(mfEnd)) (r.(mfDelay)) (r.(mfChange)) (r.(fpsRate)).
Definition set_detune (v : Z) (r : runtimeState) : runtimeState :=
  mkRuntime (r.(volume)) (r.(fineVolume)) (r.(expression)) (r.(vScaleMode)) (r.(vScaleMax)) (r.(xScaleMode)) (r.(pan)) (r.(program)) (r.(module)) (r.(channel)) (r.(delay)) (r.(slur)) (r.(transpose)) v (r.(filterCut)) (r.(filterType)) (r.(filterEnv)) (r.(filterEnvOn)) (r.(phase)) (r.(portamento)) (r.(lfoRate)) (r.(lfoDepth)) (r.(lfoWave)) (r.(modPitch)) (r.(modAmp)) (r.(modPan)) (r.(modFilter)) (r.(tableStep)) (r.(tableStart)) (r.(tableRate)) (r.(mask)) (r.(lastVoice)) (r.(lastNote)) (r.(mpEnd)) (r.(mpDelay)) (r.(mpChange)) (r.(maEnd)) (r.(maDelay)) (r.(maChange)) (r.(mfEnd)) (r.(mfDelay)) (r.(mfChange)) (r.(fpsRate)).
Definition set_filterCut (v : Z) (r : runtimeState) : runtimeState :=
  mkRuntime (r.(volume)) (r.(fineVolume)) (r.(expression)) (r.(vScaleMode)) (r.(vScaleMax)) (r.(xScaleMode)) (r.(pan)) (r.(program)) (r.(module)) (r.(channel)) (r.(delay)) (r.(slur)) (r.(transpose)) (r.(detune)) v (r.(filterType)) (r.(filterEnv)) (r.(filterEnvOn)) (r.(phase)) (r.(portamento)) (r.(lfoRate)) (r.(lfoDepth)) (r.(lfoWave)) (r.(modPitch)) (r.(modAmp)) (r.(modPan)) (r.(modFilter)) (r.(tableStep)) (r.(tableStart)) (r.(tableRate)) (r.(mask)) (r.(lastVoice)) (r.(lastNote)) (r.(mpEnd)) (r.(mpDelay)) (r.(mpChange)) (r.(maEnd)) (r.(maDelay)) (r.(maChange)) (r.(mfEnd)) (r.(mfDelay)) (r.(mfChange)) (r.(fpsRate)).
Definition set_filterType (v : Z) (r : runtimeState) : runtimeState :=
  mkRuntime (r.(volume)) (r.(fineVolume)) (r.(expression)) (r.(vScaleMode)) (r.(vScaleMax)) (r.(xScaleMode)) (r.(pan)) (r.(program)) (r.(module)) (r.(channel)) (r.(delay)) (r.(slur)) (r.(transpose)) (r.(detune)) (r.(filterCut)) v (r.(filterEnv)) (r.(filterEnvOn)) (r.(phase)) (r.(portamento)) (r.(lfoRate)) (r.(lfoDepth)) (r.(lfoWave)) (r.(modPitch)) (r.(modAmp)) (r.(modPan)) (r.(modFilter)) (r.(tableStep)) (r.(tableStart)) (r.(tableRate)) (r.(mask)) (r.(lastVoice)) (r.(lastNote)) (r.(mpEnd)) (r.(mpDelay)) (r.(mpChange)) (r.(maEnd)) (r.(maDelay)) (r.(maChange)) (r.(mfEnd)) (r.(mfDelay)) (r.(mfChange)) (r.(fpsRate)).
Definition set_filterEnv (v : filterEnvelope) (r : runtimeState) : runtimeState :=
  mkRuntime (r.(volume)) (r.(fineVolume)) (r.(expression)) (r.(vScaleMode)) (r.(vScaleMax)) (r.(xScaleMode)) (r.(pan)) (r.(program)) (r.(module)) (r.(channel)) (r.(delay)) (r.(slur)) (r.(transpose)) (r.(detune)) (r.(filterCut)) (r.(filterType)) v (r.(filterEnvOn)) (r.(phase)) (r.(portamento)) (r.(lfoRate)) (r.(lfoDepth)) (r.(lfoWave)) (r.(modPitch)) (r.(modAmp)) (r.(modPan)) (r.(modFilter)) (r.(tableStep)) (r.(tableStart)) (r.(tableRate)) (r.(mask)) (r.(lastVoice)) (r.(lastNote)) (r.(mpEnd)) (r.(mpDelay)) (r.(mpChange)) (r.(maEnd)) (r.(maDelay)) (r.(maChange)) (r.(mfEnd)) (r.(mfDelay)) (r.(mfChange)) (r.(fpsRate)).
Definition set_filterEnvOn (v : bool) (r : runtimeState) : runtimeState :=
  mkRuntime (r.(volume)) (r.(fineVolume)) (r.(expression)) (r.(vScaleMode)) (r.(vScaleMax)) (r.(xScaleMode)) (r.(pan)) (r.(program)) (r.(module)) (r.(channel)) (r.(delay)) (r.(slur)) (r.(transpose)) (r.(detune)) (r.(filterCut)) (r.(filterType)) (r.(filterEnv)) v (r.(phase)) (r.(portamento)) (r.(lfoRate)) (r.(lfoDepth)) (r.(lfoWave)) (r.(modPitch)) (r.(modAmp)) (r.(modPan)) (r.(modFilter)) (r.(tableStep)) (r.(tableStart)) (r.(tableRate)) (r.(mask)) (r.(lastVoice)) (r.(lastNote)) (r.(mpEnd)) (r.(mpDelay)) (r.(mpChange)) (r.(maEnd)) (r.(maDelay)) (r.(maChange)) (r.(mfEnd)) (r.(mfDelay)) (r.(mfChange)) (r.(fpsRate)).
Definition set_phase (v : Z) (r : runtimeState) : runtimeState :=
  mkRuntime (r.(volume)) (r.(fineVolume)) (r.(expression)) (r.(vScaleMode)) (r.(vScaleMax)) (r.(xScaleMode)) (r.(pan)) (r.(program)) (r.(module)) (r.(channel)) (r.(delay)) (r.(slur)) (r.(transpose)) (r.(detune)) (r.(filterCut)) (r.(filterType)) (r.(filterEnv)) (r.(filterEnvOn)) v (r.(portamento)) (r.(lfoRate)) (r.(lfoDepth)) (r.(lfoWave)) (r.(modPitch)) (r.(modAmp)) (r.(modPan)) (r.(modFilter)) (r.(tableStep)) (r.(tableStart)) (r.(tableRate)) (r.(mask)) (r.(lastVoice)) (r.(lastNote)) (r.(mpEnd)) (r.(mpDelay)) (r.(mpChange)) (r.(maEnd)) (r.(maDelay)) (r.(maChange)) (r.(mfEnd)) (r.(mfDelay)) (r.(mfChange)) (r.(fpsRate)).
Definition set_portamento (v : Z) (r : runtimeState) : runtimeState :=
  mkRuntime (r.(volume)) (r.(fineVolume)) (r.(expression)) (r.(vScaleMode)) (r.(vScaleMax)) (r.(xScaleMode)) (r.(pan)) (r.(program)) (r.(module)) (r.(channel)) (r.(delay)) (r.(slur)) (r.(transpose)) (r.(detune)) (r.(filterCut)) (r.(filterType)) (r.(filterEnv)) (r.(filterEnvOn)) (r.(phase)) v (r.(lfoRate)) (r.(lfoDepth)) (r.(lfoWave)) (r.(modPitch)) (r.(modAmp)) (r.(modPan)) (r.(modFilter)) (r.(tableStep)) (r.(tableStart)) (r.(tableRate)) (r.(mask)) (r.(lastVoice)) (r.(lastNote)) (r.(mpEnd)) (r.(mpDelay)) (r.(mpChange)) (r.(maEnd)) (r.(maDelay)) (r.(maChange)) (r.(mfEnd)) (r.(mfDelay)) (r.(mfChange)) (r.(fpsRate)).
Definition set_lfoRate (v : Z) (r : runtimeState) : runtimeState :=
  mkRuntime (r.(volume)) (r.(fineVolume)) (r.(expression)) (r.(vScaleMode)) (r.(vScaleMax)) (r.(xScaleMode)) (r.(pan)) (r.(program)) (r.(module)) (r.(channel)) (r.(delay)) (r.(slur)) (r.(transpose)) (r.(detune)) (r.(filterCut)) (r.(filterType)) (r.(filterEnv)) (r.(filterEnvOn)) (r.(phase)) (r.(portamento)) v (r.(lfoDepth)) (r.(lfoWave)) (r.(modPitch)) (r.(modAmp)) (r.(modPan)) (r.(modFilter)) (r.(tableStep)) (r.(tableStart)) (r.(tableRate)) (r.(mask)) (r.(lastVoice)) (r.(lastNote)) (r.(mpEnd)) (r.(mpDelay)) (r.(mpChange)) (r.(maEnd)) (r.(maDelay)) (r.(maChange)) (r.(mfEnd)) (r.(mfDelay)) (r.(mfChange)) (r.(fpsRate)).
Definition set_lfoDepth (v : Z) (r : runtimeState) : runtimeState :=
  mkRuntime (r.(volume)) (r.(fineVolume)) (r.(expression)) (r.(vScaleMode)) (r.(vScaleMax)) (r.(xScaleMode)) (r.(pan)) (r.(program)) (r.(module)) (r.(channel)) (r.(delay)) (r.(slur)) (r.(transpose)) (r.(detune)) (r.(filterCut)) (r.(filterType)) (r.(filterEnv)) (r.(filterEnvOn)) (r.(phase)) (r.(portamento)) (r.(lfoRate)) v (r.(lfoWave)) (r.(modPitch)) (r.(modAmp)) (r.(modPan)) (r.(modFilter)) (r.(tableStep)) (r.(tableStart)) (r.(tableRate)) (r.(mask)) (r.(lastVoice)) (r.(lastNote)) (r.(mpEnd)) (r.(mpDelay)) (r.(mpChange)) (r.(maEnd)) (r.(maDelay)) (r.(maChange)) (r.(mfEnd)) (r.(mfDelay)) (r.(mfChange)) (r.(fpsRate)).
Definition set_lfoWave (v : Z) (r : runtimeState) : runtimeState :=
  mkRuntime (r.(volume)) (r.(fineVolume)) (r.(expression)) (r.(vScaleMode)) (r.(vScaleMax)) (r.(xScaleMode)) (r.(pan)) (r.(program)) (r.(module)) (r.(channel)) (r.(delay)) (r.(slur)) (r.(transpose)) (r.(detune)) (r.(filterCut)) (r.(filterType)) (r.(filterEnv)) (r.(filterEnvOn)) (r.(phase)) (r.(portamento)) (r.(lfoRate)) (r.(lfoDepth)) v (r.(modPitch)) (r.(modAmp)) (r.(modPan)) (r.(modFilter)) (r.(tableStep)) (r.(tableStart)) (r.(tableRate)) (r.(mask)) (r.(lastVoice)) (r.(lastNote)) (r.(mpEnd)) (r.(mpDelay)) (r.(mpChange)) (r.(maEnd)) (r.(maDelay)) (r.(maChange)) (r.(mfEnd)) (r.(mfDelay)) (r.(mfChange)) (r.(fpsRate)).
Definition set_modPitch (v : Z) (r : runtimeState) : runtimeState :=
  mkRuntime (r.(volume)) (r.(fineVolume)) (r.(expression)) (r.(vScaleMode)) (r.(vScaleMax)) (r.(xScaleMode)) (r.(pan)) (r.(program)) (r.(module)) (r.(channel)) (r.(delay)) (r.(slur)) (r.(transpose)) (r.(detune)) (r.(filterCut)) (r.(filterType)) (r.(filterEnv)) (r.(filterEnvOn)) (r.(phase)) (r.(portamento)) (r.(lfoRate)) (r.(lfoDepth)) (r.(lfoWave)) v (r.(modAmp)) (r.(modPan)) (r.(modFilter)) (r.(tableStep)) (r.(tableStart)) (r.(tableRate)) (r.(mask)) (r.(lastVoice)) (r.(lastNote)) (r.(mpEnd)) (r.(mpDelay)) (r.(mpChange)) (r.(maEnd)) (r.(maDelay)) (r.(maChange)) (r.(mfEnd)) (r.(mfDelay)) (r.(mfChange)) (r.(fpsRate)).
Definition set_modAmp (v : Z) (r : runtimeState) : runtimeState :=
  mkRuntime (r.(volume)) (r.(fineVolume)) (r.(expression)) (r.(vScaleMode)) (r.(vScaleMax)) (r.(xScaleMode)) (r.(pan)) (r.(program)) (r.(module)) (r.(channel)) (r.(delay)) (r.(slur)) (r.(transpose)) (r.(detune)) (r.(filterCut)) (r.(filterType)) (r.(filterEnv)) (r.(filterEnvOn)) (r.(phase)) (r.(portamento)) (r.(lfoRate)) (r.(lfoDepth)) (r.(lfoWave)) (r.(modPitch)) v (r.(modPan)) (r.(modFilter)) (r.(tableStep)) (r.(tableStart)) (r.(tableRate)) (r.(mask)) (r.(lastVoice)) (r.(lastNote)) (r.(mpEnd)) (r.(mpDelay)) (r.(mpChange)) (r.(maEnd)) (r.(maDelay)) (r.(maChange)) (r.(mfEnd)) (r.(mfDelay)) (r.(mfChange)) (r.(fpsRate)).
Definition set_modPan (v : Z) (r : runtimeState) : runtimeState :=
  mkRuntime (r.(volume)) (r.(fineVolume)) (r.(expression)) (r.(vScaleMode)) (r.(vScaleMax)) (r.(xScaleMode)) (r.(pan)) (r.(program)) (r.(module)) (r.(channel)) (r.(delay)) (r.(slur)) (r.(transpose)) (r.(detune)) (r.(filterCut)) (r.(filterType)) (r.(filterEnv)) (r.(filterEnvOn)) (r.(phase)) (r.(portamento)) (r.(lfoRate)) (r.(lfoDepth)) (r.(lfoWave)) (r.(modPitch)) (r.(modAmp)) v (r.(modFilter)) (r.(tableStep)) (r.(tableStart)) (r.(tableRate)) (r.(mask)) (r.(lastVoice)) (r.(lastNote)) (r.(mpEnd)) (r.(mpDelay)) (r.(mpChange)) (r.(maEnd)) (r.(maDelay)) (r.(maChange)) (r.(mfEnd)) (r.(mfDelay)) (r.(mfChange)) (r.(fpsRate)).
Definition set_modFilter (v : Z) (r : runtimeState) : runtimeState :=
  mkRuntime (r.(volume)) (r.(fineVolume)) (r.(expression)) (r.(vScaleMode)) (r.(vScaleMax)) (r.(xScaleMode)) (r.(pan)) (r.(program)) (r.(module)) (r.(channel)) (r.(delay)) (r.(slur)) (r.(transpose)) (r.(detune)) (r.(filterCut)) (r.(filterType)) (r.(filterEnv)) (r.(filterEnvOn)) (r.(phase)) (r.(portamento)) (r.(lfoRate)) (r.(lfoDepth)) (r.(lfoWave)) (r.(modPitch)) (r.(modAmp)) (r.(modPan)) v (r.(tableStep)) (r.(tableStart)) (r.(tableRate)) (r.(mask)) (r.(lastVoice)) (r.(lastNote)) (r.(mpEnd)) (r.(mpDelay)) (r.(mpChange)) (r.(maEnd)) (r.(maDelay)) (r.(maChange)) (r.(mfEnd)) (r.(mfDelay)) (r.(mfChange)) (r.(fpsRate)).
Definition set_tableStep (v : gmap string Z) (r : runtimeState) : runtimeState :=
  mkRuntime (r.(volume)) (r.(fineVolume)) (r.(expression)) (r.(vScaleMode)) (r.(vScaleMax)) (r.(xScaleMode)) (r.(pan)) (r.(program)) (r.(module)) (r.(channel)) (r.(delay)) (r.(slur)) (r.(transpose)) (r.(detune)) (r.(filterCut)) (r.(filterType)) (r.(filterEnv)) (r.(filterEnvOn)) (r.(phase)) (r.(portamento)) (r.(lfoRate)) (r.(lfoDepth)) (r.(lfoWave)) (r.(modPitch)) (r.(modAmp)) (r.(modPan)) (r.(modFilter)) v (r.(tableStart)) (r.(tableRate)) (r.(mask)) (r.(lastVoice)) (r.(lastNote)) (r.(mpEnd)) (r.(mpDelay)) (r.(mpChange)) (r.(maEnd)) (r.(maDelay)) (r.(maChange)) (r.(mfEnd)) (r.(mfDelay)) (r.(mfChange)) (r.(fpsRate)).
Definition set_tableStart (v : gmap string Z) (r : runtimeState) : runtimeState :=
  mkRuntime (r.(volume)) (r.(fineVolume)) (r.(expression)) (r.(vScaleMode)) (r.(vScaleMax)) (r.(xScaleMode)) (r.(pan)) (r.(program)) (r.(module)) (r.(channel)) (r.(delay)) (r.(slur)) (r.(transpose)) (r.(detune)) (r.(filterCut)) (r.(filterType)) (r.(filterEnv)) (r.(filterEnvOn)) (r.(phase)) (r.(portamento)) (r.(lfoRate)) (r.(lfoDepth)) (r.(lfoWave)) (r.(modPitch)) (r.(modAmp)) (r.(modPan)) (r.(modFilter)) (r.(tableStep)) v (r.(tableRate)) (r.(mask)) (r.(lastVoice)) (r.(lastNote)) (r.(mpEnd)) (r.(mpDelay)) (r.(mpChange)) (r.(maEnd)) (r.(maDelay)) (r.(maChange)) (r.(mfEnd)) (r.(mfDelay)) (r.(mfChange)) (r.(fpsRate)).
Definition set_tableRate (v : gmap string Z) (r : runtimeState) : runtimeState :=
  mkRuntime (r.(volume)) (r.(fineVolume)) (r.(expression)) (r.(vScaleMode)) (r.(vScaleMax)) (r.(xScaleMode)) (r.(pan)) (r.(program)) (r.(module)) (r.(channel)) (r.(delay)) (r.(slur)) (r.(transpose)) (r.(detune)) (r.(filterCut)) (r.(filterType)) (r.(filterEnv)) (r.(filterEnvOn)) (r.(phase)) (r.(portamento)) (r.(lfoRate)) (r.(lfoDepth)) (r.(lfoWave)) (r.(modPitch)) (r.(modAmp)) (r.(modPan)) (r.(modFilter)) (r.(tableStep)) (r.(tableStart)) v (r.(mask)) (r.(lastVoice)) (r.(lastNote)) (r.(mpEnd)) (r.(mpDelay)) (r.(mpChange)) (r.(maEnd)) (r.(maDelay)) (r.(maChange)) (r.(mfEnd)) (r.(mfDelay)) (r.(mfChange)) (r.(fpsRate)).
Definition set_mask (v : Z) (r : runtimeState) : runtimeState :=
  mkRuntime (r.(volume)) (r.(fineVolume)) (r.(expression)) (r.(vScaleMode)) (r.(vScaleMax)) (r.(xScaleMode)) (r.(pan)) (r.(program)) (r.(module)) (r.(channel)) (r.(delay)) (r.(slur)) (r.(transpose)) (r.(detune)) (r.(filterCut)) (r.(filterType)) (r.(filterEnv)) (r.(filterEnvOn)) (r.(phase)) (r.(portamento)) (r.(lfoRate)) (r.(lfoDepth)) (r.(lfoWave)) (r.(modPitch)) (r.(modAmp)) (r.(modPan)) (r.(modFilter)) (r.(tableStep)) (r.(tableStart)) (r.(tableRate)) v (r.(lastVoice)) (r.(lastNote)) (r.(mpEnd)) (r.(mpDelay)) (r.(mpChange)) (r.(maEnd)) (r.(maDelay)) (r.(maChange)) (r.(mfEnd)) (r.(mfDelay)) (r.(mfChange)) (r.(fpsRate)).
Definition set_lastVoice (v : Z) (r : runtimeState) : runtimeState :=
  mkRuntime (r.(volume)) (r.(fineVolume)) (r.(expression)) (r.(vScaleMode)) (r.(vScaleMax)) (r.(xScaleMode)) (r.(pan)) (r.(program)) (r.(module)) (r.(channel)) (r.(delay)) (r.(slur)) (r.(transpose)) (r.(detune)) (r.(filterCut)) (r.(filterType)) (r.(filterEnv)) (r.(filterEnvOn)) (r.(phase)) (r.(portamento)) (r.(lfoRate)) (r.(lfoDepth)) (r.(lfoWave)) (r.(modPitch)) (r.(modAmp)) (r.(modPan)) (r.(modFilter)) (r.(tableStep)) (r.(tableStart)) (r.(tableRate)) (r.(mask)) v (r.(lastNote)) (r.(mpEnd)) (r.(mpDelay)) (r.(mpChange)) (r.(maEnd)) (r.(maDelay)) (r.(maChange)) (r.(mfEnd)) (r.(mfDelay)) (r.(mfChange)) (r.(fpsRate)).
Definition set_lastNote (v : Z) (r : runtimeState) : runtimeState :=
  mkRuntime (r.(volume)) (r.(fineVolume)) (r.(expression)) (r.(vScaleMode)) (r.(vScaleMax)) (r.(xScaleMode)) (r.(pan)) (r.(program)) (r.(module)) (r.(channel)) (r.(delay)) (r.(slur)) (r.(transpose)) (r.(detune)) (r.(filterCut)) (r.(filterType)) (r.(filterEnv)) (r.(filterEnvOn)) (r.(phase)) (r.(portamento)) (r.(lfoRate)) (r.(lfoDepth)) (r.(lfoWave)) (r.(modPitch)) (r.(modAmp)) (r.(modPan)) (r.(modFilter)) (r.(tableStep)) (r.(tableStart)) (r.(tableRate)) (r.(mask)) (r.(lastVoice)) v (r.(mpEnd)) (r.(mpDelay)) (r.(mpChange)) (r.(maEnd)) (r.(maDelay)) (r.(maChange)) (r.(mfEnd)) (r.(mfDelay)) (r.(mfChange)) (r.(fpsRate)).
Definition set_mpEnd (v : Z) (r : runtimeState) : runtimeState :=
  mkRuntime (r.(volume)) (r.(fineVolume)) (r.(expression)) (r.(vScaleMode)) (r.(vScaleMax)) (r.(xScaleMode)) (r.(pan)) (r.(program)) (r.(module)) (r.(channel)) (r.(delay)) (r.(slur)) (r.(transpose)) (r.(detune)) (r.(filterCut)) (r.(filterType)) (r.(filterEnv)) (r.(filterEnvOn)) (r.(phase)) (r.(portamento)) (r.(lfoRate)) (r.(lfoDepth)) (r.(lfoWave)) (r.(modPitch)) (r.(modAmp)) (r.(modPan)) (r.(modFilter)) (r.(tableStep)) (r.(tableStart)) (r.(tableRate)) (r.(mask)) (r.(lastVoice)) (r.(lastNote)) v (r.(mpDelay)) (r.(mpChange)) (r.(maEnd)) (r.(maDelay)) (r.(maChange)) (r.(mfEnd)) (r.(mfDelay)) (r.(mfChange)) (r.(fpsRate)).
Definition set_mpDelay (v : Z) (r : runtimeState) : runtimeState :=
  mkRuntime (r.(volume)) (r.(fineVolume)) (r.(expression)) (r.(vScaleMode)) (r.(vScaleMax)) (r.(xScaleMode)) (r.(pan)) (r.(program)) (r.(module)) (r.(channel)) (r.(delay)) (r.(slur)) (r.(transpose)) (r.(detune)) (r.(filterCut)) (r.(filterType)) (r.(filterEnv)) (r.(filterEnvOn)) (r.(phase)) (r.(portamento)) (r.(lfoRate)) (r.(lfoDepth)) (r.(lfoWave)) (r.(modPitch)) (r.(modAmp)) (r.(modPan)) (r.(modFilter)) (r.(tableStep)) (r.(tableStart)) (r.(tableRate)) (r.(mask)) (r.(lastVoice)) (r.(lastNote)) (r.(mpEnd)) v (r.(mpChange)) (r.(maEnd)) (r.(maDelay)) (r.(maChange)) (r.(mfEnd)) (r.(mfDelay)) (r.(mfChange)) (r.(fpsRate)).
Definition set_mpChange (v : Z) (r : runtimeState) : runtimeState :=
  mkRuntime (r.(volume)) (r.(fineVolume)) (r.(expression)) (r.(vScaleMode)) (r.(vScaleMax)) (r.(xScaleMode)) (r.(pan)) (r.(program)) (r.(module)) (r.(channel)) (r.(delay)) (r.(slur)) (r.(transpose)) (r.(detune)) (r.(filterCut)) (r.(filterType)) (r.(filterEnv)) (r.(filterEnvOn)) (r.(phase)) (r.(portamento)) (r.(lfoRate)) (r.(lfoDepth)) (r.(lfoWave)) (r.(modPitch)) (r.(modAmp)) (r.(modPan)) (r.(modFilter)) (r.(tableStep)) (r.(tableStart)) (r.(tableRate)) (r.(mask)) (r.(lastVoice)) (r.(lastNote)) (r.(mpEnd)) (r.(mpDelay)) v (r.(maEnd)) (r.(maDelay)) (r.(maChange)) (r.(mfEnd)) (r.(mfDelay)) (r.(mfChange)) (r.(fpsRate)).
Definition set_maEnd (v : Z) (r : runtimeState) : runtimeState :=
  mkRuntime (r.(volume)) (r.(fineVolume)) (r.(expression)) (r.(vScaleMode)) (r.(vScaleMax)) (r.(xScaleMode)) (r.(pan)) (r.(program)) (r.(module)) (r.(channel)) (r.(delay)) (r.(slur)) (r.(transpose)) (r.(detune)) (r.(filterCut)) (r.(filterType)) (r.(filterEnv)) (r.(filterEnvOn)) (r.(phase)) (r.(portamento)) (r.(lfoRate)) (r.(lfoDepth)) (r.(lfoWave)) (r.(modPitch)) (r.(modAmp)) (r.(modPan)) (r.(modFilter)) (r.(tableStep)) (r.(tableStart)) (r.(tableRate)) (r.(mask)) (r.(lastVoice)) (r.(lastNote)) (r.(mpEnd)) (r.(mpDelay)) (r.(mpChange)) v (r.(maDelay)) (r.(maChange)) (r.(mfEnd)) (r.(mfDelay)) (r.(mfChange)) (r.(fpsRate)).
Definition set_maDelay (v : Z) (r : runtimeState) : runtimeState :=
  mkRuntime (r.(volume)) (r.(fineVolume)) (r.(expression)) (r.(vScaleMode)) (r.(vScaleMax)) (r.(xScaleMode)) (r.(pan)) (r.(program)) (r.(module)) (r.(channel)) (r.(delay)) (r.(slur)) (r.(transpose)) (r.(detune)) (r.(filterCut)) (r.(filterType)) (r.(filterEnv)) (r.(filterEnvOn)) (r.(phase)) (r.(portamento)) (r.(lfoRate)) (r.(lfoDepth)) (r.(lfoWave)) (r.(modPitch)) (r.(modAmp)) (r.(modPan)) (r.(modFilter)) (r.(tableStep)) (r.(tableStart)) (r.(tableRate)) (r.(mask)) (r.(lastVoice)) (r.(lastNote)) (r.(mpEnd)) (r.(mpDelay)) (r.(mpChange)) (r.(maEnd)) v (r.(maChange)) (r.(mfEnd)) (r.(mfDelay)) (r.(mfChange)) (r.(fpsRate)).
Definition set_maChange (v : Z) (r : runtimeState) : runtimeState :=
  mkRuntime (r.(volume)) (r.(fineVolume)) (r.(expression)) (r.(vScaleMode)) (r.(vScaleMax)) (r.(xScaleMode)) (r.(pan)) (r.(program)) (r.(module)) (r.(channel)) (r.(delay)) (r.(slur)) (r.(transpose)) (r.(detune)) (r.(filterCut)) (r.(filterType)) (r.(filterEnv)) (r.(filterEnvOn)) (r.(phase)) (r.(portamento)) (r.(lfoRate)) (r.(lfoDepth)) (r.(lfoWave)) (r.(modPitch)) (r.(modAmp)) (r.(modPan)) (r.(modFilter)) (r.(tableStep)) (r.(tableStart)) (r.(tableRate)) (r.(mask)) (r.(lastVoice)) (r.(lastNote)) (r.(mpEnd)) (r.(mpDelay)) (r.(mpChange)) (r.(maEnd)) (r.(maDelay)) v (r.(mfEnd)) (r.(mfDelay)) (r.(mfChange)) (r.(fpsRate)).
Definition set_mfEnd (v : Z) (r : runtimeState) : runtimeState :=
  mkRuntime (r.(volume)) (r.(fineVolume)) (r.(expression)) (r.(vScaleMode)) (r.(vScaleMax)) (r.(xScaleMode)) (r.(pan)) (r.(program)) (r.(module)) (r.(channel)) (r.(delay)) (r.(slur)) (r.(transpose)) (r.(detune)) (r.(filterCut)) (r.(filterType)) (r.(filterEnv)) (r.(filterEnvOn)) (r.(phase)) (r.(portamento)) (r.(lfoRate)) (r.(lfoDepth)) (r.(lfoWave)) (r.(modPitch)) (r.(modAmp)) (r.(modPan)) (r.(modFilter)) (r.(tableStep)) (r.(tableStart)) (r.(tableRate)) (r.(mask)) (r.(lastVoice)) (r.(lastNote)) (r.(mpEnd)) (r.(mpDelay)) (r.(mpChange)) (r.(maEnd)) (r.(maDelay)) (r.(maChange)) v (r.(mfDelay)) (r.(mfChange)) (r.(fpsRate)).
Definition set_mfDelay (v : Z) (r : runtimeState) : runtimeState :=
  mkRuntime (r.(volume)) (r.(fineVolume)) (r.(expression)) (r.(vScaleMode)) (r.(vScaleMax)) (r.(xScaleMode)) (r.(pan)) (r.(program)) (r.(module)) (r.(channel)) (r.(delay)) (r.(slur)) (r.(transpose)) (r.(detune)) (r.(filterCut)) (r.(filterType)) (r.(filterEnv)) (r.(filterEnvOn)) (r.(phase)) (r.(portamento)) (r.(lfoRate)) (r.(lfoDepth)) (r.(lfoWave)) (r.(modPitch)) (r.(modAmp)) (r.(modPan)) (r.(modFilter)) (r.(tableStep)) (r.(tableStart)) (r.(tableRate)) (r.(mask)) (r.(lastVoice)) (r.(lastNote)) (r.(mpEnd)) (r.(mpDelay)) (r.(mpChange)) (r.(maEnd)) (r.(maDelay)) (r.(maChange)) (r.(mfEnd)) v (r.(mfChange)) (r.(fpsRate)).
Definition set_mfChange (v : Z) (r : runtimeState) : runtimeState :=
  mkRuntime (r.(volume)) (r.(fineVolume)) (r.(expression)) (r.(vScaleMode)) (r.(vScaleMax)) (r.(xScaleMode)) (r.(pan)) (r.(program)) (r.(module)) (r.(channel)) (r.(delay)) (r.(slur)) (r.(transpose)) (r.(detune)) (r.(filterCut)) (r.(filterType)) (r.(filterEnv)) (r.(filterEnvOn)) (r.(phase)) (r.(portamento)) (r.(lfoRate)) (r.(lfoDepth)) (r.(lfoWave)) (r.(modPitch)) (r.(modAmp)) (r.(modPan)) (r.(modFilter)) (r.(tableStep)) (r.(tableStart)) (r.(tableRate)) (r.(mask)) (r.(lastVoice)) (r.(lastNote)) (r.(mpEnd)) (r.(mpDelay)) (r.(mpChange)) (r.(maEnd)) (r.(maDelay)) (r.(maChange)) (r.(mfEnd)) (r.(mfDelay)) v (r.(fpsRate)).
Definition set_fpsRate (v : Z) (r : runtimeState) : runtimeState :=
  mkRuntime (r.(volume)) (r.(fineVolume)) (r.(expression)) (r.(vScaleMode)) (r.(vScaleMax)) (r.(xScaleMode)) (r.(pan)) (r.(program)) (r.(module)) (r.(channel)) (r.(delay)) (r.(slur)) (r.(transpose)) (r.(detune)) (r.(filterCut)) (r.(filterType)) (r.(filterEnv)) (r.(filterEnvOn)) (r.(phase)) (r.(portamento)) (r.(lfoRate)) (r.(lfoDepth)) (r.(lfoWave)) (r.(modPitch)) (r.(modAmp)) (r.(modPan)) (r.(modFilter)) (r.(tableStep)) (r.(tableStart)) (r.(tableRate)) (r.(mask)) (r.(lastVoice)) (r.(lastNote)) (r.(mpEnd)) (r.(mpDelay)) (r.(mpChange)) (r.(maEnd)) (r.(maDelay)) (r.(maChange)) (r.(mfEnd)) (r.(mfDelay)) (r.(mfChange)) v.

(** *** Helpers that do not touch the sequencer *)

Definition absInt (v : Z) : Z := if v <? 0 then GoInt.neg v else v.

Definition maxInt (a b : Z) : Z := if a >? b then a else b.

(** [l[i]] for an [int] index: out of range panics. *)
Definition indexZ {A} (l : list A) (i : Z) : outcome A :=
  if i <? 0 then Panic "index out of range"
  else match l !! Z.to_nat i with
       | Some v => Ok v
       | None => Panic "index out of range"
       end.

(** [filterEnvelope.step]: the envelope it leaves and the value returned. *)
Definition step (fe : filterEnvelope) : filterEnvelope * Z :=
  let upd st fr cur :=
    mkFilterEnv fe.(co) fe.(ar) fe.(dr) fe.(sr) fe.(rr) fe.(co2) fe.(co3) fe.(sc) fe.(rc)
      st fr cur in
  let fe' :=
    if fe.(state) =? 0 then
      if fe.(ar) <=? 0 then upd 1 0 fe.(co2)
      else
        let cur := fe.(co) ⊞ ((fe.(co2) ⊟ fe.(co)) ⊠ fe.(frame)) ⊘ fe.(ar) in
        let fr := fe.(frame) ⊞ 1 in
        if fr >=? fe.(ar) then upd 1 0 fe.(co2) else upd fe.(state) fr cur
    else if fe.(state) =? 1 then
      if fe.(dr) <=? 0 then upd 2 0 fe.(co3)
      else
        let cur := fe.(co2) ⊞ ((fe.(co3) ⊟ fe.(co2)) ⊠ fe.(frame)) ⊘ fe.(dr) in
        let fr := fe.(frame) ⊞ 1 in
        if fr >=? fe.(dr) then upd 2 0 fe.(co3) else upd fe.(state) fr cur
    else if fe.(state) =? 2 then
      if fe.(sr) <=? 0 then upd fe.(state) fe.(frame) fe.(sc)
      else
        let cur := fe.(co3) ⊞ ((fe.(sc) ⊟ fe.(co3)) ⊠ fe.(frame)) ⊘ fe.(sr) in
        let fr := fe.(frame) ⊞ 1 in
        if fr >=? fe.(sr) then upd fe.(state) fr fe.(sc) else upd fe.(state) fr cur
    else if fe.(state) =? 3 then
      if fe.(rr) <=? 0 then upd fe.(state) fe.(frame) fe.(rc)
      else
        let start := fe.(current) in
        let cur := start ⊞ ((fe.(rc) ⊟ start) ⊠ fe.(frame)) ⊘ fe.(rr) in
        let fr := fe.(frame) ⊞ 1 in
        if fr >=? fe.(rr) then upd fe.(state) fr fe.(rc) else upd fe.(state) fr cur
    else fe in
  (fe', clampInt fe'.(current) 0 128).

(** [parseCSVInts]: the calls [fn(idx, v)] it makes, in order. *)
Fixpoint csvPairs (parts : list string) (i : Z) : list (Z * Z) :=
  match parts with
  | [] => []
  | p :: rest =>
      let p := TrimSpace p in
      if String.eqb p "" then csvPairs rest (i + 1)
      else match Atoi p with
           | Some v => (i, v) :: csvPairs rest (i + 1)
           | None => csvPairs rest (i + 1)
           end
  end.

Definition parseCSVInts (src : string) : list (Z * Z) :=
  let src := TrimSpace src in
  if String.eqb src "" then [] else csvPairs (SplitB src ",") 0.

Definition parseCSV (src : string) : list Z := map snd (parseCSVInts src).

Definition isBlank (c : ascii) : bool := Ascii.eqb c " " || Ascii.eqb c (ascii_of_nat 9).

(** [parseSignedAt]: [None] is [ok == false]. *)
Definition parseSignedAt (src : string) (at_ : nat) : option (Z * nat) :=
  let i := skipWhile isBlank src at_ in
  if (len src <=? i)%nat then None
  else
    let '(sign, i) :=
      if Ascii.eqb (byteAt src i) "+" then (1, S i)
      else if Ascii.eqb (byteAt src i) "-" then (-1, S i)
      else (1, i) in
    let start := i in
    let i := skipWhile isDigit src i in
    if (start =? i)%nat then None
    else match Atoi (TrimSpace (slice src start i)) with
         | Some v => Some (sign ⊠ v, i)
         | None => None
         end.

Definition parseTrailingNumber (src : string) (at_ : nat) (def : Z) : Z * nat :=
  match parseSignedAt src at_ with
  | None => (def, at_)
  | Some (v, next) => (if v <=? 0 then def else v, next)
  end.

(** The loop of [parseTrailingOps] after the stretch factor. *)
Fixpoint trailingLoop (fuel : nat) (s : string) (i : nat) (magnify offset : Z) : Z * Z :=
  match fuel with
  | O => (magnify, offset)
  | S f =>
      if (i <? len s)%nat then
        let i := skipWhile isBlank s i in
        if (len s <=? i)%nat then (magnify, offset)
        else
          let c := byteAt s i in
          if Ascii.eqb c "*" then
            match parseSignedAt s (S i) with
            | Some (v, ni) => trailingLoop f s ni v offset
            | None => trailingLoop f s (S i) magnify offset
            end
          else if Ascii.eqb c "+" then
            match parseSignedAt s (S i) with
            | Some (v, ni) => trailingLoop f s ni magnify (offset ⊞ v)
            | None => trailingLoop f s (S i) magnify offset
            end
          else if Ascii.eqb c "-" then
            match parseSignedAt s (S i) with
            | Some (v, ni) => trailingLoop f s ni magnify (offset ⊟ v)
            | None => trailingLoop f s (S i) magnify offset
            end
          else trailingLoop f s (S i) magnify offset
      else (magnify, offset)
  end.

Definition parseTrailingOps (s : string) : Z * Z * Z :=
  let s := TrimSpace s in
  let '(stretch, i) :=
    if (0 <? len s)%nat && isDigit (byteAt s 0) then
      match parseSignedAt s 0 with
      | Some (v, ni) => if v >? 0 then (v, ni) else (1, 0%nat)
      | None => (1, 0%nat)
      end
    else (1, 0%nat) in
  let '(magnify, offset) := trailingLoop (S (len s)) s i 1 0 in
  (stretch, magnify, offset).

Definition applyTableOps (values : list Z) (stretch magnify offset : Z) : list Z :=
  let values :=
    if stretch >? 1 then flat_map (fun v => repeat v (Z.to_nat stretch)) values
    else values in
  if negb (magnify =? 1) || negb (offset =? 0)
  then map (fun v => v ⊠ magnify ⊞ offset) values
  else values.

(** [for r := 0; r < repeat; r++ { v := a + ((b-a)*r)/repeat; ... }] *)
Definition segment (a b repeat : Z) : list Z :=
  map (fun r => a ⊞ ((b ⊟ a) ⊠ Z.of_nat r) ⊘ repeat) (seq 0 (Z.to_nat repeat)).

Fixpoint segments (pts : list Z) (repeat : Z) : list Z :=
  match pts with
  | a :: ((b :: _) as rest) => segment a b repeat ++ segments rest repeat
  | _ => []
  end.

Definition isFormulaGap (c : ascii) : bool :=
  Ascii.eqb c "," || Ascii.eqb c " " || Ascii.eqb c (ascii_of_nat 9)
  || Ascii.eqb c (ascii_of_nat 10) || Ascii.eqb c (ascii_of_nat 13).

(** [parseTableFormula]: [depth] bounds the recursion into the blocks
    between brackets, [fuel] the loop over [body]. *)
Fixpoint formulaLoop (depth : nat) (fuel : nat) (body : string) (i : nat) (vals : list Z)
  {struct depth} : list Z :=
  match depth with
  | O => vals
  | S depth' =>
      (fix loop (fuel : nat) (i : nat) (vals : list Z) {struct fuel} : list Z :=
         match fuel with
         | O => vals
         | S f =>
             if (i <? len body)%nat then
               let i := skipWhile isFormulaGap body i in
               if (len body <=? i)%nat then vals
               else
                 let c := byteAt body i in
                 if Ascii.eqb c "[" then
                   match IndexByte (sliceFrom body (S i)) "]" with
                   | None => loop f (S i) vals
                   | Some end_ =>
                       let block := slice body (S i) (S i + end_) in
                       let '(repeat, ni) := parseTrailingNumber body (S i + end_ + 1) 1 in
                       let part := formulaLoop depth' (S (len block)) block 0 [] in
                       loop f ni (vals ++ List.concat (List.repeat part (Z.to_nat repeat)))%list
                   end
                 else if Ascii.eqb c "(" then
                   match IndexByte (sliceFrom body (S i)) ")" with
                   | None => loop f (S i) vals
                   | Some end_ =>
                       let inside := TrimSpace (slice body (S i) (S i + end_)) in
                       let '(repeat, ni) := parseTrailingNumber body (S i + end_ + 1) 1 in
                       let pts := parseCSV inside in
                       match pts with
                       | [] => loop f ni vals
                       | [p] => loop f ni (vals ++ List.repeat p (Z.to_nat repeat))%list
                       | _ => loop f ni (vals ++ segments pts repeat)%list
                       end
                   end
                 else if Ascii.eqb c "*" || Ascii.eqb c "+" || Ascii.eqb c "-" then
                   match vals with
                   | [] => loop f (S i) vals
                   | _ =>
                       match parseSignedAt body (S i) with
                       | None => loop f (S i) vals
                       | Some (n, ni) =>
                           loop f ni
                             (map (fun v =>
                                     if Ascii.eqb c "*" then v ⊠ n
                                     else if Ascii.eqb c "+" then v ⊞ n
                                     else v ⊟ n) vals)
                       end
                   end
                 else
                   match parseSignedAt body i with
                   | None => loop f (S i) vals
                   | Some (v, ni) => loop f ni (vals ++ [v])%list
                   end
             else vals
         end) fuel i vals
  end.

Definition parseTableFormula (body : string) : list Z :=
  formulaLoop (S (len body)) (S (len body)) body 0 [].

(** One entry of the definitions map, as the body of the loop of
    [parseTableDefinitions] treats it. *)
Definition tableOfDefinition (out : gmap Z tableData) (k raw : string) : gmap Z tableData :=
  if negb (HasPrefix (ToUpper k) "TABLE") then out
  else
    match Atoi (TrimSpace (TrimPrefix (ToUpper k) "TABLE")) with
    | None => out
    | Some id =>
        match IndexByte raw "{", IndexByte raw "}" with
        | Some open, Some closeBrace =>
            if (closeBrace <=? open)%nat then out
            else
              let body := slice raw (S open) closeBrace in
              let trailing := sliceFrom raw (S closeBrace) in
              let '(stretch, magnify, offset) := parseTrailingOps trailing in
              match IndexByte body "|" with
              | Some pipeIdx =>
                  let before := parseTableFormula (slice body 0 pipeIdx) in
                  let after := parseTableFormula (sliceFrom body (S pipeIdx)) in
                  let loopStart := Z.of_nat (length before) in
                  let values := applyTableOps (before ++ after) stretch magnify offset in
                  let loopStart :=
                    if loopStart >? 0 then loopStart ⊠ maxInt stretch 1 else loopStart in
                  if (0 <? length values)%nat
                  then <[id := mkTable values loopStart]> out else out
              | None =>
                  let values :=
                    applyTableOps (parseTableFormula body) stretch magnify offset in
                  if (0 <? length values)%nat
                  then <[id := mkTable values (-1)]> out else out
              end
        | _, _ => out
        end
    end.

(** [parseTableDefinitions]; Go visits the map in an unspecified order,
    here the order is the one of [map_to_list]. *)
Definition parseTableDefinitions (defs : gmap string string) : gmap Z tableData :=
  foldl (fun out kv => tableOfDefinition out kv.1 kv.2) ∅ (map_to_list defs).

(** The arguments of one of [mp], [ma], [mf] in the suffix of a patch. *)
Definition patchArgs (suffix prefix : string) : option (list Z) :=
  match Index suffix prefix with
  | None => None
  | Some idx =>
      let rest := sliceFrom suffix (idx + len prefix) in
      let end_ :=
        foldl (fun end_ other =>
                 if String.eqb other prefix then end_
                 else match Index rest other with
                      | Some j => if (j <? end_)%nat then j else end_
                      | None => end_
                      end)
          (len rest) ["mp"; "ma"; "mf"] in
      Some (parseCSV (TrimRightB (TrimSpace (slice rest 0 end_)) ";"))
  end.

Definition patchOfDefinition (mods : gmap Z patchMod) (key val : string) : gmap Z patchMod :=
  if negb (HasPrefix key "OPM@") && negb (HasPrefix key "OPL@")
     && negb (HasPrefix key "OPN@") && negb (HasPrefix key "OPX@") then mods
  else
    let numStr :=
      sliceFrom key (match IndexByte key "@" with Some k => S k | None => 0%nat end) in
    match Atoi numStr with
    | None => mods
    | Some prog =>
        match LastIndexByte val "}" with
        | None => mods
        | Some closeIdx =>
            let suffix := sliceFrom val (S closeIdx) in
            if String.eqb (TrimSpace suffix) "" then mods
            else
              let pm := mkPatchMod (patchArgs suffix "mp") (patchArgs suffix "ma")
                          (patchArgs suffix "mf") in
              match pm.(mpArgs), pm.(maArgs), pm.(mfArgs) with
              | None, None, None => mods
              | _, _, _ => <[prog := pm]> mods
              end
        end
    end.

Definition parsePatchMods (defs : gmap string string) : gmap Z patchMod :=
  foldl (fun mods kv => patchOfDefinition mods kv.1 kv.2) ∅ (map_to_list defs).

(** [compactNoteOffs]: drop the fired entries, then an insertion sort by
    tick that scans each sorted prefix from its right end. *)
Fixpoint insertFromRight (key : noteOff) (revPrefix : list noteOff) : list noteOff :=
  match revPrefix with
  | [] => [key]
  | x :: r => if x.(tick) >? key.(tick) then x :: insertFromRight key r else key :: x :: r
  end.

Definition compact (l : list noteOff) : list noteOff :=
  rev (foldl (fun revPrefix key => insertFromRight key revPrefix) []
         (filter (fun n => negb n.(fired)) l)).

(** [cancelPendingNoteOff] on the queue. *)
Definition cancel (v : Z) (l : list noteOff) : list noteOff :=
  map (fun n => if (n.(voice) =? v) && negb n.(fired) then mkNoteOff n.(tick) n.(voice) true
                else n) l.

(** The initial [runtimeState] of [NewWithOptions] and of the reset. *)
Definition initialRuntime : runtimeState :=
  set_lastVoice (-1) (set_filterCut 128 (set_vScaleMax 16 (set_expression 128
    (set_fineVolume 127 (set_volume 16 runtimeState0))))).

(** The table value at [idx]: the statements of [sampleTable] from
    [var v int] to the end of the [if]. *)
Definition tableValue (td : tableData) (idx : Z) : outcome Z :=
  let n := Z.of_nat (length td.(values)) in
  if idx <? n then indexZ td.(values) idx
  else
    let loopStart := if td.(loopStart) <? 0 then 0 else td.(loopStart) in
    let loopLen := n ⊟ loopStart in
    if loopLen <=? 0 then indexZ td.(values) (n ⊟ 1)
    else indexZ td.(values) (loopStart ⊞ GoInt.rem (idx ⊟ loopStart) loopLen).

(** The LFO wave at [tick], shared by [sampleLFO] and [applyAmpControls];
    [lfoRate] is positive, so the period is not zero. *)
Definition lfoWaveVal (lfoRate lfoWave tick : Z) : float :=
  let period := lfoRate ⊠ 2 in
  let phase := (GoFloat.ofInt (GoInt.rem tick period) / GoFloat.ofInt period)%float in
  if lfoWave =? 0 then (1 - 2 * phase)%float
  else if lfoWave =? 1 then
    (if PrimFloat.ltb phase 0.5 then 1 else -1)%float
  else if lfoWave =? 3 then
    let cycle := tick ⊘ period in
    (GoFloat.ofInt (GoInt.rem (cycle ⊠ 16807 ⊞ 1) 127) / 63 - 1)%float
  else
    (if PrimFloat.ltb phase 0.5 then 4 * phase - 1 else 3 - 4 * phase)%float.

Definition sampleLFO (rt : runtimeState) (tick : Z) : Z :=
  if (rt.(lfoDepth) =? 0) || (rt.(lfoRate) <=? 0) then 0
  else
    let depth :=
      if (rt.(mpChange) >? 0) && (tick >? rt.(mpDelay)) then
        let progress := clampInt (tick ⊟ rt.(mpDelay)) 0 rt.(mpChange) in
        rt.(modPitch) ⊞ ((rt.(mpEnd) ⊟ rt.(modPitch)) ⊠ progress) ⊘ rt.(mpChange)
      else rt.(lfoDepth) in
    GoFloat.toInt (lfoWaveVal rt.(lfoRate) rt.(lfoWave) tick * GoFloat.ofInt depth / 8)%float.

Section Velocity.
Context `{!GoMath}.

Definition dbScale (norm dbRange : float) : float :=
  if PrimFloat.leb norm 0 then 0%float
  else if PrimFloat.leb 1 norm then 1%float
  else math_Pow 10 (- dbRange * (1 - norm) / 20)%float.

Definition applyScaledVelocity (volume expression fineVolume vScaleMode vScaleMax
  xScaleMode : Z) : Z :=
  let volMax := if vScaleMax <=? 0 then 16 else vScaleMax in
  let v := clampInt volume 0 127 in
  let x := clampInt expression 0 128 in
  let fv := clampInt fineVolume 0 128 in
  let vn := (GoFloat.ofInt v / GoFloat.ofInt volMax)%float in
  let vn := if PrimFloat.ltb vn 0 then 0%float else vn in
  let vn := if PrimFloat.ltb 1 vn then 1%float else vn in
  let vn :=
    if vScaleMode =? 1 then dbScale vn 96
    else if vScaleMode =? 2 then dbScale vn 64
    else if vScaleMode =? 3 then dbScale vn 48
    else if vScaleMode =? 4 then dbScale vn 32
    else vn in
  let xn := (GoFloat.ofInt x / 128)%float in
  let xn :=
    if xScaleMode =? 1 then GoFloat.Sqrt xn
    else if xScaleMode =? 2 then (xn * xn)%float
    else if xScaleMode =? 3 then dbScale xn 48
    else if xScaleMode =? 4 then dbScale xn 32
    else xn in
  let out := (vn * xn * (GoFloat.ofInt fv / 128) * 127)%float in
  clampInt (GoFloat.toInt (GoFloat.Round out)) 0 127.

End Velocity.

Section Sequencer.
Context {E : Type} `{!VoiceEngine E} `{!GoMath}.

(** [onEventCalls] and [onTriggerCalls] log the calls made to the two
    callbacks, oldest first. *)

Record Sequencer : Type := mkSequencer {
  score : mml.Score;
  engine : E;
  sampleRate : Z;
  ticksPerSamp : float;
  initialTicksPerSamp : float;
  tickFrac : float;
  tickInt : Z;
  trackState : list trackCursor;
  trackRuntime : list runtimeState;
  tableDefs : gmap Z tableData;
  noteOffs : list noteOff;
  loopWholeScore : bool;
  pendingReset : bool;
  onEvent : bool;
  onTrigger : bool;
  playbackEndedFired : bool;
  commandExhausted : bool;
  releaseTailFrames : Z;
  loopPending : bool;
  loopTailCountdown : Z;
  masterTranspose : Z;
  patchMods : gmap Z patchMod;
  onEventCalls : list EventKind;
  onTriggerCalls : list TriggerEvent
}.

Definition set_score (v : mml.Score) (r : Sequencer) : Sequencer :=
  mkSequencer v (r.(engine)) (r.(sampleRate)) (r.(ticksPerSamp)) (r.(initialTicksPerSamp)) (r.(tickFrac)) (r.(tickInt)) (r.(trackState)) (r.(trackRuntime)) (r.(tableDefs)) (r.(noteOffs)) (r.(loopWholeScore)) (r.(pendingReset)) (r.(onEvent)) (r.(onTrigger)) (r.(playbackEndedFired)) (r.(commandExhausted)) (r.(releaseTailFrames)) (r.(loopPending)) (r.(loopTailCountdown)) (r.(masterTranspose)) (r.(patchMods)) (r.(onEventCalls)) (r.(onTriggerCalls)).
Definition set_engine (v : E) (r : Sequencer) : Sequencer :=
  mkSequencer (r.(score)) v (r.(sampleRate)) (r.(ticksPerSamp)) (r.(initialTicksPerSamp)) (r.(tickFrac)) (r.(tickInt)) (r.(trackState)) (r.(trackRuntime)) (r.(tableDefs)) (r.(noteOffs)) (r.(loopWholeScore)) (r.(pendingReset)) (r.(onEvent)) (r.(onTrigger)) (r.(playbackEndedFired)) (r.(commandExhausted)) (r.(releaseTailFrames)) (r.(loopPending)) (r.(loopTailCountdown)) (r.(masterTranspose)) (r.(patchMods)) (r.(onEventCalls)) (r.(onTriggerCalls)).
Definition set_sampleRate (v : Z) (r : Sequencer) : Sequencer :=
  mkSequencer (r.(score)) (r.(engine)) v (r.(ticksPerSamp)) (r.(initialTicksPerSamp)) (r.(tickFrac)) (r.(tickInt)) (r.(trackState)) (r.(trackRuntime)) (r.(tableDefs)) (r.(noteOffs)) (r.(loopWholeScore)) (r.(pendingReset)) (r.(onEvent)) (r.(onTrigger)) (r.(playbackEndedFired)) (r.(commandExhausted)) (r.(releaseTailFrames)) (r.(loopPending)) (r.(loopTailCountdown)) (r.(masterTranspose)) (r.(patchMods)) (r.(onEventCalls)) (r.(onTriggerCalls)).
Definition set_ticksPerSamp (v : float) (r : Sequencer) : Sequencer :=
  mkSequencer (r.(score)) (r.(engine)) (r.(sampleRate)) v (r.(initialTicksPerSamp)) (r.(tickFrac)) (r.(tickInt)) (r.(trackState)) (r.(trackRuntime)) (r.(tableDefs)) (r.(noteOffs)) (r.(loopWholeScore)) (r.(pendingReset)) (r.(onEvent)) (r.(onTrigger)) (r.(playbackEndedFired)) (r.(commandExhausted)) (r.(releaseTailFrames)) (r.(loopPending)) (r.(loopTailCountdown)) (r.(masterTranspose)) (r.(patchMods)) (r.(onEventCalls)) (r.(onTriggerCalls)).
Definition set_initialTicksPerSamp (v : float) (r : Sequencer) : Sequencer :=
  mkSequencer (r.(score)) (r.(engine)) (r.(sampleRate)) (r.(ticksPerSamp)) v (r.(tickFrac)) (r.(tickInt)) (r.(trackState)) (r.(trackRuntime)) (r.(tableDefs)) (r.(noteOffs)) (r.(loopWholeScore)) (r.(pendingReset)) (r.(onEvent)) (r.(onTrigger)) (r.(playbackEndedFired)) (r.(commandExhausted)) (r.(releaseTailFrames)) (r.(loopPending)) (r.(loopTailCountdown)) (r.(masterTranspose)) (r.(patchMods)) (r.(onEventCalls)) (r.(onTriggerCalls)).
Definition set_tickFrac (v : float) (r : Sequencer) : Sequencer :=
  mkSequencer (r.(score)) (r.(engine)) (r.(sampleRate)) (r.(ticksPerSamp)) (r.(initialTicksPerSamp)) v (r.(tickInt)) (r.(trackState)) (r.(trackRuntime)) (r.(tableDefs)) (r.(noteOffs)) (r.(loopWholeScore)) (r.(pendingReset)) (r.(onEvent)) (r.(onTrigger)) (r.(playbackEndedFired)) (r.(commandExhausted)) (r.(releaseTailFrames)) (r.(loopPending)) (r.(loopTailCountdown)) (r.(masterTranspose)) (r.(patchMods)) (r.(onEventCalls)) (r.(onTriggerCalls)).
Definition set_tickInt (v : Z) (r : Sequencer) : Sequencer :=
  mkSequencer (r.(score)) (r.(engine)) (r.(sampleRate)) (r.(ticksPerSamp)) (r.(initialTicksPerSamp)) (r.(tickFrac)) v (r.(trackState)) (r.(trackRuntime)) (r.(tableDefs)) (r.(noteOffs)) (r.(loopWholeScore)) (r.(pendingReset)) (r.(onEvent)) (r.(onTrigger)) (r.(playbackEndedFired)) (r.(commandExhausted)) (r.(releaseTailFrames)) (r.(loopPending)) (r.(loopTailCountdown)) (r.(masterTranspose)) (r.(patchMods)) (r.(onEventCalls)) (r.(onTriggerCalls)).
Definition set_trackState (v : list trackCursor) (r : Sequencer) : Sequencer :=
  mkSequencer (r.(score)) (r.(engine)) (r.(sampleRate)) (r.(ticksPerSamp)) (r.(initialTicksPerSamp)) (r.(tickFrac)) (r.(tickInt)) v (r.(trackRuntime)) (r.(tableDefs)) (r.(noteOffs)) (r.(loopWholeScore)) (r.(pendingReset)) (r.(onEvent)) (r.(onTrigger)) (r.(playbackEndedFired)) (r.(commandExhausted)) (r.(releaseTailFrames)) (r.(loopPending)) (r.(loopTailCountdown)) (r.(masterTranspose)) (r.(patchMods)) (r.(onEventCalls)) (r.(onTriggerCalls)).
Definition set_trackRuntime (v : list runtimeState) (r : Sequencer) : Sequencer :=
  mkSequencer (r.(score)) (r.(engine)) (r.(sampleRate)) (r.(ticksPerSamp)) (r.(initialTicksPerSamp)) (r.(tickFrac)) (r.(tickInt)) (r.(trackState)) v (r.(tableDefs)) (r.(noteOffs)) (r.(loopWholeScore)) (r.(pendingReset)) (r.(onEvent)) (r.(onTrigger)) (r.(playbackEndedFired)) (r.(commandExhausted)) (r.(releaseTailFrames)) (r.(loopPending)) (r.(loopTailCountdown)) (r.(masterTranspose)) (r.(patchMods)) (r.(onEventCalls)) (r.(onTriggerCalls)).
Definition set_tableDefs (v : gmap Z tableData) (r : Sequencer) : Sequencer :=
  mkSequencer (r.(score)) (r.(engine)) (r.(sampleRate)) (r.(ticksPerSamp)) (r.(initialTicksPerSamp)) (r.(tickFrac)) (r.(tickInt)) (r.(trackState)) (r.(trackRuntime)) v (r.(noteOffs)) (r.(loopWholeScore)) (r.(pendingReset)) (r.(onEvent)) (r.(onTrigger)) (r.(playbackEndedFired)) (r.(commandExhausted)) (r.(releaseTailFrames)) (r.(loopPending)) (r.(loopTailCountdown)) (r.(masterTranspose)) (r.(patchMods)) (r.(onEventCalls)) (r.(onTriggerCalls)).
Definition set_noteOffs (v : list noteOff) (r : Sequencer) : Sequencer :=
  mkSequencer (r.(score)) (r.(engine)) (r.(sampleRate)) (r.(ticksPerSamp)) (r.(initialTicksPerSamp)) (r.(tickFrac)) (r.(tickInt)) (r.(trackState)) (r.(trackRuntime)) (r.(tableDefs)) v (r.(loopWholeScore)) (r.(pendingReset)) (r.(onEvent)) (r.(onTrigger)) (r.(playbackEndedFired)) (r.(commandExhausted)) (r.(releaseTailFrames)) (r.(loopPending)) (r.(loopTailCountdown)) (r.(masterTranspose)) (r.(patchMods)) (r.(onEventCalls)) (r.(onTriggerCalls)).
Definition set_loopWholeScore (v : bool) (r : Sequencer) : Sequencer :=
  mkSequencer (r.(score)) (r.(engine)) (r.(sampleRate)) (r.(ticksPerSamp)) (r.(initialTicksPerSamp)) (r.(tickFrac)) (r.(tickInt)) (r.(trackState)) (r.(trackRuntime)) (r.(tableDefs)) (r.(noteOffs)) v (r.(pendingReset)) (r.(onEvent)) (r.(onTrigger)) (r.(playbackEndedFired)) (r.(commandExhausted)) (r.(releaseTailFrames)) (r.(loopPending)) (r.(loopTailCountdown)) (r.(masterTranspose)) (r.(patchMods)) (r.(onEventCalls)) (r.(onTriggerCalls)).
Definition set_pendingReset (v : bool) (r : Sequencer) : Sequencer :=
  mkSequencer (r.(score)) (r.(engine)) (r.(sampleRate)) (r.(ticksPerSamp)) (r.(initialTicksPerSamp)) (r.(tickFrac)) (r.(tickInt)) (r.(trackState)) (r.(trackRuntime)) (r.(tableDefs)) (r.(noteOffs)) (r.(loopWholeScore)) v (r.(onEvent)) (r.(onTrigger)) (r.(playbackEndedFired)) (r.(commandExhausted)) (r.(releaseTailFrames)) (r.(loopPending)) (r.(loopTailCountdown)) (r.(masterTranspose)) (r.(patchMods)) (r.(onEventCalls)) (r.(onTriggerCalls)).
Definition set_onEvent (v : bool) (r : Sequencer) : Sequencer :=
  mkSequencer (r.(score)) (r.(engine)) (r.(sampleRate)) (r.(ticksPerSamp)) (r.(initialTicksPerSamp)) (r.(tickFrac)) (r.(tickInt)) (r.(trackState)) (r.(trackRuntime)) (r.(tableDefs)) (r.(noteOffs)) (r.(loopWholeScore)) (r.(pendingReset)) v (r.(onTrigger)) (r.(playbackEndedFired)) (r.(commandExhausted)) (r.(releaseTailFrames)) (r.(loopPending)) (r.(loopTailCountdown)) (r.(masterTranspose)) (r.(patchMods)) (r.(onEventCalls)) (r.(onTriggerCalls)).
Definition set_onTrigger (v : bool) (r : Sequencer) : Sequencer :=
  mkSequencer (r.(score)) (r.(engine)) (r.(sampleRate)) (r.(ticksPerSamp)) (r.(initialTicksPerSamp)) (r.(tickFrac)) (r.(tickInt)) (r.(trackState)) (r.(trackRuntime)) (r.(tableDefs)) (r.(noteOffs)) (r.(loopWholeScore)) (r.(pendingReset)) (r.(onEvent)) v (r.(playbackEndedFired)) (r.(commandExhausted)) (r.(releaseTailFrames)) (r.(loopPending)) (r.(loopTailCountdown)) (r.(masterTranspose)) (r.(patchMods)) (r.(onEventCalls)) (r.(onTriggerCalls)).
Definition set_playbackEndedFired (v : bool) (r : Sequencer) : Sequencer :=
  mkSequencer (r.(score)) (r.(engine)) (r.(sampleRate)) (r.(ticksPerSamp)) (r.(initialTicksPerSamp)) (r.(tickFrac)) (r.(tickInt)) (r.(trackState)) (r.(trackRuntime)) (r.(tableDefs)) (r.(noteOffs)) (r.(loopWholeScore)) (r.(pendingReset)) (r.(onEvent)) (r.(onTrigger)) v (r.(commandExhausted)) (r.(releaseTailFrames)) (r.(loopPending)) (r.(loopTailCountdown)) (r.(masterTranspose)) (r.(patchMods)) (r.(onEventCalls)) (r.(onTriggerCalls)).
Definition set_commandExhausted (v : bool) (r : Sequencer) : Sequencer :=
  mkSequencer (r.(score)) (r.(engine)) (r.(sampleRate)) (r.(ticksPerSamp)) (r.(initialTicksPerSamp)) (r.(tickFrac)) (r.(tickInt)) (r.(trackState)) (r.(trackRuntime)) (r.(tableDefs)) (r.(noteOffs)) (r.(loopWholeScore)) (r.(pendingReset)) (r.(onEvent)) (r.(onTrigger)) (r.(playbackEndedFired)) v (r.(releaseTailFrames)) (r.(loopPending)) (r.(loopTailCountdown)) (r.(masterTranspose)) (r.(patchMods)) (r.(onEventCalls)) (r.(onTriggerCalls)).
Definition set_releaseTailFrames (v : Z) (r : Sequencer) : Sequencer :=
  mkSequencer (r.(score)) (r.(engine)) (r.(sampleRate)) (r.(ticksPerSamp)) (r.(initialTicksPerSamp)) (r.(tickFrac)) (r.(tickInt)) (r.(trackState)) (r.(trackRuntime)) (r.(tableDefs)) (r.(noteOffs)) (r.(loopWholeScore)) (r.(pendingReset)) (r.(onEvent)) (r.(onTrigger)) (r.(playbackEndedFired)) (r.(commandExhausted)) v (r.(loopPending)) (r.(loopTailCountdown)) (r.(masterTranspose)) (r.(patchMods)) (r.(onEventCalls)) (r.(onTriggerCalls)).
Definition set_loopPending (v : bool) (r : Sequencer) : Sequencer :=
  mkSequencer (r.(score)) (r.(engine)) (r.(sampleRate)) (r.(ticksPerSamp)) (r.(initialTicksPerSamp)) (r.(tickFrac)) (r.(tickInt)) (r.(trackState)) (r.(trackRuntime)) (r.(tableDefs)) (r.(noteOffs)) (r.(loopWholeScore)) (r.(pendingReset)) (r.(onEvent)) (r.(onTrigger)) (r.(playbackEndedFired)) (r.(commandExhausted)) (r.(releaseTailFrames)) v (r.(loopTailCountdown)) (r.(masterTranspose)) (r.(patchMods)) (r.(onEventCalls)) (r.(onTriggerCalls)).
Definition set_loopTailCountdown (v : Z) (r : Sequencer) : Sequencer :=
  mkSequencer (r.(score)) (r.(engine)) (r.(sampleRate)) (r.(ticksPerSamp)) (r.(initialTicksPerSamp)) (r.(tickFrac)) (r.(tickInt)) (r.(trackState)) (r.(trackRuntime)) (r.(tableDefs)) (r.(noteOffs)) (r.(loopWholeScore)) (r.(pendingReset)) (r.(onEvent)) (r.(onTrigger)) (r.(playbackEndedFired)) (r.(commandExhausted)) (r.(releaseTailFrames)) (r.(loopPending)) v (r.(masterTranspose)) (r.(patchMods)) (r.(onEventCalls)) (r.(onTriggerCalls)).
Definition set_masterTranspose (v : Z) (r : Sequencer) : Sequencer :=
  mkSequencer (r.(score)) (r.(engine)) (r.(sampleRate)) (r.(ticksPerSamp)) (r.(initialTicksPerSamp)) (r.(tickFrac)) (r.(tickInt)) (r.(trackState)) (r.(trackRuntime)) (r.(tableDefs)) (r.(noteOffs)) (r.(loopWholeScore)) (r.(pendingReset)) (r.(onEvent)) (r.(onTrigger)) (r.(playbackEndedFired)) (r.(commandExhausted)) (r.(releaseTailFrames)) (r.(loopPending)) (r.(loopTailCountdown)) v (r.(patchMods)) (r.(onEventCalls)) (r.(onTriggerCalls)).
Definition set_patchMods (v : gmap Z patchMod) (r : Sequencer) : Sequencer :=
  mkSequencer (r.(score)) (r.(engine)) (r.(sampleRate)) (r.(ticksPerSamp)) (r.(initialTicksPerSamp)) (r.(tickFrac)) (r.(tickInt)) (r.(trackState)) (r.(trackRuntime)) (r.(tableDefs)) (r.(noteOffs)) (r.(loopWholeScore)) (r.(pendingReset)) (r.(onEvent)) (r.(onTrigger)) (r.(playbackEndedFired)) (r.(commandExhausted)) (r.(releaseTailFrames)) (r.(loopPending)) (r.(loopTailCountdown)) (r.(masterTranspose)) v (r.(onEventCalls)) (r.(onTriggerCalls)).
Definition set_onEventCalls (v : list EventKind) (r : Sequencer) : Sequencer :=
  mkSequencer (r.(score)) (r.(engine)) (r.(sampleRate)) (r.(ticksPerSamp)) (r.(initialTicksPerSamp)) (r.(tickFrac)) (r.(tickInt)) (r.(trackState)) (r.(trackRuntime)) (r.(tableDefs)) (r.(noteOffs)) (r.(loopWholeScore)) (r.(pendingReset)) (r.(onEvent)) (r.(onTrigger)) (r.(playbackEndedFired)) (r.(commandExhausted)) (r.(releaseTailFrames)) (r.(loopPending)) (r.(loopTailCountdown)) (r.(masterTranspose)) (r.(patchMods)) v (r.(onTriggerCalls)).
Definition set_onTriggerCalls (v : list TriggerEvent) (r : Sequencer) : Sequencer :=
  mkSequencer (r.(score)) (r.(engine)) (r.(sampleRate)) (r.(ticksPerSamp)) (r.(initialTicksPerSamp)) (r.(tickFrac)) (r.(tickInt)) (r.(trackState)) (r.(trackRuntime)) (r.(tableDefs)) (r.(noteOffs)) (r.(loopWholeScore)) (r.(pendingReset)) (r.(onEvent)) (r.(onTrigger)) (r.(playbackEndedFired)) (r.(commandExhausted)) (r.(releaseTailFrames)) (r.(loopPending)) (r.(loopTailCountdown)) (r.(masterTranspose)) (r.(patchMods)) (r.(onEventCalls)) v.

(** A call of the [onEvent] callback, when one is installed. *)
Definition callOnEvent (k : EventKind) (s : Sequencer) : Sequencer :=
  if s.(onEvent) then set_onEventCalls (s.(onEventCalls) ++ [k]) s else s.

Definition cursorOf (tr : mml.Track) : trackCursor :=
  mkCursor tr.(mml.Events) 0 tr.(mml.LoopIndex) tr.(mml.LoopTick) tr.(mml.EndTick) 0.

Definition NewWithOptions (score : mml.Score) (engine : E) (sampleRate : Z)
  (opts : Options) : Sequencer :=
  let tailFrames :=
    if opts.(ReleaseTailFrames) <=? 0 then sampleRate ⊘ 2 else opts.(ReleaseTailFrames) in
  let bpm :=
    if PrimFloat.leb score.(mml.InitialBPM) 0 then 120%float else score.(mml.InitialBPM) in
  let tps := ((bpm * GoFloat.ofInt score.(mml.Resolution))
              / (240 * GoFloat.ofInt sampleRate))%float in
  {| score := score;
     engine := engine;
     sampleRate := sampleRate;
     ticksPerSamp := tps;
     initialTicksPerSamp := tps;
     tickFrac := 0%float;
     tickInt := 0;
     trackState := map cursorOf score.(mml.Tracks);
     trackRuntime := map (fun _ => initialRuntime) score.(mml.Tracks);
     tableDefs := parseTableDefinitions score.(mml.Definitions);
     noteOffs := [];
     loopWholeScore := opts.(LoopWholeScore);
     pendingReset := false;
     onEvent := opts.(OnEvent);
     onTrigger := opts.(OnTrigger);
     playbackEndedFired := false;
     commandExhausted := false;
     releaseTailFrames := tailFrames;
     loopPending := false;
     loopTailCountdown := 0;
     masterTranspose := opts.(MasterTranspose) ⊠ 12;
     patchMods := parsePatchMods score.(mml.Definitions);
     onEventCalls := [];
     onTriggerCalls := [] |}.

Definition New (score : mml.Score) (engine : E) (sampleRate : Z) : Sequencer :=
  NewWithOptions score engine sampleRate (mkOptions false false false 0 0).

Definition scoreExhausted (s : Sequencer) : bool :=
  forallb
    (fun tc =>
       negb (tc.(index) <? Z.of_nat (length tc.(events)))
       && negb ((tc.(loopIndex) >=? 0) && (tc.(endTick) >? tc.(loopTick))))
    s.(trackState).

Definition resetForWholeScoreLoop (s : Sequencer) : outcome Sequencer :=
  let tracks := s.(score).(mml.Tracks) in
  if (length s.(trackState) <? length tracks)%nat
     || (length s.(trackRuntime) <? length tracks)%nat
  then Panic "index out of range"
  else
    Ok (set_trackRuntime
          (map (fun _ => initialRuntime) tracks ++ drop (length tracks) s.(trackRuntime))
       (set_trackState (map cursorOf tracks ++ drop (length tracks) s.(trackState))
       (set_noteOffs []
       (set_ticksPerSamp s.(initialTicksPerSamp)
       (set_tickInt 0
       (set_tickFrac 0%float
       (set_loopPending false
       (set_pendingReset false s)))))))).

(** **** Table envelopes and LFO *)

(** The index [sampleTable] reads: the frames elapsed since the table
    was started, at the table's step rate. *)
Definition tableIndex (s : Sequencer) (rt : runtimeState) (kind : string) (eventTick : Z)
  : outcome Z :=
  let rate := default 0 (rt.(tableRate) !! kind) in
  let rate := if rate <=? 0 then 1 else rate in
  let ticksPerFrame := s.(score).(mml.Resolution) ⊘ 4 in
  let fps := rt.(fpsRate) in
  let fps :=
    if fps <=? 0 then
      match s.(score).(mml.Definitions) !! "FPS" with
      | Some raw =>
          match Atoi (TrimSpace raw) with
          | Some fv => if fv >? 0 then fv else fps
          | None => fps
          end
      | None => fps
      end
    else fps in
  let ticksPerFrame :=
    if fps >? 0 then
      GoFloat.toInt
        (GoFloat.Max 1 ((60 / GoFloat.ofInt fps)
                        * GoFloat.ofInt s.(score).(mml.Resolution) / 4))%float
    else ticksPerFrame in
  let start := default 0 (rt.(tableStart) !! kind) in
  if eventTick >? start
  then GoInt.divP (eventTick ⊟ start) (ticksPerFrame ⊠ rate)
  else Ok 0.

Definition sampleTable (s : Sequencer) (rt : runtimeState) (kind : string) (scale : Z)
  (eventTick : Z) : outcome Z :=
  match rt.(tableStep) !! kind with
  | None => Ok 0
  | Some _ =>
      let tableID :=
        if String.eqb kind "na" then rt.(modAmp)
        else if String.eqb kind "nt" then rt.(modPitch)
        else if String.eqb kind "np" then rt.(modPan)
        else if String.eqb kind "nf" then rt.(modFilter)
        else 0 in
      let td := default (mkTable [] 0) (s.(tableDefs) !! tableID) in
      if (length td.(values) =? 0)%nat then Ok 0
      else
        idx ← tableIndex s rt kind eventTick;
        v ← tableValue td idx;
        if scale <=? 0 then Ok v else Ok (v ⊘ scale)
  end.

Definition lfoRateToHz (s : Sequencer) (lfoRate : Z) : float :=
  if (lfoRate <=? 0) || PrimFloat.leb s.(ticksPerSamp) 0 then 0%float
  else
    let ticksPerSec := (s.(ticksPerSamp) * GoFloat.ofInt s.(sampleRate))%float in
    let period := (GoFloat.ofInt (lfoRate ⊠ 2) / ticksPerSec)%float in
    if PrimFloat.leb period 0 then 0%float else (1 / period)%float.

Definition updateEngineLFO (s : Sequencer) (rt : runtimeState) : Sequencer :=
  let rateHz := lfoRateToHz s rt.(lfoRate) in
  let e := s.(engine) in
  let e :=
    if negb (rt.(mpEnd) =? 0) && (rt.(lfoRate) >? 0)
    then SetPitchLFO e (GoFloat.ofInt rt.(mpEnd) / 8)%float rateHz rt.(lfoWave)
    else SetPitchLFO e 0%float 0%float 0 in
  let e :=
    if negb (rt.(maEnd) =? 0) && (rt.(lfoRate) >? 0)
    then SetAmpLFO e (GoFloat.ofInt rt.(maEnd) / 16)%float rateHz rt.(lfoWave)
    else SetAmpLFO e 0%float 0%float 0 in
  let e :=
    if negb (rt.(mfEnd) =? 0) && (rt.(lfoRate) >? 0)
    then SetFilterLFO e (GoFloat.ofInt rt.(mfEnd) / 8)%float rateHz rt.(lfoWave)
    else SetFilterLFO e 0%float 0%float 0 in
  set_engine e s.

Definition applyAmpControls (s : Sequencer) (rt : runtimeState) (vel tick : Z)
  : outcome (runtimeState * Z) :=
  let vel := if vel <=? 0 then 1 else vel in
  let '(rt, filterCut) :=
    if rt.(filterEnvOn) then
      let '(fe, v) := step rt.(filterEnv) in (set_filterEnv fe rt, v)
    else (rt, rt.(filterCut)) in
  let vel := (vel ⊠ clampInt filterCut 1 128) ⊘ 128 in
  let vel := if vel <? 1 then 1 else vel in
  ampTable ← sampleTable s rt "na" 1 tick;
  let vel :=
    if negb (ampTable =? 0) then
      let vel := (vel ⊠ clampInt ampTable 1 128) ⊘ 128 in
      if vel <? 1 then 1 else vel
    else vel in
  let vel :=
    if rt.(modAmp) >? 0 then
      let ampDepth :=
        if (rt.(maChange) >? 0) && (tick >? rt.(maDelay)) then
          let progress := clampInt (tick ⊟ rt.(maDelay)) 0 rt.(maChange) in
          rt.(modAmp) ⊞ ((rt.(maEnd) ⊟ rt.(modAmp)) ⊠ progress) ⊘ rt.(maChange)
        else rt.(modAmp) in
      let waveVal :=
        if rt.(lfoRate) >? 0 then lfoWaveVal rt.(lfoRate) rt.(lfoWave) tick else 0%float in
      vel ⊞ GoFloat.toInt (waveVal * GoFloat.ofInt ampDepth / 16)%float
    else vel in
  Ok (rt, clampInt vel 1 127).

Definition applyTableEnv (rt : runtimeState) (ev : mml.Event) : runtimeState :=
  let cmd := ToLower (TrimSpace ev.(mml.Command)) in
  let isRelease := HasPrefix cmd "_" in
  let cmd := TrimPrefix cmd "_" in
  let cmd := TrimPrefix cmd "@" in
  let kind := if isRelease then "r" +:+ cmd else cmd in
  if existsb (String.eqb cmd) ["na"; "nt"; "np"; "nf"; "@"] then
    let step := if ev.(mml.Delay) <=? 0 then 1 else ev.(mml.Delay) in
    let rt := set_tableStep (<[kind := 0]> rt.(tableStep)) rt in
    let rt := set_tableStart (<[kind := ev.(mml.Tick)]> rt.(tableStart)) rt in
    let rt := set_tableRate (<[kind := step]> rt.(tableRate)) rt in
    if String.eqb cmd "na" then set_modAmp ev.(mml.Value) rt
    else if String.eqb cmd "nt" then set_modPitch ev.(mml.Value) rt
    else if String.eqb cmd "np" then set_modPan ev.(mml.Value) rt
    else if String.eqb cmd "nf" then set_modFilter ev.(mml.Value) rt
    else set_modPitch ev.(mml.Value) rt
  else rt.

(** The envelope an [@f] command with at least three values builds. *)
Definition filterEnvOf (ev : mml.Event) : filterEnvelope :=
  let v := ev.(mml.Value) in
  let arg (k : nat) (d : Z) := default d (ev.(mml.Values) !! k) in
  mkFilterEnv v (arg 2%nat 0) (arg 3%nat 0) (arg 4%nat 0) (arg 5%nat 0) (arg 6%nat v)
    (arg 7%nat v) (arg 8%nat v) (arg 9%nat 0) 0 0 v.

(** The three depth commands [mp], [ma], [mf] read their tail alike. *)
Definition modArgs (ev : mml.Event) (setEnd setDelay setChange : Z -> runtimeState -> runtimeState)
  (rt : runtimeState) : runtimeState :=
  let args := parseCSV ev.(mml.Text) in
  let rt := match args !! 0%nat with Some a => setEnd a rt | None => rt end in
  let rt := match args !! 1%nat with Some a => setDelay a rt | None => rt end in
  match args !! 2%nat with Some a => setChange a rt | None => rt end.

Definition applyControl (s : Sequencer) (rt : runtimeState) (ev : mml.Event)
  : Sequencer * runtimeState :=
  let cmd := ToLower (TrimSpace ev.(mml.Command)) in
  let v := ev.(mml.Value) in
  let masked := negb (GoInt.land rt.(mask) 32 =? 0) in
  if String.eqb cmd "@mask" then (s, set_mask (clampInt v 0 63) rt)
  else if String.eqb cmd "%v" then
    let rt := set_vScaleMode v rt in
    match ev.(mml.Values) !! 1%nat with
    | Some m => (s, if m >? 0 then set_vScaleMax m rt else rt)
    | None => (s, rt)
    end
  else if String.eqb cmd "%x" then (s, set_xScaleMode v rt)
  else if String.eqb cmd "%f" then
    if (v >=? 0) && (v <=? 2)
    then (set_engine (SetFilterType s.(engine) v) s, set_filterType v rt)
    else (s, rt)
  else if String.eqb cmd "%t" then
    if s.(onTrigger) then
      let te := mkTrigger v (default 0 (ev.(mml.Values) !! 1%nat))
                  (default 0 (ev.(mml.Values) !! 2%nat)) in
      (set_onTriggerCalls (s.(onTriggerCalls) ++ [te]) s, rt)
    else (s, rt)
  else if String.eqb cmd "%e" then
    if s.(onTrigger) then
      let te := mkTrigger v (default 0 (ev.(mml.Values) !! 1%nat)) 0 in
      (set_onTriggerCalls (s.(onTriggerCalls) ++ [te]) s, rt)
    else (s, rt)
  else if String.eqb cmd "po" then (s, set_portamento v rt)
  else if String.eqb cmd "*" then (s, set_portamento (if v >? 0 then v else 50) rt)
  else if String.eqb cmd "@ph" then (s, set_phase v rt)
  else if String.eqb cmd "@f" then
    if masked then (s, rt)
    else
      let rt := set_filterCut v rt in
      if (3 <=? length ev.(mml.Values))%nat
      then (s, set_filterEnvOn true (set_filterEnv (filterEnvOf ev) rt))
      else (s, rt)
  else if String.eqb cmd "@lfo" then
    if masked then (s, rt)
    else
      let rt := set_lfoWave v rt in
      let rt :=
        foldl (fun rt iv => if iv.1 =? 0 then set_lfoRate iv.2 rt else rt) rt
          (parseCSVInts ev.(mml.Text)) in
      (updateEngineLFO s rt, rt)
  else if String.eqb cmd "mp" then
    if masked then (s, rt)
    else
      let rt := set_modPitch v rt in
      let rt := modArgs ev (fun a rt => set_lfoDepth (absInt a) (set_mpEnd a rt))
                  set_mpDelay set_mpChange rt in
      (updateEngineLFO s rt, rt)
  else if String.eqb cmd "ma" then
    if masked then (s, rt)
    else
      let rt := set_modAmp v rt in
      let rt := modArgs ev set_maEnd set_maDelay set_maChange rt in
      (updateEngineLFO s rt, rt)
  else if String.eqb cmd "mf" then
    if masked then (s, rt)
    else
      let rt := set_modFilter v rt in
      let rt := modArgs ev set_mfEnd set_mfDelay set_mfChange rt in
      (updateEngineLFO s rt, rt)
  else if String.eqb cmd "s" then (s, if v >? 0 then set_modAmp v rt else rt)
  else if String.eqb cmd "@al" then
    match SetAlgorithmAndOperatorCount with
    | Some (setAlgorithm, setOperatorCount) =>
        let e := setOperatorCount s.(engine) v in
        let alg :=
          if String.eqb ev.(mml.Text) "" then -1
          else default (-1) (parseCSV ev.(mml.Text) !! 0%nat) in
        (set_engine (if alg >=? 0 then setAlgorithm e alg else e) s, rt)
    | None => (s, rt)
    end
  else if String.eqb cmd "@fb" then
    match SetFeedback with
    | Some setFeedback =>
        (set_engine (setFeedback s.(engine) (GoFloat.ofInt v / 7)%float) s, rt)
    | None => (s, rt)
    end
  else if String.eqb cmd "@fps" then (s, if v >? 0 then set_fpsRate v rt else rt)
  else (s, rt).

(** The arguments a patch carries for one of [mp], [ma], [mf]. *)
Definition patchArgsApply (args : option (list Z))
  (setDepth setEnd setDelay setChange : Z -> runtimeState -> runtimeState)
  (rt : runtimeState) : outcome runtimeState :=
  match args with
  | None => Ok rt
  | Some l =>
      a0 ← indexZ l 0;
      let rt := setDepth a0 rt in
      let rt := match l !! 1%nat with Some a => setEnd a rt | None => rt end in
      let rt := match l !! 2%nat with Some a => setDelay a rt | None => rt end in
      Ok (match l !! 3%nat with Some a => setChange a rt | None => rt end)
  end.

(** [case mml.EventProgram] *)
Definition applyProgram (s : Sequencer) (rt : runtimeState) (ev : mml.Event)
  : outcome (Sequencer * runtimeState) :=
  let rt := set_program ev.(mml.Value) rt in
  match s.(patchMods) !! ev.(mml.Value) with
  | None => Ok (s, rt)
  | Some pm =>
      rt ← patchArgsApply pm.(mpArgs) set_modPitch
             (fun a rt => set_lfoDepth (absInt a) (set_mpEnd a rt))
             set_mpDelay set_mpChange rt;
      rt ← patchArgsApply pm.(maArgs) set_modAmp set_maEnd set_maDelay set_maChange rt;
      rt ← patchArgsApply pm.(mfArgs) set_modFilter set_mfEnd set_mfDelay set_mfChange rt;
      Ok (updateEngineLFO s rt, rt)
  end.

(** [case mml.EventNote] *)
Definition applyNote (s : Sequencer) (rt : runtimeState) (ev : mml.Event) (eventTick : Z)
  : outcome (Sequencer * runtimeState) :=
  let s :=
    if negb (bool_decide (ev.(mml.Slur) = mml.SlurNone)) && (rt.(lastVoice) >=? 0)
    then set_noteOffs (cancel rt.(lastVoice) s.(noteOffs))
           (set_engine (NoteOff s.(engine) rt.(lastVoice)) s)
    else s in
  let vel := ev.(mml.Value) in
  let vel :=
    if vel <=? 0
    then applyScaledVelocity rt.(volume) rt.(expression) rt.(fineVolume) rt.(vScaleMode)
           rt.(vScaleMax) rt.(xScaleMode)
    else vel in
  let note := ev.(mml.Note) ⊞ rt.(transpose) ⊞ rt.(detune) ⊘ 64 ⊞ s.(masterTranspose) in
  nt ← sampleTable s rt "nt" 16 eventTick;
  let note := note ⊞ nt in
  let note := note ⊞ sampleLFO rt eventTick in
  let note := clampInt note 0 127 in
  let pan := rt.(pan) in
  let pan :=
    if (GoInt.land rt.(mask) 2 =? 0) && negb (ev.(mml.Pan) =? 0) then ev.(mml.Pan) else pan in
  np ← sampleTable s rt "np" 1 eventTick;
  let pan := clampInt (pan ⊞ np) (-64) 64 in
  let program := if ev.(mml.Program) =? 0 then rt.(program) else ev.(mml.Program) in
  let program := program ⊞ GoInt.shl rt.(module) 8 ⊞ GoInt.shl rt.(channel) 16 in
  '(rt, vel) ← applyAmpControls s rt vel eventTick;
  let program := program ⊞ GoInt.shl (clampInt rt.(filterCut) 0 255) 24 in
  let s := set_engine (SetNoteOnPhase s.(engine) rt.(phase)) s in
  let portamentoFrames :=
    if (rt.(portamento) >? 0) && (rt.(lastVoice) >=? 0) then
      let pf := (rt.(portamento) ⊠ s.(sampleRate)) ⊘ 1000 in
      if pf <? 1 then 1 else pf
    else 0 in
  let s := set_engine (SetPortamento s.(engine) rt.(lastNote) portamentoFrames) s in
  let s := updateEngineLFO s rt in
  let '(e, voiceID) := NoteOn s.(engine) note vel pan program in
  let s := set_engine e s in
  let rt := set_lastNote note (set_lastVoice voiceID rt) in
  let offTick := eventTick ⊞ ev.(mml.Duration) in
  let offTick := if ev.(mml.GateTick) >=? 0 then eventTick ⊞ ev.(mml.GateTick) else offTick in
  let offTick := if ev.(mml.Delay) >? 0 then offTick ⊞ ev.(mml.Delay) else offTick in
  Ok (set_noteOffs (s.(noteOffs) ++ [mkNoteOff offTick voiceID false]) s, rt).

(** [case mml.EventTempo] *)
Definition applyTempo (s : Sequencer) (tc : trackCursor) (ev : mml.Event) : Sequencer :=
  if (tc.(loopCycle) >? 0) && (tc.(loopIndex) >=? 0) && (ev.(mml.Tick) >=? tc.(loopTick))
  then s
  else
    set_ticksPerSamp
      ((GoFloat.ofInt ev.(mml.Value) * GoFloat.ofInt s.(score).(mml.Resolution))
       / (240 * GoFloat.ofInt s.(sampleRate)))%float s.

(** The [switch ev.Type] of [applyEvent], on the runtime state [rt] of
    the track. *)
Definition applyEventSwitch (s : Sequencer) (rt : runtimeState) (tc : trackCursor)
  (ev : mml.Event) (eventTick : Z) : outcome (Sequencer * runtimeState) :=
  let maskBit (b : Z) := negb (GoInt.land rt.(mask) b =? 0) in
  match ev.(mml.Type_) with
  | mml.EventTempo => Ok (applyTempo s tc ev, rt)
  | mml.EventVolume =>
      if maskBit 1 then Ok (s, rt) else Ok (s, set_volume ev.(mml.Value) rt)
  | mml.EventFineVolume =>
      if maskBit 1 then Ok (s, rt) else Ok (s, set_fineVolume ev.(mml.Value) rt)
  | mml.EventExpression =>
      if maskBit 1 then Ok (s, rt) else Ok (s, set_expression ev.(mml.Value) rt)
  | mml.EventPan =>
      if maskBit 2 then Ok (s, rt) else Ok (s, set_pan ev.(mml.Value) rt)
  | mml.EventProgram => applyProgram s rt ev
  | mml.EventModule =>
      Ok (s, set_channel ev.(mml.Channel) (set_module ev.(mml.Module_) rt))
  | mml.EventQuantize => Ok (s, rt)
  | mml.EventKeyOnDelay => Ok (s, set_delay ev.(mml.Delay) rt)
  | mml.EventTranspose => Ok (s, set_transpose ev.(mml.Value) rt)
  | mml.EventDetune => Ok (s, set_detune ev.(mml.Value) rt)
  | mml.EventSlur => Ok (s, set_slur ev.(mml.Slur) rt)
  | mml.EventTableEnv =>
      if maskBit 16 then Ok (s, rt) else Ok (s, applyTableEnv rt ev)
  | mml.EventControl => Ok (applyControl s rt ev)
  | mml.EventNote => applyNote s rt ev eventTick
  | mml.EventRest | mml.EventZero => Ok (s, rt)
  end.

(** The call [SetCurrentModule(rt.module)] that opens [applyEvent], made
    when the engine routes by module. *)
Definition hinted (s : Sequencer) (rt : runtimeState) : Sequencer :=
  match SetCurrentModule with
  | Some setCurrentModule => set_engine (setCurrentModule s.(engine) rt.(module)) s
  | None => s
  end.

(** [applyEvent]: [rt := &s.trackRuntime[trackIndex]], the module hint
    for a multi-engine, then the [switch]; what the switch did to [rt]
    is stored back. *)
Definition applyEvent (s : Sequencer) (trackIndex : nat) (tc : trackCursor)
  (ev : mml.Event) (eventTick : Z) : outcome Sequencer :=
  match s.(trackRuntime) !! trackIndex with
  | None => Panic "index out of range"
  | Some rt =>
      '(s, rt) ← applyEventSwitch (hinted s rt) rt tc ev eventTick;
      Ok (set_trackRuntime (<[trackIndex := rt]> s.(trackRuntime)) s)
  end.

(** **** Dispatch *)

Definition peekEvent (tc : trackCursor) : option (mml.Event * Z) :=
  if (tc.(index) <? 0) || (tc.(index) >=? Z.of_nat (length tc.(events))) then None
  else
    match tc.(events) !! Z.to_nat tc.(index) with
    | None => None
    | Some ev =>
        if (tc.(loopCycle) =? 0) || (tc.(loopIndex) <? 0) || (tc.(index) <? tc.(loopIndex))
        then Some (ev, ev.(mml.Tick))
        else
          let loopLen := tc.(endTick) ⊟ tc.(loopTick) in
          Some (ev, ev.(mml.Tick) ⊞ tc.(loopCycle) ⊠ loopLen)
    end.

(** [tc.index++] and the rewind to the loop point at the end of a
    looping track. *)
Definition advance (tc : trackCursor) : trackCursor :=
  let idx := tc.(index) ⊞ 1 in
  if (idx >=? Z.of_nat (length tc.(events))) && (tc.(loopIndex) >=? 0)
     && (tc.(endTick) >? tc.(loopTick))
  then mkCursor tc.(events) tc.(loopIndex) tc.(loopIndex) tc.(loopTick) tc.(endTick)
         (tc.(loopCycle) ⊞ 1)
  else mkCursor tc.(events) idx tc.(loopIndex) tc.(loopTick) tc.(endTick) tc.(loopCycle).

(** The inner [for] of [dispatchTick] on one track. *)
Fixpoint dispatchTrack (fuel : nat) (s : Sequencer) (trkIdx : nat) (tick : Z)
  : outcome Sequencer :=
  match fuel with
  | O => Fuel
  | S f =>
      match s.(trackState) !! trkIdx with
      | None => Ok s
      | Some tc =>
          match peekEvent tc with
          | None => Ok s
          | Some (ev, effectiveTick) =>
              if effectiveTick >? tick then Ok s
              else
                s ← applyEvent s trkIdx tc ev effectiveTick;
                dispatchTrack f
                  (set_trackState (<[trkIdx := advance tc]> s.(trackState)) s) trkIdx tick
          end
      end
  end.

(** The first loop of [dispatchTick]: the tracks in score order. *)
Fixpoint dispatchTracks (fuel : nat) (s : Sequencer) (idxs : list nat) (tick : Z)
  : outcome Sequencer :=
  match idxs with
  | [] => Ok s
  | i :: rest =>
      s ← dispatchTrack fuel s i tick;
      dispatchTracks fuel s rest tick
  end.

Definition dispatchEvents (fuel : nat) (s : Sequencer) (tick : Z) : outcome Sequencer :=
  dispatchTracks fuel s (seq 0 (length s.(trackState))) tick.

(** The second loop of [dispatchTick]: the queue in order, firing every
    entry that is due. *)
Fixpoint fireLoop (tick : Z) (e : E) (l : list noteOff) : E * list noteOff :=
  match l with
  | [] => (e, [])
  | n :: rest =>
      if negb n.(fired) && (n.(sequencer.tick) <=? tick) then
        let '(e', rest') := fireLoop tick (NoteOff e n.(voice)) rest in
        (e', mkNoteOff n.(sequencer.tick) n.(voice) true :: rest')
      else
        let '(e', rest') := fireLoop tick e rest in
        (e', n :: rest')
  end.

Definition fireNoteOffs (s : Sequencer) (tick : Z) : Sequencer :=
  let '(e, l) := fireLoop tick s.(engine) s.(noteOffs) in
  set_noteOffs l (set_engine e s).

Definition compactNoteOffs (s : Sequencer) : Sequencer :=
  match s.(noteOffs) with
  | [] => s
  | l => set_noteOffs (compact l) s
  end.

(** The end of [dispatchTick]: the score and the queue are exhausted. *)
Definition tally (s : Sequencer) : Sequencer :=
  if (length s.(noteOffs) =? 0)%nat && scoreExhausted s then
    if s.(loopWholeScore) then
      if negb s.(loopPending)
      then set_loopTailCountdown s.(releaseTailFrames) (set_loopPending true s)
      else s
    else set_commandExhausted true s
  else s.

Definition dispatchTick (fuel : nat) (s : Sequencer) (tick : Z) : outcome Sequencer :=
  s ← dispatchEvents fuel s tick;
  Ok (tally (compactNoteOffs (fireNoteOffs s tick))).

(** **** [Process] *)

(** [for s.tickInt <= nextTick { s.dispatchTick(s.tickInt); s.tickInt++ }] *)
Fixpoint tickLoop (n : nat) (fuel : nat) (s : Sequencer) : outcome Sequencer :=
  match n with
  | O => Ok s
  | S k =>
      s ← dispatchTick fuel s s.(tickInt);
      tickLoop k fuel (set_tickInt (s.(tickInt) ⊞ 1) s)
  end.

(** The frame loop's body up to [RenderFrame] and the loop countdown. *)
Definition frameAdvance (fuel : nat) (s : Sequencer) : outcome (Sequencer * (float * float)) :=
  let s := set_tickFrac (s.(tickFrac) + s.(ticksPerSamp))%float s in
  let nextTick := GoFloat.toInt s.(tickFrac) in
  if (nextTick =? GoInt.maxInt) && (s.(tickInt) <=? nextTick) then Fuel
  else
    s ← tickLoop (Z.to_nat (nextTick - s.(tickInt) + 1)) fuel s;
    s ← (if s.(pendingReset) then resetForWholeScoreLoop s else Ok s);
    let '(e, lr) := RenderFrame s.(engine) in
    let s := set_engine e s in
    let s :=
      if s.(loopPending) && (ActiveVoiceCount s.(engine) =? 0) then
        if s.(loopTailCountdown) <=? 0
        then callOnEvent EventLoopCompleted (set_pendingReset true (set_loopPending false s))
        else set_loopTailCountdown (s.(loopTailCountdown) ⊟ 1) s
      else s in
    Ok (s, lr).


(** The last [if] of the frame loop: the release tail. *)
Definition tailCheck (s : Sequencer) : Sequencer :=
  if s.(commandExhausted) && negb s.(playbackEndedFired)
     && (ActiveVoiceCount s.(engine) =? 0) then
    if s.(releaseTailFrames) <=? 0
    then callOnEvent EventPlaybackEnded (set_playbackEndedFired true s)
    else set_releaseTailFrames (s.(releaseTailFrames) ⊟ 1) s
  else s.

Definition frameStep (fuel : nat) (s : Sequencer) : outcome (Sequencer * (float * float)) :=
  '(s, lr) ← frameAdvance fuel s;
  Ok (tailCheck s, lr).

(** [Process(dst)] for a buffer of [frames] stereo frames: the
    sequencer it leaves and the frames written, first to last. *)
Fixpoint Process (fuel : nat) (s : Sequencer) (frames : nat)
  : outcome (Sequencer * list (float * float)) :=
  match frames with
  | O => Ok (s, [])
  | S k =>
      '(s, lr) ← frameStep fuel s;
      '(s, dst) ← Process fuel s k;
      Ok (s, lr :: dst)
  end.

End Sequencer.

Arguments Sequencer E : clear implicits.

End sequencer.

(** ** Engines used to observe the sequencer *)

(** [countingEngine] of the sequencer's tests: it counts the note-ons,
    hands out voice ids in order, records the pans and the voices
    switched off, and never reports an active voice. *)
Module countingEngine.

Record t : Type := mk {
  noteOnCount : Z;
  noteOffs : list Z;
  nextID : Z;
  pans : list Z
}.

Definition new : t := mk 0 [] 0 [].

#[global] Instance voiceEngine : VoiceEngine t := {|
  NoteOn e note velocity pan program :=
    (mk (e.(noteOnCount) ⊞ 1) e.(noteOffs) (e.(nextID) ⊞ 1) (e.(pans) ++ [pan]), e.(nextID));
  NoteOff e id := mk e.(noteOnCount) (e.(noteOffs) ++ [id]) e.(nextID) e.(pans);
  RenderFrame e := (e, (0%float, 0%float));
  SetMasterGain e _ := e;
  ActiveVoiceCount _ := 0;
  SetFilterType e _ := e;
  SetNoteOnPhase e _ := e;
  SetPortamento e _ _ := e;
  SetPitchLFO e _ _ _ := e;
  SetAmpLFO e _ _ _ := e;
  SetFilterLFO e _ _ _ := e;
  SetCurrentModule := None;
  SetAlgorithmAndOperatorCount := None;
  SetFeedback := None
|}.

End countingEngine.

(** An engine wrapped so that the note-ons and note-offs it receives are
    kept in the order of the calls. *)
Module traced.

Inductive call : Type :=
| CallNoteOn (note velocity pan program : Z)
| CallNoteOff (id : Z).

Definition isNoteOn (c : call) : bool :=
  match c with CallNoteOn _ _ _ _ => true | CallNoteOff _ => false end.

Definition isNoteOff (c : call) : bool := negb (isNoteOn c).

Record t (E : Type) : Type := mk {
  inner : E;
  calls : list call
}.
Arguments mk {E} inner calls.
Arguments inner {E} _.
Arguments calls {E} _.

Definition lift {E} (f : E -> E) (e : t E) : t E := mk (f e.(inner)) e.(calls).

#[global] Instance voiceEngine {E} `{!VoiceEngine E} : VoiceEngine (t E) := {|
  NoteOn e note velocity pan program :=
    let '(i, id) := NoteOn e.(inner) note velocity pan program in
    (mk i (e.(calls) ++ [CallNoteOn note velocity pan program]), id);
  NoteOff e id := mk (NoteOff e.(inner) id) (e.(calls) ++ [CallNoteOff id]);
  RenderFrame e := let '(i, lr) := RenderFrame e.(inner) in (mk i e.(calls), lr);
  SetMasterGain e g := lift (fun i => SetMasterGain i g) e;
  ActiveVoiceCount e := ActiveVoiceCount e.(inner);
  SetFilterType e v := lift (fun i => SetFilterType i v) e;
  SetNoteOnPhase e v := lift (fun i => SetNoteOnPhase i v) e;
  SetPortamento e a b := lift (fun i => SetPortamento i a b) e;
  SetPitchLFO e a b c := lift (fun i => SetPitchLFO i a b c) e;
  SetAmpLFO e a b c := lift (fun i => SetAmpLFO i a b c) e;
  SetFilterLFO e a b c := lift (fun i => SetFilterLFO i a b c) e;
  SetCurrentModule := (fun f e m => lift (fun i => f i m) e) <$> SetCurrentModule;
  SetAlgorithmAndOperatorCount :=
    (fun fg => (fun e v => lift (fun i => fg.1 i v) e, fun e v => lift (fun i => fg.2 i v) e))
      <$> SetAlgorithmAndOperatorCount;
  SetFeedback := (fun f e v => lift (fun i => f i v) e) <$> SetFeedback
|}.

End traced.

(** An instance of [GoMath] for running scores whose velocity scaling
    stays linear (scale modes 0), where [math.Pow] is never called. *)
Definition linearMath : GoMath := {| math_Pow := fun _ _ => 0%float |}.

(** ** Notions used to state the properties *)

Module observe.

Import sequencer.


(** The options and the state a track starts with under the default
    configuration and no directive: what [Parse] passes to [parseTrack]
    and what [newState] returns. *)
Definition defaultOptions : mml.parserOptions := mml.mkOptions 8 "" 100 60.

Definition startState : mml.parseState :=
  mml.mkState 1920 0 5 480 120%float 16 127 128 8 6 75 (-1) 0 mml.SlurNone 0 0 0 0 0 0
    false mml.keySig0 "" 0 16 0.

Definition startAcc : mml.trackAcc := mml.mkAcc 0 startState [] (-1) (-1).



(** The note numbers of the Note events of a score, track by track. *)
Definition parsedNotes (src : string) : outcome (list (list Z)) :=
  let _ := linearMath in
  score ← mml.Parse mml.DefaultParserConfig src;
  Ok (map (fun tr => map mml.Note
                       (filter (fun e => e.(mml.Type_) = mml.EventNote) tr.(mml.Events)))
        score.(mml.Tracks)).

(** The pan each Note event of a score carries, track by track. *)
Definition parsedNotePans (src : string) : outcome (list (list Z)) :=
  let _ := linearMath in
  score ← mml.Parse mml.DefaultParserConfig src;
  Ok (map (fun tr => map mml.Pan
                       (filter (fun e => e.(mml.Type_) = mml.EventNote) tr.(mml.Events)))
        score.(mml.Tracks)).

(** The pan and the mask each track's runtime state holds. *)
Definition runtimePans (l : list runtimeState) : list (Z * Z) :=
  map (fun rt => (rt.(pan), rt.(mask))) l.

(** The voices of the queue entries that are due at [tick], in queue
    order. *)
Definition dueVoices (tick : Z) (l : list noteOff) : list Z :=
  map voice (filter (fun n => negb n.(fired) && (n.(sequencer.tick) <=? tick)) l).

(** The note-ons and note-offs the engine of a sequencer has received,
    first to last. *)
Definition callsOf {E : Type} (s : Sequencer (traced.t E)) : list traced.call :=
  traced.calls s.(engine).

(** In a list of engine calls, every note-off comes before every
    note-on. *)
Definition noteOffsFirst (cs : list traced.call) : Prop :=
  forall (i j : nat) (a b : traced.call),
    cs !! i = Some a -> cs !! j = Some b ->
    traced.isNoteOn a = true -> traced.isNoteOff b = true -> (j < i)%nat.

(** In a list of engine calls, every note-on comes before every one of
    the last [k] calls. *)
Definition noteOnsBeforeLast (k : nat) (cs : list traced.call) : Prop :=
  forall (i : nat) (a : traced.call),
    cs !! i = Some a -> traced.isNoteOn a = true -> (i + k < length cs)%nat.

Section Frames.
Context {E : Type} `{!VoiceEngine E} `{!GoMath}.





(** The fields of the sequencer that carry the end of playback. *)
Definition lifecycle (s : Sequencer E)
  : bool * Z * bool * list EventKind * bool * bool * bool * bool :=
  (s.(playbackEndedFired), s.(releaseTailFrames), s.(onEvent), s.(onEventCalls),
   s.(loopWholeScore), s.(loopPending), s.(pendingReset), s.(commandExhausted)).

(** The number of [PlaybackEnded] events delivered so far. *)
Definition endedCount (s : Sequencer E) : nat :=
  length (filter (fun k => k = EventPlaybackEnded) s.(onEventCalls)).


(** The state of a playback without whole-score looping: no reset or
    loop is pending, and once the commands are exhausted every cursor
    is at its end and the note-off queue is empty. *)
Definition settled (s : Sequencer E) : Prop :=
  s.(loopWholeScore) = false /\ s.(pendingReset) = false /\ s.(loopPending) = false
  /\ (s.(commandExhausted) = true -> scoreExhausted s = true /\ s.(noteOffs) = []).


End Frames.

(** The state of the sequencer after the ticks [0 .. n-1] of a score have
    been dispatched, on an engine that keeps the order of its calls. *)
Definition afterTicks (src : string) (n : nat)
  : outcome (Sequencer (traced.t countingEngine.t)) :=
  let _ := linearMath in
  score ← mml.Parse mml.DefaultParserConfig src;
  tickLoop n 64 (New score (traced.mk countingEngine.new []) 48000).

(** The calls an engine has received after [frames] frames of a score at
    48 kHz, and the sequencer left. *)
Definition play (src : string) (frames : nat)
  : outcome (Sequencer (traced.t countingEngine.t)) :=
  let _ := linearMath in
  score ← mml.Parse mml.DefaultParserConfig src;
  '(s, _) ← Process 64 (New score (traced.mk countingEngine.new []) 48000) frames;
  Ok s.

End observe.

(** ** [MultiEngine]: routing by module (multi_engine.go) *)

Module multi.

(** [encodeVoiceID] and [decodeVoiceID]. *)
Definition encodeVoiceID (module localID : Z) : Z :=
  Z.lor (GoInt.shl module 16) (Z.land localID 65535).

Definition decodeVoiceID (id : Z) : Z * Z :=
  (Z.land (GoInt.shr id 16) 255, Z.land id 65535).

Section MultiEngine.
Context {E : Type} `{!VoiceEngine E}.

(** The engines are pointers: [heap] holds the engines themselves,
    [engines] the pointer registered for each module, so that an engine
    registered under two modules is one engine.  A pointer without an
    engine behind it stands for a [nil] engine. *)
Record t : Type := mk {
  heap : list E;
  engines : gmap Z nat;
  defaultMod : Z;
  currentMod : Z;
  sampleRate : Z
}.

Definition NewMultiEngine (defaultMod sampleRate : Z) : t :=
  mk [] ∅ defaultMod defaultMod sampleRate.

Definition AddEngine (m : t) (module : Z) (engine : nat) : t :=
  mk m.(heap) (<[module := engine]> m.(engines)) m.(defaultMod) m.(currentMod)
    m.(sampleRate).

Definition SetCurrentModule (m : t) (module : Z) : t :=
  mk m.(heap) m.(engines) m.(defaultMod) module m.(sampleRate).

(** [MultiEngine.engine]: the engine of the module, else the one of the
    default module, else any registered engine (Go takes the first one
    its map iteration yields, here the first of [map_to_list]). *)
Definition engine (m : t) (module : Z) : option nat :=
  match m.(engines) !! module with
  | Some e => Some e
  | None =>
      match m.(engines) !! m.(defaultMod) with
      | Some e => Some e
      | None => snd <$> head (map_to_list m.(engines))
      end
  end.

Definition currentEngine (m : t) : option nat := engine m m.(currentMod).

(** A call of a method on the engine behind a pointer. *)
Definition update (m : t) (p : nat) (e : E) : t :=
  mk (<[p := e]> m.(heap)) m.(engines) m.(defaultMod) m.(currentMod) m.(sampleRate).

Definition NoteOn (m : t) (note velocity pan program : Z) : t * Z :=
  let module := Z.land (GoInt.shr program 8) 255 in
  let module := if module =? 0 then m.(currentMod) else module in
  match engine m module with
  | None => (m, -1)
  | Some p =>
      match m.(heap) !! p with
      | None => (m, -1)
      | Some e =>
          let '(e, localID) := NoteOn e note velocity pan program in
          (update m p e, encodeVoiceID module localID)
      end
  end.

Definition NoteOff (m : t) (id : Z) : t :=
  let '(module, localID) := decodeVoiceID id in
  match engine m module with
  | None => m
  | Some p =>
      match m.(heap) !! p with
      | None => m
      | Some e => update m p (NoteOff e localID)
      end
  end.

(** The control calls, which go to the engine of the current module. *)
Definition onCurrent (f : E -> E) (m : t) : t :=
  match currentEngine m with
  | None => m
  | Some p =>
      match m.(heap) !! p with
      | None => m
      | Some e => update m p (f e)
      end
  end.

Definition SetFilterType (m : t) (filterType : Z) : t :=
  onCurrent (fun e => SetFilterType e filterType) m.

Definition SetNoteOnPhase (m : t) (phase : Z) : t :=
  onCurrent (fun e => SetNoteOnPhase e phase) m.

Definition SetPortamento (m : t) (fromNote frames : Z) : t :=
  onCurrent (fun e => SetPortamento e fromNote frames) m.

End MultiEngine.

Arguments t E : clear implicits.

End multi.

(** ** Notions used to state further properties *)

Module props.

Import sequencer.

(** A note-off queue in the order of its ticks. *)
Definition ordered (l : list noteOff) : Prop :=
  forall (i j : nat) (a b : noteOff),
    (i <= j)%nat -> l !! i = Some a -> l !! j = Some b -> a.(tick) <= b.(tick).

(** A queue entry that waits for a tick after [T]. *)
Definition pending (T : Z) (n : noteOff) : Prop :=
  n.(fired) = false /\ T < n.(tick).

(** A cursor of a track with an internal loop: it has a loop point and
    ticks after it. *)
Definition loops (tc : trackCursor) : bool :=
  (tc.(loopIndex) >=? 0) && (tc.(endTick) >? tc.(loopTick)).

(** What a cursor keeps for its whole life. *)
Definition trackOf (tc : trackCursor) : list mml.Event * Z * Z * Z :=
  (tc.(events), tc.(loopIndex), tc.(loopTick), tc.(endTick)).

(** A text without the byte [c]. *)
Definition free (c : ascii) (s : string) : Prop :=
  forall i : nat, GoStr.byteAt s i <> c.


(** A key signature: an entry for each of the seven note letters and
    for nothing else, each a flat, a natural or a sharp. *)
Definition wellKeyed (m : gmap ascii Z) : Prop :=
  forall c : ascii,
    (is_Some (m !! c) <-> mml.isNote c = true)
    /\ forall v, m !! c = Some v -> -1 <= v <= 1.

Section Sequencer.
Context {E : Type}.

(** What the sequencer was built from. *)
Definition settings (s : Sequencer E)
  : mml.Score * Z * float * gmap Z tableData * gmap Z patchMod * Z * bool :=
  (s.(score), s.(sampleRate), s.(initialTicksPerSamp), s.(tableDefs), s.(patchMods),
   s.(masterTranspose), s.(onTrigger)).

(** Where playback stands: the cursors and the tick counters. *)
Definition position (s : Sequencer E) : list trackCursor * Z * float :=
  (s.(trackState), s.(tickInt), s.(tickFrac)).

(** The parts of the sequencer that applying an event never changes
    (with [observe.lifecycle]). *)
Definition fixed (s : Sequencer E) :=
  (settings s, position s, s.(loopTailCountdown)).

(** A playback that cannot end because a track loops: nothing is
    pending, nothing has ended, and the listener has heard nothing. *)
Definition endless (s : Sequencer E) : Prop :=
  existsb loops s.(trackState) = true
  /\ s.(loopPending) = false /\ s.(pendingReset) = false
  /\ s.(commandExhausted) = false /\ s.(playbackEndedFired) = false
  /\ s.(onEventCalls) = [].

(** A playback that restarts the score instead of ending. *)
Definition restarting (s : Sequencer E) : Prop :=
  s.(loopWholeScore) = true /\ s.(commandExhausted) = false
  /\ s.(playbackEndedFired) = false /\ observe.endedCount s = 0%nat.

End Sequencer.

End props.

(** * Properties *)

(** ** Arithmetic of [int] within range *)

Section IntFacts.

Lemma wrap_small (z : Z) : GoInt.inRange z -> GoInt.wrap z = z.
Proof.
  unfold GoInt.inRange, GoInt.minInt, GoInt.maxInt, GoInt.wrap. intros Hz.
  rewrite Z.mod_small; lia.
Qed.

Lemma add_small (a b : Z) : GoInt.inRange (a + b) -> a ⊞ b = a + b.
Proof. apply wrap_small. Qed.

Lemma sub_small (a b : Z) : GoInt.inRange (a - b) -> a ⊟ b = a - b.
Proof. apply wrap_small. Qed.

Lemma mul_small (a b : Z) : GoInt.inRange (a * b) -> a ⊠ b = a * b.
Proof. apply wrap_small. Qed.

Lemma div_small (a b : Z) : 0 <= a <= GoInt.maxInt -> 0 < b -> a ⊘ b = a / b.
Proof.
  intros Ha Hb. unfold GoInt.div. rewrite Z.quot_div_nonneg by lia.
  apply wrap_small. unfold GoInt.inRange, GoInt.minInt, GoInt.maxInt in *.
  assert (0 <= a / b) by (apply Z.div_pos; lia).
  assert (a / b <= a) by (apply Z.div_le_upper_bound; nia).
  lia.
Qed.

Lemma clampInt_spec (v lo hi : Z) :
  lo <= hi -> clampInt v lo hi = Z.max lo (Z.min hi v).
Proof. unfold clampInt. intros. repeat case_match; lia. Qed.

Lemma clampInt_range (v lo hi : Z) : lo <= hi -> lo <= clampInt v lo hi <= hi.
Proof. unfold clampInt. intros. repeat case_match; lia. Qed.

End IntFacts.

(** Turns the wrapped operations of the goal into plain ones, leaving the
    range conditions to [lia]. *)
Ltac unwrap :=
  repeat first
    [ rewrite add_small by (unfold GoInt.inRange, GoInt.minInt, GoInt.maxInt in *; lia)
    | rewrite sub_small by (unfold GoInt.inRange, GoInt.minInt, GoInt.maxInt in *; lia)
    | rewrite mul_small by (unfold GoInt.inRange, GoInt.minInt, GoInt.maxInt in *; lia) ].

(** Inversion of a successful monadic step. *)
Lemma bind_Ok {A B} (m : outcome A) (f : A -> outcome B) (b : B) :
  m ≫= f = Ok b -> exists a, m = Ok a /\ f a = Ok b.
Proof. destruct m; simpl; intros H; try discriminate. eauto. Qed.

Ltac inv_bind H :=
  let a := fresh "a" in
  let Ha := fresh "Ha" in
  apply bind_Ok in H; destruct H as (a & Ha & H).

(** ** C4: the gate of a note under the default quantization *)

Section Gate.
Context {GM : GoMath}.
Import mml.






End Gate.



(** ** C7: static and dynamic macro expansion *)

Section Macros.
Import mml.

(** The source of the example; the mode is the preprocessor's default
    (static) or is set by a leading [#MACRO{...};]. *)
Let example : string := "#A=cde;#B=Afg; B; #A=gfe; B;".

(** The track sources the preprocessed text splits into, one space
    between them. *)
Let stream (src : string) : string :=
  String.concat " " (splitSectionsAsTracks (preprocessInput src).(text)).

(** C7: in static mode the two invocations of [B] in
    [#A=cde;#B=Afg; B; #A=gfe; B;] both expand to [cdefg], the reference
    to [A] having been resolved when [B] was defined; in dynamic mode the
    second one expands to [gfefg], [A] being looked up at the invocation.
    The preprocessed text keeps the blanks and the semicolons of the
    source around the expansions. *)
Theorem macro_static_dynamic :
  stream example = "cdefg cdefg"
  /\ stream ("#MACRO{static};" +:+ example) = "cdefg cdefg"
  /\ stream ("#MACRO{dynamic};" +:+ example) = "cdefg gfefg"
  /\ (preprocessInput ("#MACRO{static};" +:+ example)).(text) = " cdefg;  cdefg;"
  /\ (preprocessInput ("#MACRO{dynamic};" +:+ example)).(text) = " cdefg;  gfefg;"
  /\ fst (preprocessStream example (mkPre ∅ ∅ false false false)) = " cdefg;  cdefg;"
  /\ fst (preprocessStream example (mkPre ∅ ∅ true false false)) = " cdefg;  gfefg;".
Proof. repeat split; vm_compute; reflexivity. Qed.

End Macros.

(** ** C2: sampling a table envelope *)

Section Tables.
Import sequencer.

Lemma indexZ_nth (l : list Z) (i : Z) :
  0 <= i < Z.of_nat (length l) -> indexZ l i = Ok (nth (Z.to_nat i) l 0).
Proof.
  intros Hi. unfold indexZ.
  destruct (i <? 0) eqn:Hneg; [lia|].
  destruct (l !! Z.to_nat i) as [v|] eqn:Hl.
  - rewrite nth_lookup, Hl. reflexivity.
  - apply lookup_ge_None in Hl. lia.
Qed.

(** C2 (amended): for a table of [len > 0] values sampled at an index
    [idx >= 0]: below [len] the sample is [table[idx]]; from [len] on,
    with a loop point [0 <= loop_start < len] it is
    [table[loop_start + (idx - loop_start) mod (len - loop_start)]], with
    no loop point ([loop_start < 0], which the parser writes as -1) the
    table repeats from its first entry, [table[idx mod len]], and only a
    loop point at the end of the table ([loop_start >= len]) holds the
    last value [table[len - 1]]. *)
Theorem table_value_cases (td : tableData) (idx : Z) :
  let len := Z.of_nat (length td.(values)) in
  let table (k : Z) := nth (Z.to_nat k) td.(values) 0 in
  0 < len <= GoInt.maxInt -> 0 <= idx <= GoInt.maxInt -> GoInt.inRange td.(loopStart) ->
  (idx < len -> tableValue td idx = Ok (table idx))
  /\ (len <= idx -> 0 <= td.(loopStart) < len ->
      tableValue td idx
      = Ok (table (td.(loopStart) + (idx - td.(loopStart)) mod (len - td.(loopStart)))))
  /\ (len <= idx -> td.(loopStart) < 0 -> tableValue td idx = Ok (table (idx mod len)))
  /\ (len <= idx -> len <= td.(loopStart) -> tableValue td idx = Ok (table (len - 1))).
Proof.
  intros len table Hlen Hidx Hls.
  unfold GoInt.inRange, GoInt.minInt, GoInt.maxInt in *.
  repeat split.
  - intros Hlt. unfold tableValue. fold len.
    destruct (idx <? len) eqn:E; [|lia]. apply indexZ_nth. lia.
  - intros Hge Hloop. unfold tableValue. fold len.
    destruct (idx <? len) eqn:E; [lia|].
    destruct (td.(loopStart) <? 0) eqn:E0; [lia|].
    cbv beta iota zeta.
    unwrap. destruct (len - td.(loopStart) <=? 0) eqn:E1; [lia|].
    unfold GoInt.rem. rewrite Z.rem_mod_nonneg by lia.
    pose proof (Z.mod_pos_bound (idx - td.(loopStart)) (len - td.(loopStart))).
    unwrap. apply indexZ_nth. lia.
  - intros Hge Hneg. unfold tableValue. fold len.
    destruct (idx <? len) eqn:E; [lia|].
    destruct (td.(loopStart) <? 0) eqn:E0; [|lia].
    cbv beta iota zeta.
    unwrap. rewrite !Z.sub_0_r. destruct (len <=? 0) eqn:E1; [lia|].
    unfold GoInt.rem. rewrite Z.rem_mod_nonneg by lia.
    pose proof (Z.mod_pos_bound idx len).
    unwrap. rewrite Z.add_0_l. apply indexZ_nth. lia.
  - intros Hge Hend. unfold tableValue. fold len.
    destruct (idx <? len) eqn:E; [lia|].
    destruct (td.(loopStart) <? 0) eqn:E0; [lia|].
    cbv beta iota zeta.
    unwrap. destruct (len - td.(loopStart) <=? 0) eqn:E1; [|lia].
    apply indexZ_nth. lia.
Qed.

End Tables.

(** C2, witness: the table [1,2|3,4] of the tests, with its loop point at
    index 2, sampled at index 5. *)
Lemma table_value_cases_witness :
  sequencer.tableValue (sequencer.mkTable [1; 2; 3; 4] 2) 5 = Ok 4.
Proof.
  pose proof (table_value_cases (sequencer.mkTable [1; 2; 3; 4] 2) 5) as H.
  cbv zeta in H. simpl length in H.
  unfold GoInt.inRange, GoInt.minInt, GoInt.maxInt in H. simpl sequencer.loopStart in H.
  destruct H as (_ & H & _); [lia | lia | lia |].
  apply H; lia.
Defined.

(** C2, counterexample: the table of [#TABLE0{16,32,48}] has no loop
    point; at index 3 its sample is the first value 16, not the last value
    48.  Played as a pitch table over four quarter notes, the fourth note
    is raised by 16/16 = 1 semitone like the first, not by 3 like the
    third. *)
Lemma table_hold_last_counterexample :
  exists td,
    sequencer.parseTableDefinitions {[ "TABLE0" := "TABLE0{16,32,48}" ]} !! 0 = Some td
    /\ td.(sequencer.values) = [16; 32; 48] /\ td.(sequencer.loopStart) = -1
    /\ sequencer.tableValue td 3 = Ok 16
    /\ sequencer.tableValue td 3 <> Ok (nth 2 td.(sequencer.values) 0)
    /\ (traced.calls ∘ sequencer.engine) <$> observe.afterTicks "#TABLE0{16,32,48}; nt0 l4 cccc" 1441
       = Ok [traced.CallNoteOn 61 126 0 2147483648; traced.CallNoteOff 0;
             traced.CallNoteOn 62 126 0 2147483648; traced.CallNoteOff 1;
             traced.CallNoteOn 63 126 0 2147483648; traced.CallNoteOff 2;
             traced.CallNoteOn 61 126 0 2147483648].
Proof.
  eexists. split; [vm_compute; reflexivity|].
  repeat split; try (vm_compute; reflexivity).
  vm_compute. discriminate.
Qed.

(** ** Facts on byte strings *)

Section StringFacts.
Import GoStr.

Lemma sliceFrom_cons (s : string) (i : nat) :
  (i < len s)%nat -> sliceFrom s i = String (byteAt s i) (sliceFrom s (S i)).
Proof.
  unfold sliceFrom, byteAt, len. revert i.
  induction s as [|c s IH]; intros i Hi; simpl in Hi; [lia|].
  destruct i as [|i].
  - simpl. rewrite Nat.sub_0_r. reflexivity.
  - simpl. rewrite IH by lia. reflexivity.
Qed.

Lemma sliceFrom_ge (s : string) (i : nat) : (len s <= i)%nat -> sliceFrom s i = "".
Proof.
  unfold sliceFrom, len. intros Hi. replace (String.length s - i)%nat with 0%nat by lia.
  revert i Hi. induction s as [|c s IH]; intros i Hi.
  - destruct i; reflexivity.
  - destruct i as [|i]; simpl in Hi; [lia|]. simpl. apply IH. lia.
Qed.

Lemma byteAt_ge (s : string) (i : nat) : (len s <= i)%nat -> byteAt s i = zero.
Proof.
  unfold byteAt, len. revert i. induction s as [|c s IH]; intros i Hi.
  - reflexivity.
  - destruct i as [|i]; simpl in Hi; [lia|]. simpl. apply IH. lia.
Qed.

Lemma slice_two (s : string) (i : nat) :
  (S i < len s)%nat -> slice s i (i + 2) = String (byteAt s i) (String (byteAt s (S i)) "").
Proof.
  unfold slice, byteAt, len. replace (i + 2 - i)%nat with 2%nat by lia. revert i.
  induction s as [|c s IH]; intros i Hi; simpl in Hi; [lia|].
  destruct i as [|i].
  - destruct s as [|d s]; simpl in Hi; [lia|]. destruct s; reflexivity.
  - simpl. apply IH. lia.
Qed.

Lemma guillemet_false (s : string) (i : nat) (g : string) :
  g = mml.guillemetL \/ g = mml.guillemetR ->
  mml.lower (byteAt s i) <> ascii_of_nat 194 -> HasPrefix (sliceFrom s i) g = false.
Proof.
  intros Hg Hc. destruct (Nat.lt_ge_cases i (len s)) as [Hi | Hi].
  - rewrite sliceFrom_cons by assumption. unfold HasPrefix.
    destruct Hg as [-> | ->]; unfold mml.guillemetL, mml.guillemetR; cbn [String.prefix];
      (destruct (ascii_dec (ascii_of_nat 194) (byteAt s i)) as [E | E]; [|reflexivity]);
      exfalso; apply Hc; rewrite <- E; reflexivity.
  - rewrite sliceFrom_ge by assumption. destruct Hg as [-> | ->]; reflexivity.
Qed.

Lemma byteAt_lt (s : string) (i : nat) : byteAt s i <> zero -> (i < len s)%nat.
Proof.
  intros Hc. destruct (Nat.lt_ge_cases i (len s)) as [Hi | Hi]; [assumption|].
  exfalso. apply Hc. apply byteAt_ge. assumption.
Qed.

Lemma startsWithWord_at_p (s : string) (i : nat) :
  byteAt s i = "@"%char -> mml.lower (byteAt s (S i)) = "p"%char ->
  mml.startsWithWord s i "@p" = true.
Proof.
  intros H0 H1.
  assert (Hlt : (S i < len s)%nat).
  { apply byteAt_lt. intros E. rewrite E in H1. discriminate. }
  unfold mml.startsWithWord. change (len "@p") with 2%nat.
  destruct (len s <? i + 2)%nat eqn:E; [apply Nat.ltb_lt in E; lia|].
  rewrite slice_two by assumption. cbn [mapB]. rewrite H0, H1. reflexivity.
Qed.
End StringFacts.

(** ** One round of the parser on a command with a numeric argument *)

Section Steps.
Context {GM : GoMath}.
Import GoStr mml.

Ltac reduce_bool c :=
  let v := eval vm_compute in c in
  lazymatch v with
  | true => change c with true
  | false => change c with false
  end.

Ltac decide_heads :=
  repeat first
    [ match goal with |- context [Ascii.eqb ?a ?b] => reduce_bool (Ascii.eqb a b) end
    | match goal with |- context [isSpace ?a] => reduce_bool (isSpace a) end
    | match goal with |- context [isNote ?a] => reduce_bool (isNote a) end ];
  cbn [andb orb negb]; cbv iota.

Ltac enter_case expanded a Hch :=
  decide_heads;
  rewrite ?(guillemet_false expanded (pos a))
    by (first [left; reflexivity | right; reflexivity | rewrite Hch; discriminate]);
  decide_heads.

(** What one round of [parseTrack] does on each of the commands with a
    numeric argument, once the argument has been read. *)

Lemma step_octave_shift (cfg : ParserConfig.t) (opts : parserOptions) (expanded : string)
  (a : trackAcc) (c : ascii) (val : Z) (next : nat) :
  c = "<"%char \/ c = ">"%char ->
  lower (byteAt expanded a.(pos)) = c ->
  parseNumberDefault expanded (S a.(pos)) 1 = Ok (val, next) ->
  parseTrackStep cfg opts expanded a
  = Ok (mkAcc next
          (set_octave
             (clampInt
                (if Ascii.eqb c "<"
                 then a.(pst).(octave) ⊞ val ⊠ cfg.(ParserConfig.OctavePolarize)
                 else a.(pst).(octave) ⊟ val ⊠ cfg.(ParserConfig.OctavePolarize))
                cfg.(ParserConfig.MinOctave) cfg.(ParserConfig.MaxOctave)) a.(pst))
          a.(evs) a.(lTick) a.(lIndex)).
Proof.
  intros Hc Hch Hnum. unfold parseTrackStep. cbv zeta. rewrite Hch.
  destruct Hc as [-> | ->]; enter_case expanded a Hch;
    rewrite Hnum; simpl; rewrite app_nil_r; reflexivity.
Qed.






Lemma step_pan (cfg : ParserConfig.t) (opts : parserOptions) (expanded : string)
  (a : trackAcc) (val : Z) (next : nat) :
  lower (byteAt expanded a.(pos)) = "p"%char ->
  lower (byteAt expanded (S a.(pos))) <> "o"%char ->
  parseSignedNumberDefault expanded (S a.(pos)) a.(pst).(pan) = Ok (val, next) ->
  parseTrackStep cfg opts expanded a
  = Ok (mkAcc next (set_pan (normalizePanValue val) a.(pst))
          (a.(evs) ++ [simple EventPan a.(pst) (normalizePanValue val)])
          a.(lTick) a.(lIndex)).
Proof.
  intros Hch Hno Hnum. unfold parseTrackStep. cbv zeta. rewrite Hch.
  enter_case expanded a Hch.
  destruct (Ascii.eqb (lower (byteAt expanded (S (pos a)))) "o") eqn:E;
    [apply Ascii.eqb_eq in E; contradiction|].
  rewrite andb_false_r. rewrite Hnum. reflexivity.
Qed.

Lemma step_at_pan (cfg : ParserConfig.t) (opts : parserOptions) (expanded : string)
  (a : trackAcc) (val : Z) (next : nat) :
  byteAt expanded a.(pos) = "@"%char ->
  lower (byteAt expanded (S a.(pos))) = "p"%char ->
  parseSignedNumberDefault expanded (a.(pos) + 2) a.(pst).(pan) = Ok (val, next) ->
  parseTrackStep cfg opts expanded a
  = Ok (mkAcc next (set_pan (normalizePanValue val) a.(pst))
          (a.(evs) ++ [simple EventPan a.(pst) (normalizePanValue val)])
          a.(lTick) a.(lIndex)).
Proof.
  intros H0 H1 Hnum.
  assert (Hch : lower (byteAt expanded (pos a)) = "@"%char) by (rewrite H0; reflexivity).
  unfold parseTrackStep. cbv zeta. rewrite Hch.
  enter_case expanded a Hch.
  unfold stepAt. cbv zeta. rewrite H1. decide_heads.
  rewrite !andb_false_r. rewrite startsWithWord_at_p by assumption.
  rewrite Hnum. reflexivity.
Qed.

(** C3 (amended): under the default parser configuration (octave
    polarize -1) the [<] command lowers the octave cursor by N and the
    [>] command raises it by N, the result being clamped to [0, 9]. *)
Theorem octave_shift_direction (opts : parserOptions) (expanded : string) (a : trackAcc)
  (c : ascii) (N : Z) (next : nat) :
  c = "<"%char \/ c = ">"%char ->
  lower (byteAt expanded a.(pos)) = c ->
  parseNumberDefault expanded (S a.(pos)) 1 = Ok (N, next) ->
  0 <= a.(pst).(octave) <= 9 -> 0 <= N <= GoInt.maxInt - 9 ->
  parseTrackStep DefaultParserConfig opts expanded a
  = Ok (mkAcc next
          (set_octave (if Ascii.eqb c "<" then Z.max 0 (a.(pst).(octave) - N)
                       else Z.min 9 (a.(pst).(octave) + N)) a.(pst))
          a.(evs) a.(lTick) a.(lIndex)).
Proof.
  intros Hc Hch Hnum Ho HN.
  rewrite (step_octave_shift _ _ _ _ c N next Hc Hch Hnum).
  do 3 f_equal. cbn [ParserConfig.OctavePolarize ParserConfig.MinOctave
                       ParserConfig.MaxOctave DefaultParserConfig].
  unfold GoInt.maxInt in HN.
  destruct Hc as [-> | ->]; cbn [Ascii.eqb Bool.eqb]; cbv iota;
    unwrap; rewrite clampInt_spec by lia; lia.
Qed.




(** C10: a [p] or [@p] command stores (and emits in its Pan event)
    [(v - 4) * 16] for an argument [v] in 0..8, so that p0 = -64, p4 = 0,
    p8 = 64, and any other argument clamped into [-64, 64]. *)
Theorem pan_argument_normalized (cfg : ParserConfig.t) (opts : parserOptions)
  (expanded : string) (a : trackAcc) (v : Z) (next : nat) :
  (lower (byteAt expanded a.(pos)) = "p"%char
   /\ lower (byteAt expanded (S a.(pos))) <> "o"%char
   /\ parseSignedNumberDefault expanded (S a.(pos)) a.(pst).(pan) = Ok (v, next))
  \/ (byteAt expanded a.(pos) = "@"%char
      /\ lower (byteAt expanded (S a.(pos))) = "p"%char
      /\ parseSignedNumberDefault expanded (a.(pos) + 2) a.(pst).(pan) = Ok (v, next)) ->
  let stored := if (0 <=? v) && (v <=? 8) then (v - 4) * 16 else Z.max (-64) (Z.min 64 v) in
  exists a',
    parseTrackStep cfg opts expanded a = Ok a'
    /\ a'.(pst).(pan) = stored
    /\ a'.(evs) = (a.(evs) ++ [simple EventPan a.(pst) stored])%list
    /\ -64 <= stored <= 64.
Proof.
  intros Hcmd stored.
  assert (Hn : normalizePanValue v = stored).
  { unfold normalizePanValue, stored.
    replace (v >=? 0) with (0 <=? v) by (rewrite Z.geb_leb; reflexivity).
    destruct ((0 <=? v) && (v <=? 8)) eqn:E.
    - apply andb_true_iff in E. destruct E as [E1 E2]. unwrap. reflexivity.
    - repeat case_match; lia. }
  assert (Hr : -64 <= stored <= 64).
  { unfold stored. destruct ((0 <=? v) && (v <=? 8)) eqn:E; [|lia].
    apply andb_true_iff in E. lia. }
  destruct Hcmd as [(Hch & Hno & Hnum) | (H0 & H1 & Hnum)].
  - rewrite (step_pan _ _ _ _ v next Hch Hno Hnum), Hn.
    eexists. split; [reflexivity|]. repeat split; solve [reflexivity | lia].
  - rewrite (step_at_pan _ _ _ _ v next H0 H1 Hnum), Hn.
    eexists. split; [reflexivity|]. repeat split; solve [reflexivity | lia].
Qed.

End Steps.

(** [observe.startState] is the state [newState] returns for the default
    configuration. *)
Lemma newState_default :
  mml.newState mml.DefaultParserConfig observe.defaultOptions ∅ = Ok observe.startState.
Proof. vm_compute. reflexivity. Qed.

(** C3, witness: [>2] read in the start state (octave 5) leaves octave 7. *)
Lemma octave_shift_direction_witness :
  @mml.parseTrackStep linearMath mml.DefaultParserConfig observe.defaultOptions ">2"
    observe.startAcc
  = Ok (mml.mkAcc 2 (mml.set_octave 7 observe.startState) [] (-1) (-1)).
Proof.
  apply (@octave_shift_direction linearMath observe.defaultOptions ">2" observe.startAcc
           ">"%char 2 2%nat).
  - right. reflexivity.
  - reflexivity.
  - vm_compute. reflexivity.
  - simpl. lia.
  - unfold GoInt.maxInt. lia.
Defined.

(** C3, counterexample: after [o5], [<] takes the next note down to octave
    4 (note 48) and [>] takes it up to octave 6 (note 72): with polarize -1
    [<] lowers and [>] raises. *)
Lemma octave_shift_counterexample :
  observe.parsedNotes "o5 c <c" = Ok [[60; 48]]
  /\ observe.parsedNotes "o5 c >c" = Ok [[60; 72]]
  /\ @mml.parseTrackStep linearMath mml.DefaultParserConfig observe.defaultOptions "<"
       observe.startAcc
     = Ok (mml.mkAcc 1 (mml.set_octave 4 observe.startState) [] (-1) (-1))
  /\ mml.octave (mml.set_octave 4 observe.startState) < mml.octave observe.startState.
Proof. repeat split; vm_compute; reflexivity. Qed.



(** C10, witness: [p8] stores and emits the pan 64. *)
Lemma pan_argument_normalized_witness :
  exists a',
    @mml.parseTrackStep linearMath mml.DefaultParserConfig observe.defaultOptions "p8"
      observe.startAcc = Ok a'
    /\ a'.(mml.pst).(mml.pan) = 64
    /\ a'.(mml.evs) = [mml.simple mml.EventPan observe.startState 64]
    /\ -64 <= 64 <= 64.
Proof.
  apply (@pan_argument_normalized linearMath mml.DefaultParserConfig observe.defaultOptions
           "p8" observe.startAcc 8 2%nat).
  left. split; [reflexivity|]. split; [discriminate|]. vm_compute. reflexivity.
Defined.

(** ** What the dispatch of events leaves untouched *)

Section Frames.
Context {E : Type} {VE : VoiceEngine E} {GM : GoMath}.
Import sequencer observe.

Implicit Types (s : Sequencer E) (rt : runtimeState) (ev : mml.Event).

Lemma lifecycle_set_engine e s : lifecycle (set_engine e s) = lifecycle s.
Proof. reflexivity. Qed.
Lemma lifecycle_set_noteOffs l s : lifecycle (set_noteOffs l s) = lifecycle s.
Proof. reflexivity. Qed.
Lemma lifecycle_set_ticksPerSamp f s : lifecycle (set_ticksPerSamp f s) = lifecycle s.
Proof. reflexivity. Qed.
Lemma lifecycle_set_onTriggerCalls l s : lifecycle (set_onTriggerCalls l s) = lifecycle s.
Proof. reflexivity. Qed.
Lemma lifecycle_set_trackRuntime l s : lifecycle (set_trackRuntime l s) = lifecycle s.
Proof. reflexivity. Qed.
Lemma lifecycle_set_trackState l s : lifecycle (set_trackState l s) = lifecycle s.
Proof. reflexivity. Qed.
Lemma lifecycle_set_tickInt z s : lifecycle (set_tickInt z s) = lifecycle s.
Proof. reflexivity. Qed.
Lemma lifecycle_set_tickFrac f s : lifecycle (set_tickFrac f s) = lifecycle s.
Proof. reflexivity. Qed.

Lemma lifecycle_updateEngineLFO s rt : lifecycle (updateEngineLFO s rt) = lifecycle s.
Proof. reflexivity. Qed.

Lemma lifecycle_applyControl s rt ev : lifecycle (applyControl s rt ev).1 = lifecycle s.
Proof. unfold applyControl. repeat case_match; reflexivity. Qed.

Lemma lifecycle_applyTempo s tc ev : lifecycle (applyTempo s tc ev) = lifecycle s.
Proof. unfold applyTempo. case_match; reflexivity. Qed.

Lemma lifecycle_applyProgram s rt ev s' rt' :
  applyProgram s rt ev = Ok (s', rt') -> lifecycle s' = lifecycle s.
Proof.
  unfold applyProgram. case_match.
  - intros Hrun. repeat inv_bind Hrun. injection Hrun as <- <-. reflexivity.
  - intros Hrun. injection Hrun as <- <-. reflexivity.
Qed.

Lemma lifecycle_applyNote s rt ev t s' rt' :
  applyNote s rt ev t = Ok (s', rt') -> lifecycle s' = lifecycle s.
Proof.
  unfold applyNote.
  match goal with |- context [if ?c then ?x else s] => set (s1 := if c then x else s) end.
  assert (H1 : lifecycle s1 = lifecycle s) by (unfold s1; case_match; reflexivity).
  clearbody s1. intros Hrun. cbv zeta in Hrun.
  repeat inv_bind Hrun. destruct a1 as [rt1 vel].
  destruct (NoteOn _ _ _ _ _) as [e voiceID] eqn:En in Hrun.
  injection Hrun as <- <-. rewrite <- H1. reflexivity.
Qed.

Lemma lifecycle_applyEventSwitch s rt tc ev t s' rt' :
  applyEventSwitch s rt tc ev t = Ok (s', rt') -> lifecycle s' = lifecycle s.
Proof.
  unfold applyEventSwitch. intros Hrun.
  destruct (mml.Type_ ev); repeat case_match;
    try (injection Hrun as <- <-; first [reflexivity | apply lifecycle_applyTempo]).
  - eapply lifecycle_applyNote; eassumption.
  - eapply lifecycle_applyProgram; eassumption.
  - rewrite <- (lifecycle_applyControl s rt ev).
    injection Hrun as Hrun. rewrite Hrun. reflexivity.
Qed.

Lemma lifecycle_applyEvent s i tc ev t s' :
  applyEvent s i tc ev t = Ok s' -> lifecycle s' = lifecycle s.
Proof.
  unfold applyEvent. case_match; [|discriminate]. intros Hrun.
  inv_bind Hrun. destruct a as [s2 rt2]. injection Hrun as <-.
  apply lifecycle_applyEventSwitch in Ha. rewrite lifecycle_set_trackRuntime, Ha.
  unfold hinted. case_match; reflexivity.
Qed.

Lemma lifecycle_dispatchTrack fuel s i t s' :
  dispatchTrack fuel s i t = Ok s' -> lifecycle s' = lifecycle s.
Proof.
  revert s. induction fuel as [|fuel IH]; intros s Hrun; [discriminate|].
  cbn [dispatchTrack] in Hrun. repeat case_match; try (injection Hrun as <-; reflexivity).
  inv_bind Hrun. apply IH in Hrun. rewrite Hrun, lifecycle_set_trackState.
  eapply lifecycle_applyEvent; eassumption.
Qed.

Lemma lifecycle_dispatchTracks fuel s idxs t s' :
  dispatchTracks fuel s idxs t = Ok s' -> lifecycle s' = lifecycle s.
Proof.
  revert s. induction idxs as [|i idxs IH]; intros s Hrun; cbn [dispatchTracks] in Hrun.
  - injection Hrun as <-. reflexivity.
  - inv_bind Hrun. apply IH in Hrun. rewrite Hrun. eapply lifecycle_dispatchTrack; eassumption.
Qed.

Lemma lifecycle_fireNoteOffs s t : lifecycle (fireNoteOffs s t) = lifecycle s.
Proof. unfold fireNoteOffs. destruct (fireLoop _ _ _). reflexivity. Qed.

Lemma lifecycle_compactNoteOffs s : lifecycle (compactNoteOffs s) = lifecycle s.
Proof. unfold compactNoteOffs. case_match; reflexivity. Qed.

(** ** C6 and C9: events that are discarded *)

Lemma set_trackRuntime_id s i rt :
  s.(trackRuntime) !! i = Some rt -> set_trackRuntime (<[i := rt]> s.(trackRuntime)) s = s.
Proof. intros Hi. rewrite list_insert_id by assumption. destruct s; reflexivity. Qed.

Lemma hinted_fields s rt :
  (hinted s rt).(trackRuntime) = s.(trackRuntime)
  /\ (hinted s rt).(ticksPerSamp) = s.(ticksPerSamp)
  /\ (hinted s rt).(score) = s.(score)
  /\ (hinted s rt).(sampleRate) = s.(sampleRate)
  /\ set_engine s.(engine) (hinted s rt) = s.
Proof. unfold hinted. destruct SetCurrentModule; destruct s; repeat split. Qed.

(** C6: on a track with an internal loop, a Tempo event of the loop body
    sets the tick rate in cycle 0 and is ignored in every later cycle:
    then nothing of the sequencer changes (but for the module hint a
    routing engine receives on every event). *)
Theorem tempo_in_loop_only_first_cycle s (i : nat) tc ev (t : Z) rt :
  ev.(mml.Type_) = mml.EventTempo ->
  s.(trackRuntime) !! i = Some rt ->
  tc.(loopIndex) >= 0 -> tc.(endTick) > tc.(loopTick) ->
  ev.(mml.Tick) >= tc.(loopTick) -> 0 <= tc.(loopCycle) ->
  exists s',
    applyEvent s i tc ev t = Ok s'
    /\ (tc.(loopCycle) > 0 -> s'.(ticksPerSamp) = s.(ticksPerSamp) /\ s' = hinted s rt)
    /\ (tc.(loopCycle) = 0 ->
        s'.(ticksPerSamp)
        = ((GoFloat.ofInt ev.(mml.Value) * GoFloat.ofInt s.(score).(mml.Resolution))
           / (240 * GoFloat.ofInt s.(sampleRate)))%float).
Proof.
  intros Hty Hrt Hli Hloop Htick Hcycle.
  destruct (hinted_fields s rt) as (Hh1 & Hh2 & Hh3 & Hh4 & _).
  unfold applyEvent. rewrite Hrt.
  unfold applyEventSwitch. rewrite Hty. cbn [mbind outcome_bind].
  eexists. split; [reflexivity|]. unfold applyTempo. split.
  - intros Hc.
    destruct (loopCycle tc >? 0) eqn:E1; [|lia].
    destruct (loopIndex tc >=? 0) eqn:E2; [|lia].
    destruct (mml.Tick ev >=? loopTick tc) eqn:E3; [|lia].
    cbn [andb]. rewrite <- Hh1 in Hrt. rewrite (set_trackRuntime_id _ _ _ Hrt).
    split; [exact Hh2 | reflexivity].
  - intros Hc. rewrite Hc. cbn [Z.gtb Z.compare andb]. cbv iota.
    cbn [ticksPerSamp set_trackRuntime set_ticksPerSamp]. rewrite Hh3, Hh4. reflexivity.
Qed.

(** A pan event on a track whose mask has bit 1 set changes nothing of
    the sequencer (but for the module hint). *)
Lemma masked_pan_discarded s (i : nat) tc ev (t : Z) rt :
  ev.(mml.Type_) = mml.EventPan ->
  s.(trackRuntime) !! i = Some rt ->
  GoInt.land rt.(mask) 2 <> 0 ->
  applyEvent s i tc ev t = Ok (hinted s rt).
Proof.
  intros Hty Hrt Hmask.
  destruct (hinted_fields s rt) as (Hh1 & _).
  unfold applyEvent. rewrite Hrt.
  unfold applyEventSwitch. rewrite Hty.
  destruct (GoInt.land (mask rt) 2 =? 0) eqn:Em; [lia|].
  cbn [negb mbind outcome_bind]. rewrite <- Hh1 in Hrt.
  rewrite (set_trackRuntime_id _ _ _ Hrt). reflexivity.
Qed.

End Frames.

(** ** C6 and C9: examples *)

(** C6, witness: in [t120 $ t60 c], the Tempo event [t60] lies in the loop
    body; with the cursor in cycle 1 it leaves the tick rate as it was. *)
Lemma tempo_in_loop_only_first_cycle_witness :
  exists s,
    observe.afterTicks "t120 $ t60 c" 0 = Ok s
    /\ exists s',
      @sequencer.applyEvent _ _ linearMath s 0 (sequencer.mkCursor [] 0 1 0 1920 1)
        (mml.simple mml.EventTempo observe.startState 60) 1920 = Ok s'
      /\ (1 > 0 -> s'.(sequencer.ticksPerSamp) = s.(sequencer.ticksPerSamp)
                   /\ s' = sequencer.hinted s sequencer.initialRuntime)
      /\ (1 = 0 ->
          s'.(sequencer.ticksPerSamp)
          = ((GoFloat.ofInt 60 * GoFloat.ofInt s.(sequencer.score).(mml.Resolution))
             / (240 * GoFloat.ofInt s.(sequencer.sampleRate)))%float).
Proof.
  eexists. split; [vm_compute; reflexivity|].
  apply (@tempo_in_loop_only_first_cycle _ _ linearMath _ 0%nat
           (sequencer.mkCursor [] 0 1 0 1920 1)
           (mml.simple mml.EventTempo observe.startState 60) 1920 sequencer.initialRuntime).
  - reflexivity.
  - reflexivity.
  - simpl. lia.
  - simpl. lia.
  - simpl. lia.
  - simpl. lia.
Defined.

Section Mask.
Context {E : Type} {VE : VoiceEngine E} {GM : GoMath}.
Import sequencer.

(** On a track whose mask has bit 1 set, the pan a Note event carries
    plays no part in [applyNote]. *)
Lemma masked_note_pan_ignored (s : Sequencer E) (rt : runtimeState) (ev : mml.Event)
  (t p : Z) :
  GoInt.land rt.(mask) 2 <> 0 ->
  applyNote s rt (mml.set_Pan p ev) t = applyNote s rt ev t.
Proof.
  intros Hmask. unfold applyNote.
  destruct (GoInt.land (mask rt) 2 =? 0) eqn:Em; [lia|]. reflexivity.
Qed.

End Mask.

(** C9: a pan event that reaches a track whose mask has bit 1 set is
    discarded: [applyEvent] returns the sequencer as it was (but for the
    module hint a routing engine receives), so the runtime pan and every
    other runtime state are unchanged; and the pan a Note event carries is
    not applied on such a track.  For the score [@mask2 p8 c p0 c] played
    for one second at 48 kHz on the counting engine of the tests: the two
    Note events carry the pans 64 and -64 of [p8] and [p0], yet both NoteOn
    calls receive pan 0, and the runtime state of the track ends with pan 0
    and mask 2. *)
Theorem masked_pan_is_discarded :
  (forall (E : Type) (VE : VoiceEngine E) (GM : GoMath) (s : sequencer.Sequencer E) (i : nat)
          (tc : sequencer.trackCursor) (ev : mml.Event) (t : Z) (rt : sequencer.runtimeState),
      s.(sequencer.trackRuntime) !! i = Some rt ->
      GoInt.land rt.(sequencer.mask) 2 <> 0 ->
      (ev.(mml.Type_) = mml.EventPan ->
       exists s',
         sequencer.applyEvent s i tc ev t = Ok s'
         /\ s'.(sequencer.trackRuntime) = s.(sequencer.trackRuntime)
         /\ sequencer.set_engine s.(sequencer.engine) s' = s)
      /\ (ev.(mml.Type_) = mml.EventNote ->
          forall p, sequencer.applyEvent s i tc (mml.set_Pan p ev) t
                    = sequencer.applyEvent s i tc ev t))
  /\ observe.parsedNotePans "@mask2 p8 c p0 c" = Ok [[64; -64]]
  /\ exists s,
      observe.play "@mask2 p8 c p0 c" (Z.to_nat 48000) = Ok s
      /\ s.(sequencer.engine).(traced.calls)
         = [traced.CallNoteOn 60 126 0 2147483648; traced.CallNoteOff 0;
            traced.CallNoteOn 60 126 0 2147483648; traced.CallNoteOff 1]
      /\ s.(sequencer.engine).(traced.inner).(countingEngine.pans) = [0; 0]
      /\ observe.runtimePans s.(sequencer.trackRuntime) = [(0, 2)].
Proof.
  split; [|split].
  - intros E VE GM s i tc ev t rt Hrt Hmask. split.
    + intros Hty. exists (sequencer.hinted s rt).
      split; [apply masked_pan_discarded; assumption|].
      destruct (hinted_fields s rt) as (H1 & _ & _ & _ & H5). split; assumption.
    + intros Hty p. unfold sequencer.applyEvent. rewrite Hrt.
      unfold sequencer.applyEventSwitch. cbn [mml.Type_ mml.set_Pan]. rewrite Hty.
      rewrite masked_note_pan_ignored by assumption. reflexivity.
  - vm_compute. reflexivity.
  - eexists. split; [vm_compute; reflexivity|]. repeat split.
Qed.

(** C9, witness: in [@mask2 p8 c p0 c], once tick 0 has been dispatched the
    mask is set; the pan event of [p0] then leaves the runtime state as it
    was. *)
Lemma masked_pan_is_discarded_witness :
  exists s,
    observe.afterTicks "@mask2 p8 c p0 c" 1 = Ok s
    /\ exists s',
      @sequencer.applyEvent _ _ linearMath s 0 (sequencer.mkCursor [] 0 (-1) (-1) 0 0)
        (mml.simple mml.EventPan observe.startState (-64)) 480 = Ok s'
      /\ s'.(sequencer.trackRuntime) = s.(sequencer.trackRuntime)
      /\ sequencer.set_engine s.(sequencer.engine) s' = s.
Proof.
  eexists. split; [vm_compute; reflexivity|].
  destruct masked_pan_is_discarded as [H _].
  eapply (H _ _ linearMath _ 0%nat (sequencer.mkCursor [] 0 (-1) (-1) 0 0)
            (mml.simple mml.EventPan observe.startState (-64)) 480).
  - reflexivity.
  - vm_compute. discriminate.
  - reflexivity.
Defined.

(** ** C1: the order of the calls within one tick *)

Section Order.
Context {E : Type} {VE : VoiceEngine E} {GM : GoMath}.
Import sequencer observe.

Implicit Types (s : Sequencer (traced.t E)) (rt : runtimeState) (ev : mml.Event).

Lemma callsOf_updateEngineLFO s rt : callsOf (updateEngineLFO s rt) = callsOf s.
Proof. unfold updateEngineLFO. repeat case_match; reflexivity. Qed.

Lemma callsOf_hinted s rt : callsOf (hinted s rt) = callsOf s.
Proof.
  unfold hinted. cbn [SetCurrentModule traced.voiceEngine].
  destruct (@SetCurrentModule E VE); reflexivity.
Qed.

Lemma callsOf_applyControl s rt ev : callsOf (applyControl s rt ev).1 = callsOf s.
Proof.
  unfold applyControl. cbn [SetAlgorithmAndOperatorCount SetFeedback traced.voiceEngine].
  destruct (@SetAlgorithmAndOperatorCount E VE), (@SetFeedback E VE);
    cbn [fmap option_fmap option_map];
    repeat case_match; cbn [fst]; rewrite ?callsOf_updateEngineLFO; reflexivity.
Qed.

Lemma callsOf_applyTempo s tc ev : callsOf (applyTempo s tc ev) = callsOf s.
Proof. unfold applyTempo. case_match; reflexivity. Qed.

Lemma callsOf_applyProgram s rt ev s' rt' :
  applyProgram s rt ev = Ok (s', rt') -> callsOf s' = callsOf s.
Proof.
  unfold applyProgram. case_match.
  - intros Hrun. repeat inv_bind Hrun. injection Hrun as <- <-.
    apply callsOf_updateEngineLFO.
  - intros Hrun. injection Hrun as <- <-. reflexivity.
Qed.

Lemma callsOf_applyNote s rt ev t s' rt' :
  applyNote s rt ev t = Ok (s', rt') -> callsOf s `prefix_of` callsOf s'.
Proof.
  unfold applyNote.
  match goal with |- context [if ?c then ?x else s] => set (s1 := if c then x else s) end.
  assert (H1 : callsOf s `prefix_of` callsOf s1).
  { unfold s1; case_match; [|reflexivity]. eexists. reflexivity. }
  clearbody s1. intros Hrun. cbv zeta in Hrun.
  repeat inv_bind Hrun. destruct a1 as [rt1 vel].
  destruct (NoteOn _ _ _ _ _) as [e voiceID] eqn:En in Hrun.
  injection Hrun as <- <-. etransitivity; [exact H1|].
  unfold callsOf. cbn [engine set_noteOffs set_engine].
  cbn [NoteOn traced.voiceEngine] in En.
  destruct (NoteOn _ _ _ _ _) as [e0 id0] in En. injection En as <- <-.
  cbn [traced.calls]. repeat case_match; cbn [traced.calls traced.lift engine set_engine];
    eexists; reflexivity.
Qed.

Lemma callsOf_applyEventSwitch s rt tc ev t s' rt' :
  applyEventSwitch s rt tc ev t = Ok (s', rt') -> callsOf s `prefix_of` callsOf s'.
Proof.
  unfold applyEventSwitch. intros Hrun.
  destruct (mml.Type_ ev); repeat case_match;
    try (injection Hrun as <- <-; first [reflexivity | rewrite callsOf_applyTempo; reflexivity]).
  - eapply callsOf_applyNote; eassumption.
  - apply callsOf_applyProgram in Hrun. rewrite Hrun. reflexivity.
  - rewrite <- (callsOf_applyControl s rt ev).
    injection Hrun as Hrun. rewrite Hrun. reflexivity.
Qed.

Lemma callsOf_applyEvent s i tc ev t s' :
  applyEvent s i tc ev t = Ok s' -> callsOf s `prefix_of` callsOf s'.
Proof.
  unfold applyEvent. case_match; [|discriminate]. intros Hrun.
  inv_bind Hrun. destruct a as [s2 rt2]. injection Hrun as <-.
  apply callsOf_applyEventSwitch in Ha. rewrite callsOf_hinted in Ha. exact Ha.
Qed.

Lemma callsOf_dispatchTrack fuel s i t s' :
  dispatchTrack fuel s i t = Ok s' -> callsOf s `prefix_of` callsOf s'.
Proof.
  revert s. induction fuel as [|fuel IH]; intros s Hrun; [discriminate|].
  cbn [dispatchTrack] in Hrun. repeat case_match; try (injection Hrun as <-; reflexivity).
  inv_bind Hrun. apply IH in Hrun.
  assert (Hev : callsOf s `prefix_of` callsOf a) by (eapply callsOf_applyEvent; eassumption).
  etransitivity; [exact Hev | exact Hrun].
Qed.

Lemma callsOf_dispatchTracks fuel s idxs t s' :
  dispatchTracks fuel s idxs t = Ok s' -> callsOf s `prefix_of` callsOf s'.
Proof.
  revert s. induction idxs as [|i idxs IH]; intros s Hrun; cbn [dispatchTracks] in Hrun.
  - injection Hrun as <-. reflexivity.
  - inv_bind Hrun. apply IH in Hrun. etransitivity; [|exact Hrun].
    eapply callsOf_dispatchTrack; eassumption.
Qed.

(** The second loop of [dispatchTick] switches off the voices that are
    due, in queue order, and calls nothing else. *)
Lemma fireLoop_calls (t : Z) (l : list noteOff) (e : traced.t E) :
  traced.calls (fireLoop t e l).1
  = (traced.calls e ++ map traced.CallNoteOff (dueVoices t l))%list.
Proof.
  revert e. induction l as [|n l IH]; intros e.
  - cbn. rewrite app_nil_r. reflexivity.
  - cbn [fireLoop]. unfold dueVoices. cbn [filter list_filter].
    destruct (negb (fired n) && (tick n <=? t)) eqn:Hdue.
    + specialize (IH (NoteOff e (voice n))). destruct (fireLoop t _ l) as [e' l'].
      cbn [fst] in *. rewrite IH. rewrite decide_True by exact I.
      cbn [map traced.calls NoteOff traced.voiceEngine]. rewrite <- app_assoc. reflexivity.
    + specialize (IH e). destruct (fireLoop t _ l) as [e' l'].
      cbn [fst] in *. rewrite IH. rewrite decide_False by exact id.
      reflexivity.
Qed.

Lemma callsOf_tally s : callsOf (tally s) = callsOf s.
Proof. unfold tally. repeat case_match; reflexivity. Qed.

Lemma callsOf_compactNoteOffs s : callsOf (compactNoteOffs s) = callsOf s.
Proof. unfold compactNoteOffs. case_match; reflexivity. Qed.

Lemma callsOf_fireNoteOffs s t :
  callsOf (fireNoteOffs s t)
  = (callsOf s ++ map traced.CallNoteOff (dueVoices t s.(noteOffs)))%list.
Proof.
  unfold fireNoteOffs, callsOf. rewrite <- fireLoop_calls.
  destruct (fireLoop _ _ _). reflexivity.
Qed.

Lemma noteOn_not_off (vs : list Z) (i : nat) (a : traced.call) :
  map traced.CallNoteOff vs !! i = Some a -> traced.isNoteOn a = false.
Proof.
  rewrite list_lookup_fmap. destruct (vs !! i); [|discriminate].
  intros [= <-]. reflexivity.
Qed.

(** C1 (amended): the dispatch of a tick [T] first applies the events
    that are effective at [T], which issues the NoteOn of every Note
    event of that tick, and only then fires the queued note-offs whose
    tick is at most [T], in queue order: the calls the engine receives
    during the tick are those of the events followed by one NoteOff per
    due entry of the queue the events left, so every NoteOn of the tick
    precedes every note-off fired in it. *)
Theorem note_offs_fire_after_events (fuel : nat) s (T : Z) s' :
  dispatchTick fuel s T = Ok s' ->
  exists s1 evCalls,
    dispatchEvents fuel s T = Ok s1
    /\ callsOf s1 = (callsOf s ++ evCalls)%list
    /\ callsOf s' = (callsOf s ++ evCalls
                     ++ map traced.CallNoteOff (dueVoices T s1.(noteOffs)))%list
    /\ noteOnsBeforeLast (length (dueVoices T s1.(noteOffs))) (callsOf s').
Proof.
  unfold dispatchTick. intros Hrun. inv_bind Hrun. injection Hrun as <-.
  destruct (callsOf_dispatchTracks _ _ _ _ _ Ha) as [evCalls Hev].
  exists a, evCalls. split; [exact Ha|]. split; [exact Hev|].
  assert (Hcalls : callsOf (tally (compactNoteOffs (fireNoteOffs a T)))
                   = (callsOf s ++ evCalls
                      ++ map traced.CallNoteOff (dueVoices T a.(noteOffs)))%list).
  { rewrite callsOf_tally, callsOf_compactNoteOffs, callsOf_fireNoteOffs, Hev.
    rewrite <- app_assoc. reflexivity. }
  split; [exact Hcalls|].
  intros i c Hi Hon. rewrite Hcalls in *. rewrite !length_app, length_map.
  rewrite app_assoc in Hi.
  destruct (decide (i < length (callsOf s ++ evCalls)%list)%nat) as [Hlt|Hge].
  - rewrite length_app in Hlt. lia.
  - rewrite lookup_app_r in Hi by lia. apply noteOn_not_off in Hi. congruence.
Qed.
End Order.

(** C1, witness: the dispatch of tick 480 of [l4 q8 c c], where the first
    note ends and the second starts. *)
Lemma note_offs_fire_after_events_witness :
  exists s s',
    observe.afterTicks "l4 q8 c c" 480 = Ok s
    /\ @sequencer.dispatchTick _ _ linearMath 64 s 480 = Ok s'
    /\ exists s1 evCalls,
        @sequencer.dispatchEvents _ _ linearMath 64 s 480 = Ok s1
        /\ observe.callsOf s1 = (observe.callsOf s ++ evCalls)%list
        /\ observe.callsOf s'
           = (observe.callsOf s ++ evCalls
              ++ map traced.CallNoteOff (observe.dueVoices 480 s1.(sequencer.noteOffs)))%list
        /\ observe.noteOnsBeforeLast
             (length (observe.dueVoices 480 s1.(sequencer.noteOffs))) (observe.callsOf s').
Proof.
  eexists _, _. split; [vm_compute; reflexivity|]. split; [vm_compute; reflexivity|].
  apply (@note_offs_fire_after_events _ _ linearMath 64 _ 480 _).
  vm_compute. reflexivity.
Defined.

(** C1, counterexample: in [l4 q8 c c] the note-off of the first note is
    queued at tick 480, where the second note starts.  The dispatch of
    tick 480 calls NoteOn for the second note first and NoteOff for voice
    0 after it: the queued note-off does not precede the NoteOn. *)
Lemma note_on_before_note_off_counterexample :
  exists s s',
    observe.afterTicks "l4 q8 c c" 480 = Ok s
    /\ map (fun n => (n.(sequencer.tick), n.(sequencer.voice), n.(sequencer.fired)))
         s.(sequencer.noteOffs) = [(480, 0, false)]
    /\ @sequencer.dispatchTick _ _ linearMath 64 s 480 = Ok s'
    /\ observe.callsOf s'
       = (observe.callsOf s
          ++ [traced.CallNoteOn 60 126 0 2147483648; traced.CallNoteOff 0])%list
    /\ ~ observe.noteOffsFirst [traced.CallNoteOn 60 126 0 2147483648; traced.CallNoteOff 0].
Proof.
  eexists _, _. split; [vm_compute; reflexivity|]. split; [vm_compute; reflexivity|].
  split; [vm_compute; reflexivity|]. split; [vm_compute; reflexivity|].
  intros Hfirst.
  specialize (Hfirst 0%nat 1%nat _ _ eq_refl eq_refl eq_refl eq_refl). lia.
Qed.

(** ** C8: the end of playback *)

Section Ending.
Context {E : Type} {VE : VoiceEngine E} {GM : GoMath}.
Import sequencer observe.

Implicit Types (s : Sequencer E) (tc : trackCursor).

Lemma lifecycle_settled s s' :
  lifecycle s' = lifecycle s -> s'.(trackState) = s.(trackState) ->
  s'.(noteOffs) = s.(noteOffs) -> settled s -> settled s'.
Proof.
  unfold lifecycle, settled, scoreExhausted.
  intros [= _ _ _ _ -> -> -> ->] -> ->. exact id.
Qed.




Lemma fireNoteOffs_fields s t :
  (fireNoteOffs s t).(trackState) = s.(trackState)
  /\ (s.(noteOffs) = [] -> (fireNoteOffs s t).(noteOffs) = []).
Proof.
  unfold fireNoteOffs. split.
  - destruct (fireLoop _ _ _). reflexivity.
  - intros ->. reflexivity.
Qed.

Lemma compactNoteOffs_fields s :
  (compactNoteOffs s).(trackState) = s.(trackState)
  /\ (s.(noteOffs) = [] -> (compactNoteOffs s).(noteOffs) = []).
Proof.
  unfold compactNoteOffs. split.
  - case_match; reflexivity.
  - intros Hn. rewrite Hn. exact Hn.
Qed.










End Ending.


(** * Further properties of the parser and the sequencer *)

(** ** Lengths, gates and quantization *)

Section Lengths.
Import mml.

(** The gated on-time of a note ([parseGateDuration]): no gate at all for
    a percentage that is not positive; for a percentage of 1..100 a note
    of positive length sounds for at least one tick and for at most its
    length, and a note of length 0 for none. *)
Theorem gate_duration_bounds (dur gatePercent : Z) :
  0 <= dur -> dur * gatePercent <= GoInt.maxInt ->
  (gatePercent <= 0 -> parseGateDuration dur gatePercent = 0)
  /\ (0 < gatePercent <= 100 ->
      (dur = 0 -> parseGateDuration dur gatePercent = 0)
      /\ (0 < dur -> 1 <= parseGateDuration dur gatePercent <= dur)).
Proof.
  intros Hd Hb. unfold GoInt.maxInt in Hb. split.
  - intros Hg. unfold parseGateDuration. destruct (gatePercent <=? 0) eqn:E; [reflexivity|lia].
  - intros Hg. unfold parseGateDuration. destruct (gatePercent <=? 0) eqn:E; [lia|].
    rewrite mul_small by (unfold GoInt.inRange, GoInt.minInt, GoInt.maxInt; nia).
    rewrite div_small by (unfold GoInt.maxInt; nia).
    assert (H0 : 0 <= dur * gatePercent / 100) by (apply Z.div_pos; nia).
    assert (H1 : dur * gatePercent / 100 <= dur).
    { apply Z.div_le_upper_bound; nia. }
    split.
    + intros ->. reflexivity.
    + intros Hpos. destruct (dur * gatePercent / 100 <=? 0) eqn:E1;
        destruct (dur >? 0) eqn:E2; cbn [andb]; lia.
Qed.

Lemma addDots_bounds (dots : nat) (dur term : Z) :
  0 <= term -> 0 <= dur -> dur + term <= GoInt.maxInt ->
  dur <= addDots dots dur term <= dur + term
  /\ (0 < term -> addDots dots dur term < dur + term).
Proof.
  revert dur term. induction dots as [|k IH]; intros dur term Ht Hd Hb.
  - cbn [addDots]. lia.
  - cbn [addDots]. unfold GoInt.shr. rewrite Z.shiftr_div_pow2 by lia.
    change (2 ^ 1) with 2.
    assert (H2 : 0 <= term / 2) by (apply Z.div_pos; lia).
    assert (H3 : 2 * (term / 2) <= term) by (apply Z.mul_div_le; lia).
    unfold GoInt.maxInt in Hb.
    rewrite add_small by (unfold GoInt.inRange, GoInt.minInt, GoInt.maxInt; lia).
    destruct (IH (dur + term / 2) (term / 2)) as [Hr Hs];
      [lia | lia | unfold GoInt.maxInt; lia |].
    split; [lia|]. intros Hpos.
    destruct (Z.eq_dec (term / 2) 0) as [E | E].
    + rewrite E in *. lia.
    + specialize (Hs ltac:(lia)). lia.
Qed.

(** The dots after a length ([parseLengthToken] adds half of the last
    term per dot): a dotted length is at least the plain one and stays
    below its double; one dot adds half of it. *)
Theorem dotted_length_bounds (dots : nat) (base : Z) :
  0 < base -> 2 * base <= GoInt.maxInt ->
  base <= addDots dots base base < 2 * base
  /\ addDots 1 base base = base + base / 2.
Proof.
  intros Hb Hm. destruct (addDots_bounds dots base base) as [Hr Hs]; [lia | lia | lia |].
  specialize (Hs Hb). split; [lia|].
  cbn [addDots]. unfold GoInt.shr. rewrite Z.shiftr_div_pow2 by lia. change (2 ^ 1) with 2.
  assert (0 <= base / 2) by (apply Z.div_pos; lia).
  assert (2 * (base / 2) <= base) by (apply Z.mul_div_le; lia).
  unfold GoInt.maxInt in Hm.
  apply add_small. unfold GoInt.inRange, GoInt.minInt, GoInt.maxInt. lia.
Qed.


(** [clampInt], declared in both packages: for bounds in order the
    result lies within them, a value within them is returned as it is,
    and clamping twice is clamping once. *)
Theorem clampInt_within (v lo hi : Z) :
  lo <= hi ->
  lo <= clampInt v lo hi <= hi
  /\ (lo <= v <= hi -> clampInt v lo hi = v)
  /\ clampInt (clampInt v lo hi) lo hi = clampInt v lo hi.
Proof. intros Hb. unfold clampInt. repeat case_match; lia. Qed.

End Lengths.

(** ** Note events and envelopes *)

Section NoteRanges.
Context {GM : GoMath}.
Import mml.

Lemma emitNote_ranges (st : parseState) (nn dur : Z) :
  let ev := emitNote st nn dur in
  ev.(Type_) = EventNote /\ ev.(Tick) = st.(tick)
  /\ 0 <= ev.(Note) <= 127 /\ 0 <= ev.(Value) <= 127
  /\ (st.(keyOffTick) > 0 -> 0 <= ev.(Duration)).
Proof.
  unfold emitNote. cbn [Type_ Tick Note Value Duration].
  split; [reflexivity|]. split; [reflexivity|]. split; [repeat case_match; lia|].
  split; [unfold scaledVelocity; apply clampInt_range; lia|].
  intros Hk. destruct (keyOffTick st >? 0) eqn:E; [|lia]. case_match; lia.
Qed.

(** Every Note event the parser builds, by letter ([parseNote]) or by
    number ([parseNoteByNumber]), starts at the current tick and has a
    note number and a velocity within 0..127, whatever the octave, the
    transposition and the volume are; with a key-off tick set ([@q]) its
    on-time is not negative. *)
Theorem parsed_note_ranges (s : string) (at_ : nat) (st : parseState)
  (ev : Event) (dur : Z) (next : nat) :
  parseNote s at_ st = Ok (ev, dur, next) \/ parseNoteByNumber s at_ st = Ok (ev, dur, next) ->
  ev.(Type_) = EventNote /\ ev.(Tick) = st.(tick)
  /\ 0 <= ev.(Note) <= 127 /\ 0 <= ev.(Value) <= 127
  /\ (st.(keyOffTick) > 0 -> 0 <= ev.(Duration)).
Proof.
  intros [Hrun | Hrun].
  - unfold parseNote in Hrun. cbv zeta in Hrun. inv_bind Hrun. destruct a as [d n].
    injection Hrun as <- <- <-. apply emitNote_ranges.
  - unfold parseNoteByNumber in Hrun. inv_bind Hrun. destruct a as [nn n0].
    inv_bind Hrun. destruct a as [d n]. injection Hrun as <- <- <-. apply emitNote_ranges.
Qed.

End NoteRanges.

Section FilterEnvelope.
Import sequencer.

(** One step of the filter envelope ([filterEnvelope.step]): the cutoff
    it returns lies within 0..128; the stage never moves backwards, by at
    most one stage per step, and sustain and release are never left; the
    parameters of the envelope are not touched, and an envelope in an
    unknown stage is left as it is. *)
Theorem filter_step_range (fe : filterEnvelope) :
  let fe' := (step fe).1 in
  0 <= (step fe).2 <= 128
  /\ (step fe).2 = clampInt fe'.(current) 0 128
  /\ (0 <= fe.(state) <= 3 ->
      fe.(state) <= fe'.(state) <= Z.min 3 (fe.(state) + 1)
      /\ (2 <= fe.(state) -> fe'.(state) = fe.(state)))
  /\ (fe.(state) < 0 \/ 3 < fe.(state) -> fe' = fe)
  /\ (fe'.(co), fe'.(ar), fe'.(dr), fe'.(sr), fe'.(rr), fe'.(co2), fe'.(co3), fe'.(sc), fe'.(rc))
     = (fe.(co), fe.(ar), fe.(dr), fe.(sr), fe.(rr), fe.(co2), fe.(co3), fe.(sc), fe.(rc)).
Proof.
  cbv zeta. unfold step. cbn [fst snd].
  split; [apply clampInt_range; lia|]. split; [reflexivity|].
  split; [|split].
  - intros Hs. repeat case_match; cbn [state]; lia.
  - intros Hs. repeat case_match; try lia; reflexivity.
  - repeat case_match; reflexivity.
Qed.

End FilterEnvelope.

(** ** Voice ids of the multi-engine *)

Section VoiceIDs.
Import multi.

Lemma decode_encode (module localID : Z) :
  0 <= module <= 255 ->
  decodeVoiceID (encodeVoiceID module localID) = (module, Z.land localID 65535).
Proof.
  intros Hm. unfold decodeVoiceID, encodeVoiceID, GoInt.shl, GoInt.shr.
  rewrite wrap_small.
  2:{ rewrite Z.shiftl_mul_pow2 by lia.
      unfold GoInt.inRange, GoInt.minInt, GoInt.maxInt. lia. }
  change 65535 with (Z.ones 16). change 255 with (Z.ones 8).
  f_equal.
  - rewrite Z.shiftr_lor, Z.shiftr_shiftl_l by lia. change (16 - 16) with 0.
    rewrite Z.shiftl_0_r.
    rewrite (Z.land_ones localID) by lia. rewrite Z.shiftr_div_pow2 by lia.
    rewrite Z.div_small by (apply Z.mod_pos_bound; lia).
    rewrite Z.lor_0_r, Z.land_ones by lia. apply Z.mod_small. lia.
  - rewrite Z.land_lor_distr_l.
    rewrite <- Z.land_assoc, Z.land_diag.
    rewrite (Z.land_ones (Z.shiftl module 16)) by lia.
    rewrite Z.shiftl_mul_pow2 by lia. rewrite Z.mod_mul by lia.
    apply Z.lor_0_l.
Qed.

Lemma land_low (localID : Z) : 0 <= localID <= 65535 -> Z.land localID 65535 = localID.
Proof.
  intros Hl. change 65535 with (Z.ones 16). rewrite Z.land_ones by lia.
  apply Z.mod_small. lia.
Qed.

(** [encodeVoiceID] and [decodeVoiceID]: for a module of 0..255 decoding
    an encoded id gives the module back, and the local id cut to its low
    16 bits: a local id of 0..65535 comes back as it was, and the -1 of
    a failed [NoteOn] comes back as 65535. *)
Theorem voice_id_round_trip (module localID : Z) :
  0 <= module <= 255 ->
  decodeVoiceID (encodeVoiceID module localID) = (module, Z.land localID 65535)
  /\ (0 <= localID <= 65535 ->
      decodeVoiceID (encodeVoiceID module localID) = (module, localID))
  /\ decodeVoiceID (encodeVoiceID module (-1)) = (module, 65535).
Proof.
  intros Hm. split; [apply decode_encode; exact Hm|]. split.
  - intros Hl. rewrite decode_encode by exact Hm. rewrite land_low by exact Hl. reflexivity.
  - rewrite decode_encode by exact Hm. reflexivity.
Qed.

End VoiceIDs.

Section Routing.
Context {E : Type} {VE : VoiceEngine E}.


(** [MultiEngine] without engines: [NoteOn] returns -1 and [NoteOff]
    does nothing, for every program and every voice id. *)
Theorem no_engine_no_voice (m : multi.t E) (note velocity pan program id : Z) :
  m.(multi.engines) = ∅ ->
  multi.NoteOn m note velocity pan program = (m, -1) /\ multi.NoteOff m id = m.
Proof.
  intros Hempty.
  assert (Hnone : forall module, multi.engine m module = None).
  { intros module. unfold multi.engine. rewrite Hempty, !lookup_empty.
    rewrite map_to_list_empty. reflexivity. }
  split.
  - unfold multi.NoteOn. rewrite Hnone. reflexivity.
  - unfold multi.NoteOff. destruct (multi.decodeVoiceID id) as [module localID].
    rewrite Hnone. reflexivity.
Qed.

End Routing.

(** ** The note-off queue *)

Section Queue.
Import sequencer props.

Implicit Types (l : list noteOff) (n : noteOff).

Lemma insertFromRight_perm (key : noteOff) (rp : list noteOff) :
  insertFromRight key rp ≡ₚ key :: rp.
Proof.
  induction rp as [|x r IH]; cbn [insertFromRight]; [reflexivity|].
  case_match; [|reflexivity]. rewrite IH. apply Permutation_swap.
Qed.

Lemma insertFromRight_sorted (key : noteOff) (rp : list noteOff) :
  StronglySorted (fun a b => b.(tick) <= a.(tick)) rp ->
  StronglySorted (fun a b => b.(tick) <= a.(tick)) (insertFromRight key rp).
Proof.
  induction rp as [|x r IH]; intros Hs; cbn [insertFromRight].
  - repeat constructor.
  - apply StronglySorted_inv in Hs. destruct Hs as [Hr Hx].
    destruct (tick x >? tick key) eqn:Hgt.
    + constructor; [apply IH; exact Hr|].
      rewrite insertFromRight_perm. constructor; [lia | exact Hx].
    + constructor; [constructor; assumption|].
      constructor; [lia|].
      eapply Forall_impl; [exact Hx|]. cbn. intros y Hy. lia.
Qed.

Lemma insertion_sort_spec (l acc : list noteOff) :
  StronglySorted (fun a b => b.(tick) <= a.(tick)) acc ->
  let r := foldl (fun revPrefix key => insertFromRight key revPrefix) acc l in
  r ≡ₚ l ++ acc /\ StronglySorted (fun a b => b.(tick) <= a.(tick)) r.
Proof.
  revert acc. induction l as [|x l IH]; intros acc Hacc; cbn [foldl].
  - split; [reflexivity | exact Hacc].
  - destruct (IH (insertFromRight x acc) (insertFromRight_sorted x acc Hacc)) as [Hp Hs].
    split; [|exact Hs]. cbv zeta in Hp. rewrite Hp, insertFromRight_perm.
    cbn. symmetry. apply Permutation_middle.
Qed.

Lemma sorted_rev (l : list noteOff) :
  StronglySorted (fun a b => b.(tick) <= a.(tick)) l ->
  StronglySorted (fun a b => a.(tick) <= b.(tick)) (rev l).
Proof.
  induction 1 as [|a l Hs IH Ha]; cbn [rev]; [constructor|].
  apply StronglySorted_app_2; [| exact IH | repeat constructor].
  intros x1 x2 H1 H2. apply list_elem_of_singleton in H2. subst x2.
  apply list_elem_of_In in H1. apply in_rev in H1. apply list_elem_of_In in H1.
  rewrite Forall_forall in Ha. apply Ha. exact H1.
Qed.

Lemma sorted_ordered (l : list noteOff) :
  StronglySorted (fun a b => a.(tick) <= b.(tick)) l -> ordered l.
Proof.
  intros Hs i j a b Hij Hi Hj.
  destruct (decide (i = j)) as [-> | Hne]; [rewrite Hi in Hj; injection Hj as ->; lia|].
  rewrite <- (take_drop j l) in Hs.
  eapply (StronglySorted_app_1_elem_of _ _ _ a b Hs).
  - apply list_elem_of_lookup. exists i. rewrite lookup_take_lt by lia. exact Hi.
  - apply list_elem_of_lookup. exists 0%nat. rewrite lookup_drop, Nat.add_0_r. exact Hj.
Qed.

Lemma compact_spec (l : list noteOff) :
  compact l ≡ₚ filter (fun n => negb n.(fired)) l
  /\ ordered (compact l)
  /\ Forall (fun n => n.(fired) = false) (compact l).
Proof.
  unfold compact.
  destruct (insertion_sort_spec (filter (fun n => negb n.(fired)) l) []) as [Hp Hs];
    [constructor|]. cbv zeta in Hp, Hs. rewrite app_nil_r in Hp.
  assert (Hperm : rev (foldl (fun rp key => insertFromRight key rp) []
                         (filter (fun n => negb n.(fired)) l))
                  ≡ₚ filter (fun n => negb n.(fired)) l).
  { rewrite <- Permutation_rev. exact Hp. }
  split; [exact Hperm|]. split.
  - apply sorted_ordered, sorted_rev, Hs.
  - rewrite Hperm. apply Forall_forall. intros n Hn.
    apply list_elem_of_filter in Hn. destruct Hn as [Hn _].
    destruct (fired n); [contradiction|reflexivity].
Qed.

(** [compactNoteOffs]: the queue it leaves holds the entries that have
    not fired, each as often as before, in the order of their ticks; an
    empty queue is left as it is. *)
Theorem compact_unfired_ordered {E : Type} (s : Sequencer E) :
  (compactNoteOffs s).(noteOffs) ≡ₚ filter (fun n => negb n.(fired)) s.(noteOffs)
  /\ ordered (compactNoteOffs s).(noteOffs)
  /\ Forall (fun n => n.(fired) = false) (compactNoteOffs s).(noteOffs)
  /\ (s.(noteOffs) = [] -> compactNoteOffs s = s).
Proof.
  unfold compactNoteOffs. destruct (noteOffs s) as [|n0 l0] eqn:Hq.
  - rewrite Hq. split; [reflexivity|]. split; [intros i j a b _ Hi; discriminate|].
    split; [constructor | reflexivity].
  - cbn [noteOffs set_noteOffs]. destruct (compact_spec (n0 :: l0)) as (H1 & H2 & H3).
    split; [exact H1|]. split; [exact H2|]. split; [exact H3 | discriminate].
Qed.

(** [cancelPendingNoteOff]: every entry of the voice is marked as fired,
    the entries of other voices are left as they are, and the queue
    keeps its length. *)
Theorem cancel_marks_voice (v : Z) (l : list noteOff) :
  length (cancel v l) = length l
  /\ forall (i : nat) (n : noteOff),
      l !! i = Some n ->
      exists n',
        cancel v l !! i = Some n'
        /\ n'.(tick) = n.(tick) /\ n'.(voice) = n.(voice)
        /\ (n.(voice) = v -> n'.(fired) = true)
        /\ (n.(voice) <> v -> n' = n).
Proof.
  unfold cancel. split; [apply length_map|].
  intros i n Hi. rewrite list_lookup_fmap, Hi. cbn [fmap option_fmap option_map].
  eexists. split; [reflexivity|].
  destruct (voice n =? v) eqn:Ev; destruct (fired n) eqn:Ef; cbn [andb negb tick voice fired];
    (split; [reflexivity|]; split; [reflexivity|]; split; intros; first [reflexivity | congruence | lia]).
Qed.

End Queue.

(** ** What applying an event leaves alone *)

Section EventFrame.
Context {E : Type} {VE : VoiceEngine E} {GM : GoMath}.
Import sequencer observe props.

Implicit Types (s : Sequencer E) (rt : runtimeState) (ev : mml.Event).

(** The sequencer without its engine, tick rate, queue and trigger log:
    what an event may not change besides the runtime state it is given. *)
Lemma kept_updateEngineLFO s rt :
  fixed (updateEngineLFO s rt) = fixed s
  /\ (updateEngineLFO s rt).(trackRuntime) = s.(trackRuntime).
Proof. split; reflexivity. Qed.

Lemma kept_applyControl s rt ev :
  fixed (applyControl s rt ev).1 = fixed s
  /\ (applyControl s rt ev).1.(trackRuntime) = s.(trackRuntime).
Proof. unfold applyControl. repeat case_match; split; reflexivity. Qed.

Lemma kept_applyTempo s tc ev :
  fixed (applyTempo s tc ev) = fixed s
  /\ (applyTempo s tc ev).(trackRuntime) = s.(trackRuntime).
Proof. unfold applyTempo. case_match; split; reflexivity. Qed.

Lemma kept_applyProgram s rt ev s' rt' :
  applyProgram s rt ev = Ok (s', rt') ->
  fixed s' = fixed s /\ s'.(trackRuntime) = s.(trackRuntime).
Proof.
  unfold applyProgram. case_match.
  - intros Hrun. repeat inv_bind Hrun. injection Hrun as <- <-. split; reflexivity.
  - intros Hrun. injection Hrun as <- <-. split; reflexivity.
Qed.

Lemma kept_applyNote s rt ev t s' rt' :
  applyNote s rt ev t = Ok (s', rt') ->
  fixed s' = fixed s /\ s'.(trackRuntime) = s.(trackRuntime).
Proof.
  unfold applyNote.
  match goal with |- context [if ?c then ?x else s] => set (s1 := if c then x else s) end.
  assert (H1 : fixed s1 = fixed s /\ trackRuntime s1 = trackRuntime s)
    by (unfold s1; case_match; split; reflexivity).
  clearbody s1. intros Hrun. cbv zeta in Hrun.
  repeat inv_bind Hrun. destruct a1 as [rt1 vel].
  destruct (NoteOn _ _ _ _ _) as [e voiceID] eqn:En in Hrun.
  injection Hrun as <- <-. destruct H1 as [<- <-]. split; reflexivity.
Qed.

Lemma kept_applyEventSwitch s rt tc ev t s' rt' :
  applyEventSwitch s rt tc ev t = Ok (s', rt') ->
  fixed s' = fixed s /\ s'.(trackRuntime) = s.(trackRuntime).
Proof.
  unfold applyEventSwitch. intros Hrun.
  destruct (mml.Type_ ev); repeat case_match;
    try (injection Hrun as <- <-; first [split; reflexivity | apply kept_applyTempo]).
  - eapply kept_applyNote; eassumption.
  - eapply kept_applyProgram; eassumption.
  - injection Hrun as Hrun. pose proof (kept_applyControl s rt ev) as Hk.
    rewrite Hrun in Hk. exact Hk.
Qed.

Lemma kept_hinted s rt :
  fixed (hinted s rt) = fixed s /\ (hinted s rt).(trackRuntime) = s.(trackRuntime).
Proof. unfold hinted. case_match; split; reflexivity. Qed.

Lemma fixed_applyEvent s (i : nat) (tc : trackCursor) ev (t : Z) s' :
  applyEvent s i tc ev t = Ok s' ->
  fixed s' = fixed s
  /\ length s'.(trackRuntime) = length s.(trackRuntime)
  /\ forall j : nat, j <> i -> s'.(trackRuntime) !! j = s.(trackRuntime) !! j.
Proof.
  intros Hrun.
  unfold applyEvent in Hrun. destruct (trackRuntime s !! i) as [rt|]; [|discriminate].
  inv_bind Hrun. destruct a as [s2 rt2]. injection Hrun as <-.
  apply kept_applyEventSwitch in Ha. destruct Ha as [Hf Hr].
  destruct (kept_hinted s rt) as [Hf' Hr'].
  split; [rewrite <- Hf', <- Hf; reflexivity|].
  cbn [trackRuntime set_trackRuntime]. rewrite Hr, Hr'. split.
  - apply length_insert.
  - intros j Hj. apply list_lookup_insert_ne. congruence.
Qed.

(** [applyEvent] changes the runtime state of its own track and nothing
    of the others; it leaves the score, the tables, the cursors, the tick
    counters and everything about loops and the end of playback as they
    were (an event can only reach the engine, the tick rate, the note-off
    queue and the trigger log besides); for a track index without
    runtime state it panics. *)
Theorem event_changes_its_track_only s (i : nat) (tc : trackCursor) ev (t : Z) :
  (s.(trackRuntime) !! i = None -> applyEvent s i tc ev t = Panic "index out of range")
  /\ forall s',
      applyEvent s i tc ev t = Ok s' ->
      fixed s' = fixed s /\ lifecycle s' = lifecycle s
      /\ length s'.(trackRuntime) = length s.(trackRuntime)
      /\ forall j : nat, j <> i -> s'.(trackRuntime) !! j = s.(trackRuntime) !! j.
Proof.
  split.
  - intros Hnone. unfold applyEvent. rewrite Hnone. reflexivity.
  - intros s' Hrun. pose proof (lifecycle_applyEvent _ _ _ _ _ _ Hrun) as Hlife.
    destruct (fixed_applyEvent _ _ _ _ _ _ Hrun) as (Hf & Hlen & Hoth).
    split; [exact Hf|]. split; [exact Hlife|]. split; assumption.
Qed.

(** The masks of volume and table envelopes: on a track whose mask has
    bit 0 set, Volume, FineVolume and Expression events, and on a track
    whose mask has bit 4 set, table-envelope events, are discarded: the
    sequencer is left as it was (but for the module hint a routing
    engine receives). *)
Theorem masked_updates_discarded s (i : nat) (tc : trackCursor) ev (t : Z) rt :
  s.(trackRuntime) !! i = Some rt ->
  (GoInt.land rt.(mask) 1 <> 0
   /\ (ev.(mml.Type_) = mml.EventVolume \/ ev.(mml.Type_) = mml.EventFineVolume
       \/ ev.(mml.Type_) = mml.EventExpression))
  \/ (GoInt.land rt.(mask) 16 <> 0 /\ ev.(mml.Type_) = mml.EventTableEnv) ->
  applyEvent s i tc ev t = Ok (hinted s rt).
Proof.
  intros Hrt Hcase.
  destruct (hinted_fields s rt) as (Hh1 & _).
  unfold applyEvent. rewrite Hrt. unfold applyEventSwitch.
  rewrite <- Hh1 in Hrt.
  destruct Hcase as [[Hm [Hty | [Hty | Hty]]] | [Hm Hty]]; rewrite Hty;
    match goal with |- context [GoInt.land ?a ?b =? 0] =>
      destruct (GoInt.land a b =? 0) eqn:Em; [lia|] end;
    cbn [negb mbind outcome_bind]; rewrite (set_trackRuntime_id _ _ _ Hrt); reflexivity.
Qed.

(** ** The queue after a tick *)

Lemma fireLoop_queue (T : Z) (l : list noteOff) (e : E) :
  (fireLoop T e l).2
  = map (fun n => if negb n.(fired) && (n.(tick) <=? T)
                  then mkNoteOff n.(tick) n.(voice) true else n) l.
Proof.
  revert e. induction l as [|n l IH]; intros e; [reflexivity|].
  cbn [fireLoop map]. destruct (negb (fired n) && (tick n <=? T)).
  - specialize (IH (NoteOff e (voice n))). destruct (fireLoop T _ l). cbn [snd] in *.
    rewrite IH. reflexivity.
  - specialize (IH e). destruct (fireLoop T _ l). cbn [snd] in *. rewrite IH. reflexivity.
Qed.

(** [dispatchTick]: when the tick [T] has been dispatched, every entry
    left in the note-off queue has not fired and waits for a tick after
    [T], and the queue is in the order of its ticks. *)
Theorem queue_after_tick (fuel : nat) s (T : Z) s' :
  dispatchTick fuel s T = Ok s' ->
  Forall (pending T) s'.(noteOffs) /\ ordered s'.(noteOffs).
Proof.
  unfold dispatchTick. intros Hrun. inv_bind Hrun. injection Hrun as <-.
  assert (Hq : (tally (compactNoteOffs (fireNoteOffs a T))).(noteOffs)
               = (compactNoteOffs (fireNoteOffs a T)).(noteOffs)).
  { unfold tally. repeat case_match; reflexivity. }
  rewrite Hq. clear Hq.
  assert (Hf : (fireNoteOffs a T).(noteOffs) = (fireLoop T a.(engine) a.(noteOffs)).2).
  { unfold fireNoteOffs. destruct (fireLoop _ _ _). reflexivity. }
  unfold compactNoteOffs. remember (noteOffs (fireNoteOffs a T)) as q eqn:Hq.
  assert (Hgen : Forall (pending T) (compact q) /\ ordered (compact q)).
  { destruct (compact_spec q) as (Hp & Ho & _).
    split; [|exact Ho]. rewrite Hp, Hf, fireLoop_queue.
    apply Forall_forall. intros x Hx. apply list_elem_of_filter in Hx. destruct Hx as [Hu Hx].
    apply list_elem_of_fmap in Hx. destruct Hx as (n & -> & _).
    destruct (fired n) eqn:Ef; cbn [negb andb] in Hu |- *.
    + rewrite Ef in Hu. contradiction.
    + destruct (tick n <=? T) eqn:Et; cbn [fired] in Hu; [contradiction|].
      split; [exact Ef | lia]. }
  destruct q as [|n0 l0].
  - rewrite <- Hq. split; [constructor|]. intros i j x y _ Hi. discriminate.
  - exact Hgen.
Qed.
End EventFrame.

(** ** Playbacks that do not end *)

Section Unending.
Context {E : Type} {VE : VoiceEngine E} {GM : GoMath}.
Import sequencer observe props.

Implicit Types (s : Sequencer E) (tc : trackCursor).

Lemma loops_advance tc : loops (advance tc) = loops tc.
Proof. unfold advance. case_match; reflexivity. Qed.

Lemma existsb_map_eq {A B} (f : A -> B) (p : B -> bool) (l l' : list A) :
  map f l = map f l' -> existsb (fun x => p (f x)) l = existsb (fun x => p (f x)) l'.
Proof.
  revert l'. induction l as [|x l IH]; intros [|y l'] Hm; try discriminate; [reflexivity|].
  cbn in Hm. injection Hm as Hx Hl. cbn [existsb]. rewrite Hx, (IH _ Hl). reflexivity.
Qed.

Lemma endless_ext s s' :
  lifecycle s' = lifecycle s -> map loops s'.(trackState) = map loops s.(trackState) ->
  endless s -> endless s'.
Proof.
  unfold lifecycle, endless. intros [= -> _ _ -> _ -> -> ->] Hm (H1 & H2).
  split; [|exact H2]. rewrite <- H1.
  apply (existsb_map_eq loops (fun b => b)). exact Hm.
Qed.

Lemma restarting_ext s s' : lifecycle s' = lifecycle s -> restarting s -> restarting s'.
Proof.
  unfold lifecycle, restarting, endedCount. intros [= -> _ _ -> -> _ _ ->]. exact id.
Qed.

Lemma endless_not_exhausted s : endless s -> scoreExhausted s = false.
Proof.
  intros [Hex _]. unfold scoreExhausted.
  apply existsb_exists in Hex. destruct Hex as (tc & Hin & Hl).
  destruct (forallb _ _) eqn:Hall; [|reflexivity].
  rewrite forallb_forall in Hall. specialize (Hall tc Hin).
  unfold loops in Hl. rewrite Hl in Hall. rewrite andb_false_r in Hall. discriminate.
Qed.

Lemma loops_dispatchTrack fuel s i t s' :
  dispatchTrack fuel s i t = Ok s' ->
  map loops s'.(trackState) = map loops s.(trackState).
Proof.
  revert s. induction fuel as [|fuel IH]; intros s Hrun; [discriminate|].
  cbn [dispatchTrack] in Hrun.
  destruct (trackState s !! i) as [tc|] eqn:Htc; [|injection Hrun as <-; reflexivity].
  destruct (peekEvent tc) as [[ev et]|]; [|injection Hrun as <-; reflexivity].
  destruct (et >? t); [injection Hrun as <-; reflexivity|].
  inv_bind Hrun. apply IH in Hrun. rewrite Hrun. cbn [trackState set_trackState].
  pose proof (fixed_applyEvent _ _ _ _ _ _ Ha) as (Hf & _).
  apply (f_equal (fun x => x.1.2.1.1)) in Hf. cbn in Hf.
  rewrite Hf. rewrite list_fmap_insert, loops_advance.
  apply list_insert_id. rewrite list_lookup_fmap, Htc. reflexivity.
Qed.

Lemma loops_dispatchTracks fuel s idxs t s' :
  dispatchTracks fuel s idxs t = Ok s' ->
  map loops s'.(trackState) = map loops s.(trackState).
Proof.
  revert s. induction idxs as [|i idxs IH]; intros s Hrun; cbn [dispatchTracks] in Hrun.
  - injection Hrun as <-. reflexivity.
  - inv_bind Hrun. apply IH in Hrun. rewrite Hrun. eapply loops_dispatchTrack; eassumption.
Qed.

Lemma dispatchTick_never fuel s t s' :
  dispatchTick fuel s t = Ok s' ->
  (endless s -> endless s') /\ (restarting s -> restarting s').
Proof.
  unfold dispatchTick. intros Hrun. inv_bind Hrun. injection Hrun as <-.
  pose proof (lifecycle_dispatchTracks _ _ _ _ _ Ha) as Hl.
  pose proof (loops_dispatchTracks _ _ _ _ _ Ha) as Hm.
  set (b := compactNoteOffs (fireNoteOffs a t)).
  assert (Hlb : lifecycle b = lifecycle s).
  { unfold b. rewrite lifecycle_compactNoteOffs, lifecycle_fireNoteOffs. exact Hl. }
  assert (Hmb : map loops b.(trackState) = map loops s.(trackState)).
  { unfold b. rewrite (proj1 (compactNoteOffs_fields _)), (proj1 (fireNoteOffs_fields _ _)).
    exact Hm. }
  split.
  - intros He. apply (endless_ext s b Hlb Hmb) in He.
    unfold tally. rewrite (endless_not_exhausted b He), andb_false_r. exact He.
  - intros Hr. apply (restarting_ext s b Hlb) in Hr.
    unfold tally. destruct Hr as (H1 & H2). rewrite H1.
    destruct ((length (noteOffs b) =? 0)%nat && scoreExhausted b); [|split; assumption].
    destruct (negb (loopPending b)); split; assumption.
Qed.

Lemma tickLoop_never n fuel s s' :
  tickLoop n fuel s = Ok s' ->
  (endless s -> endless s') /\ (restarting s -> restarting s').
Proof.
  revert s. induction n as [|n IH]; intros s Hrun; cbn [tickLoop] in Hrun.
  - injection Hrun as <-. split; exact id.
  - inv_bind Hrun. destruct (dispatchTick_never _ _ _ _ Ha) as [He Hr].
    apply IH in Hrun. destruct Hrun as [He' Hr']. split; intros H0.
    + apply He', He, H0.
    + apply Hr', Hr, H0.
Qed.

Lemma frameAdvance_never fuel s s1 lr :
  frameAdvance fuel s = Ok (s1, lr) ->
  (endless s -> endless s1) /\ (restarting s -> restarting s1).
Proof.
  unfold frameAdvance. cbv zeta. case_match; [discriminate|]. intros Hrun.
  inv_bind Hrun. destruct (tickLoop_never _ _ _ _ Ha) as [He Hr]. split.
  - intros H0. apply He in H0. pose proof H0 as (_ & Hlp & Hpr & _).
    rewrite Hpr in Hrun. cbn [mbind outcome_bind] in Hrun.
    destruct (RenderFrame (engine a)) as [e lr'].
    cbn [loopPending set_engine] in Hrun. rewrite Hlp in Hrun. cbn [andb] in Hrun.
    injection Hrun as <- <-. exact H0.
  - intros H0. apply Hr in H0. inv_bind Hrun.
    assert (H1 : restarting a0).
    { destruct (pendingReset a); [|injection Ha0 as <-; exact H0].
      unfold resetForWholeScoreLoop in Ha0. cbv zeta in Ha0.
      destruct (_ || _) in Ha0; [discriminate|].
      injection Ha0 as <-. exact H0. }
    destruct (RenderFrame (engine a0)) as [e lr'].
    injection Hrun as <- <-.
    match goal with |- restarting (if ?c then _ else _) => destruct c; [|exact H1] end.
    match goal with |- restarting (if ?c then _ else _) => destruct c; [|exact H1] end.
    unfold callOnEvent.
    match goal with |- restarting (if ?c then _ else _) => destruct c; [|exact H1] end.
    destruct H1 as (G1 & G2 & G3 & G4).
    split; [exact G1|]. split; [exact G2|]. split; [exact G3|].
    unfold endedCount in *. cbn [onEventCalls set_onEventCalls set_pendingReset
                                   set_loopPending set_engine].
    rewrite filter_app, length_app, G4. reflexivity.
Qed.

Lemma tailCheck_never s :
  (endless s -> tailCheck s = s) /\ (restarting s -> tailCheck s = s).
Proof.
  unfold tailCheck. split.
  - intros (_ & _ & _ & -> & _). reflexivity.
  - intros (_ & -> & _). reflexivity.
Qed.

Lemma Process_never fuel n s s' dst :
  Process fuel s n = Ok (s', dst) ->
  (endless s -> endless s') /\ (restarting s -> restarting s').
Proof.
  revert s s' dst. induction n as [|n IH]; intros s s' dst Hrun; cbn [Process] in Hrun.
  - injection Hrun as <- _. split; exact id.
  - unfold frameStep in Hrun. inv_bind Hrun. destruct a as [s2 lr].
    inv_bind Ha. destruct a as [s1 lr1]. injection Ha as <- <-.
    inv_bind Hrun. destruct a as [s3 dst3]. injection Hrun as <- <-.
    destruct (frameAdvance_never _ _ _ _ Ha0) as [He Hr].
    destruct (tailCheck_never s1) as [Te Tr].
    destruct (IH _ _ _ Ha) as [He' Hr']. split; intros H0.
    + apply He'. rewrite (Te (He H0)). exact (He H0).
    + apply Hr'. rewrite (Tr (Hr H0)). exact (Hr H0).
Qed.

(** A score with a track that loops internally (a loop point with ticks
    after it) never ends: however many frames [Process] renders, the
    commands are not exhausted, playback has not ended, and the listener
    has received no event, neither [PlaybackEnded] nor [LoopCompleted]. *)
Theorem looping_track_never_ends (score : mml.Score) (engine : E) (sampleRate : Z)
  (opts : Options) (fuel n : nat) s' dst :
  existsb (fun tr => (tr.(mml.LoopIndex) >=? 0) && (tr.(mml.EndTick) >? tr.(mml.LoopTick)))
    score.(mml.Tracks) = true ->
  Process fuel (NewWithOptions score engine sampleRate opts) n = Ok (s', dst) ->
  s'.(commandExhausted) = false /\ s'.(playbackEndedFired) = false
  /\ s'.(onEventCalls) = [].
Proof.
  intros Hloop Hrun. destruct (Process_never _ _ _ _ _ Hrun) as [He _].
  destruct He as (_ & _ & _ & H1 & H2 & H3); [|repeat split; assumption].
  split; [|repeat split; reflexivity].
  cbn [trackState NewWithOptions]. rewrite <- Hloop.
  clear. induction (mml.Tracks score) as [|tr l IH]; [reflexivity|].
  cbn [map existsb]. rewrite IH. reflexivity.
Qed.

(** With whole-score looping enabled playback never ends: [Process]
    never marks the commands as exhausted and never emits
    [PlaybackEnded], whatever the score and the number of frames. *)
Theorem whole_score_loop_never_ends (score : mml.Score) (engine : E) (sampleRate : Z)
  (opts : Options) (fuel n : nat) s' dst :
  opts.(LoopWholeScore) = true ->
  Process fuel (NewWithOptions score engine sampleRate opts) n = Ok (s', dst) ->
  s'.(commandExhausted) = false /\ s'.(playbackEndedFired) = false
  /\ endedCount s' = 0%nat.
Proof.
  intros Hloop Hrun. destruct (Process_never _ _ _ _ _ Hrun) as [_ Hr].
  destruct Hr as (_ & H1); [|exact H1].
  split; [exact Hloop|]. repeat split; reflexivity.
Qed.

End Unending.

(** ** Text that the preprocessor and the loop expansion leave alone *)

Section PlainText.
Import GoStr mml props.

Lemma append_cons (c : ascii) (s t : string) : String c s +:+ t = String c (s +:+ t).
Proof. reflexivity. Qed.

Lemma append_nil_l (s : string) : "" +:+ s = s.
Proof. reflexivity. Qed.

Lemma append_nil_r (s : string) : s +:+ "" = s.
Proof.
  induction s as [|c s IH]; [reflexivity|]. rewrite append_cons, IH. reflexivity.
Qed.

Lemma append_assoc (a b c : string) : (a +:+ b) +:+ c = a +:+ (b +:+ c).
Proof.
  induction a as [|x a IH]; [reflexivity|]. rewrite !append_cons, IH. reflexivity.
Qed.

Lemma append_byte (out : string) (s : string) (i : nat) :
  (i < len s)%nat ->
  (out +:+ String (byteAt s i) "") +:+ sliceFrom s (S i) = out +:+ sliceFrom s i.
Proof.
  intros Hi. rewrite append_assoc, append_cons, append_nil_l.
  rewrite <- sliceFrom_cons by assumption. reflexivity.
Qed.

Lemma sliceFrom_0 (s : string) : sliceFrom s 0 = s.
Proof.
  unfold sliceFrom, len. rewrite Nat.sub_0_r.
  induction s as [|c s IH]; [reflexivity|]. cbn. rewrite IH. reflexivity.
Qed.

Lemma eqb_free (c : ascii) (s : string) (i : nat) :
  free c s -> Ascii.eqb (byteAt s i) c = false.
Proof. intros Hf. apply Ascii.eqb_neq. apply Hf. Qed.

Lemma stripLoop_plain (src : string) (fuel i : nat) (out : string) :
  free "/" src -> (len src - i < fuel)%nat ->
  stripLoop fuel src i out = out +:+ sliceFrom src i.
Proof.
  intros Hf. revert i out. induction fuel as [|f IH]; intros i out Hlt; [lia|].
  cbn [stripLoop]. destruct (i <? len src)%nat eqn:Hi.
  - apply Nat.ltb_lt in Hi. rewrite (eqb_free "/" src i Hf), !andb_false_r.
    cbn [andb]. rewrite IH by lia. apply append_byte. exact Hi.
  - apply Nat.ltb_ge in Hi. rewrite sliceFrom_ge by assumption. symmetry. apply append_nil_r.
Qed.

Lemma preprocessLoop_plain (src : string) (st : preprocessorState) (fuel i : nat)
  (out : string) :
  free "#" src -> st.(macros) = ∅ -> st.(revOctave) = false ->
  (len src - i < fuel)%nat ->
  preprocessLoop fuel src i st out = (out +:+ sliceFrom src i, st).
Proof.
  intros Hf Hm Hr. revert i out. induction fuel as [|f IH]; intros i out Hlt; [lia|].
  cbn [preprocessLoop]. destruct (i <? len src)%nat eqn:Hi.
  - apply Nat.ltb_lt in Hi. rewrite (eqb_free "#" src i Hf).
    rewrite Hm, lookup_empty, Hr.
    rewrite bool_decide_eq_false_2 by (intros [x Hx]; discriminate).
    rewrite andb_false_r. cbn [andb].
    rewrite IH by lia. rewrite append_byte by assumption. reflexivity.
  - apply Nat.ltb_ge in Hi. rewrite sliceFrom_ge by assumption.
    rewrite append_nil_r. reflexivity.
Qed.

Lemma preprocess_text_kept (src : string) :
  free "/" src -> free "#" src ->
  stripComments src = src
  /\ preprocessInput src = mkPreprocessed src ∅.
Proof.
  intros Hs Hh.
  assert (Hstrip : stripComments src = src).
  { unfold stripComments. rewrite stripLoop_plain by (assumption || lia).
    rewrite append_nil_l. apply sliceFrom_0. }
  split; [exact Hstrip|].
  unfold preprocessInput. rewrite Hstrip. unfold preprocessStream.
  rewrite preprocessLoop_plain by (assumption || reflexivity || lia).
  rewrite append_nil_l, sliceFrom_0. reflexivity.
Qed.

(** The preprocessor on text without comments and directives: a source
    that holds no [/] and no [#] comes out of [preprocessInput] as it is,
    with no definitions. *)
Theorem preprocess_plain_text (src : string) :
  free "/" src -> free "#" src ->
  stripComments src = src
  /\ preprocessInput src = mkPreprocessed src ∅.
Proof. apply preprocess_text_kept. Qed.

Lemma parseExpanded_plain (src : string) (fuel i : nat) (out : string) :
  free "[" src -> free "]" src -> (len src - i < fuel)%nat ->
  parseExpanded fuel src i 0 out = Ok (out +:+ sliceFrom src i, Nat.max i (len src)).
Proof.
  intros Ho Hc. revert i out. induction fuel as [|f IH]; intros i out Hlt; [lia|].
  cbn [parseExpanded]. destruct (i <? len src)%nat eqn:Hi.
  - apply Nat.ltb_lt in Hi.
    rewrite (eqb_free "]" src i Hc), (eqb_free "[" src i Ho). cbn [negb].
    rewrite IH by lia. rewrite append_byte by assumption. do 2 f_equal. lia.
  - apply Nat.ltb_ge in Hi. cbn. rewrite sliceFrom_ge by assumption.
    rewrite append_nil_r. do 2 f_equal. lia.
Qed.

Lemma len_append (a b : string) : len (a +:+ b) = (len a + len b)%nat.
Proof.
  unfold len. induction a as [|x a IH]; [reflexivity|].
  rewrite append_cons. cbn [String.length]. rewrite IH. reflexivity.
Qed.

Lemma byteAt_append_l (a b : string) (i : nat) :
  (i < len a)%nat -> byteAt (a +:+ b) i = byteAt a i.
Proof.
  intros Hi. unfold byteAt. rewrite <- (append_correct1 a b i) by exact Hi. reflexivity.
Qed.

Lemma byteAt_append_r (a b : string) (i : nat) :
  byteAt (a +:+ b) (len a + i) = byteAt b i.
Proof.
  unfold byteAt, len. rewrite (append_correct2 a b i), Nat.add_comm. reflexivity.
Qed.

Lemma parseExpanded_unmatched (src rest : string) (fuel i : nat) (out : string) :
  free "[" src -> free "]" src -> (i <= len src)%nat -> (len src - i < fuel)%nat ->
  parseExpanded fuel (src +:+ String "]" rest) i 0 out = Fail "unmatched ']'".
Proof.
  intros Ho Hc. revert i out. induction fuel as [|f IH]; intros i out Hle Hlt; [lia|].
  cbn [parseExpanded]. rewrite len_append. change (len (String "]" rest)) with (S (len rest)).
  destruct (i <? len src + S (len rest))%nat eqn:Hi; [|apply Nat.ltb_ge in Hi; lia].
  destruct (Nat.eq_dec i (len src)) as [-> | Hne].
  - rewrite <- (Nat.add_0_r (len src)) at 1. rewrite byteAt_append_r. reflexivity.
  - rewrite byteAt_append_l by lia.
    rewrite (eqb_free "]" src i Hc), (eqb_free "[" src i Ho). cbn [negb].
    apply IH; lia.
Qed.

(** [expandLoops] on text without brackets returns the text unchanged;
    a closing bracket that no bracket opened is the error
    [unmatched ']'], whatever follows it. *)
Theorem expandLoops_plain_text (src : string) :
  free "[" src -> free "]" src ->
  expandLoops src = Ok src
  /\ forall rest, expandLoops (src +:+ String "]" rest) = Fail "unmatched ']'".
Proof.
  intros Ho Hc. split.
  - unfold expandLoops.
    rewrite parseExpanded_plain by (assumption || lia).
    cbn [mbind outcome_bind]. rewrite Nat.max_r by lia. rewrite Nat.eqb_refl.
    rewrite append_nil_l, sliceFrom_0. reflexivity.
  - intros rest. unfold expandLoops.
    rewrite parseExpanded_unmatched; [reflexivity | assumption | assumption | lia |].
    rewrite len_append. lia.
Qed.

(** [swapOctaveMarkers] exchanges [<] and [>]: applied twice it gives
    the text back, and it keeps the length of the text. *)
Theorem swapOctaveMarkers_involution (src : string) :
  swapOctaveMarkers (swapOctaveMarkers src) = src
  /\ len (swapOctaveMarkers src) = len src.
Proof.
  unfold swapOctaveMarkers, len. induction src as [|c s [IH1 IH2]]; [split; reflexivity|].
  cbn [mapB String.length]. rewrite IH1, IH2. split; [|reflexivity]. f_equal.
  destruct (Ascii.eqb_spec c "<") as [-> | H1]; [reflexivity|].
  destruct (Ascii.eqb_spec c ">") as [-> | H2]; [reflexivity|].
  apply Ascii.eqb_neq in H1, H2. rewrite H1, H2. reflexivity.
Qed.

(** *** Blank input *)






Section Blank.
Context {GM : GoMath}.


End Blank.

End PlainText.

(** ** Progress of the track parser *)

Section Progress.
Context {GM : GoMath}.
Import GoStr mml.

Lemma skipWhile_ge (p : ascii -> bool) (s : string) (i : nat) : (i <= skipWhile p s i)%nat.
Proof. unfold skipWhile. lia. Qed.

Lemma parseNumberOptional_next (s : string) (at_ : nat) (v : Z) (i : nat) :
  parseNumberOptional s at_ = Ok (v, i) -> (at_ <= i)%nat.
Proof.
  unfold parseNumberOptional. pose proof (skipWhile_ge isDigit s at_).
  repeat case_match; intros [= <- <-] || discriminate; assumption.
Qed.

Lemma parseNumberDefault_next (s : string) (at_ : nat) (def v : Z) (i : nat) :
  parseNumberDefault s at_ def = Ok (v, i) -> (at_ <= i)%nat.
Proof.
  unfold parseNumberDefault. intros Hrun. inv_bind Hrun. destruct a as [w j].
  apply parseNumberOptional_next in Ha. case_match; injection Hrun as <- <-; exact Ha.
Qed.

Lemma parseSignedNumberDefault_next (s : string) (at_ : nat) (def v : Z) (i : nat) :
  parseSignedNumberDefault s at_ def = Ok (v, i) -> (at_ <= i)%nat.
Proof.
  unfold parseSignedNumberDefault. destruct (len s <=? at_)%nat; [intros [= <- <-]; lia|].
  destruct (if Ascii.eqb (byteAt s at_) "+" then _ else _) as [sign j] eqn:Hs.
  assert (Hj : (at_ <= j)%nat) by (repeat case_match; injection Hs as <- <-; lia).
  intros Hrun. inv_bind Hrun. destruct a as [w k].
  apply parseNumberOptional_next in Ha. case_match; injection Hrun as <- <-; lia.
Qed.

Lemma parseLengthToken_next (s : string) (at_ : nat) (res dl : Z) (v : Z) (i : nat) :
  parseLengthToken s at_ res dl = Ok (v, i) -> (at_ <= i)%nat.
Proof.
  unfold parseLengthToken. intros Hrun. inv_bind Hrun. destruct a as [w j].
  apply parseNumberOptional_next in Ha. injection Hrun as <- <-.
  pose proof (skipWhile_ge (Ascii.eqb ".") s j). lia.
Qed.

Lemma tieLoop_next (fuel : nat) (s : string) (res dl dur : Z) (i : nat) (v : Z) (j : nat) :
  tieLoop fuel s res dl dur i = Ok (v, j) -> (i <= j)%nat.
Proof.
  revert dur i. induction fuel as [|f IH]; intros dur i Hrun; [discriminate|].
  cbn [tieLoop] in Hrun. case_match.
  - inv_bind Hrun. destruct a as [extra next]. apply parseLengthToken_next in Ha.
    apply IH in Hrun. lia.
  - injection Hrun as <- <-. lia.
Qed.

Lemma parseLengthWithTie_next (s : string) (at_ : nat) (st : parseState) (v : Z) (i : nat) :
  parseLengthWithTie s at_ st = Ok (v, i) -> (at_ <= i)%nat.
Proof.
  unfold parseLengthWithTie. intros Hrun. inv_bind Hrun. destruct a as [d j].
  apply parseLengthToken_next in Ha. apply tieLoop_next in Hrun. lia.
Qed.

Lemma argLoop_next (parse : string -> nat -> Z -> outcome (Z * nat)) (fuel : nat)
  (s : string) (next : nat) (values : list Z) (vs : list Z) (j : nat) :
  (forall s a d v i, parse s a d = Ok (v, i) -> (a <= i)%nat) ->
  argLoop parse fuel s next values = Ok (vs, j) -> (next <= j)%nat.
Proof.
  intros Hp. revert next values. induction fuel as [|f IH]; intros next values Hrun;
    [discriminate|].
  cbn [argLoop] in Hrun. case_match.
  - inv_bind Hrun. destruct a as [arg n2]. apply Hp in Ha. apply IH in Hrun. lia.
  - injection Hrun as <- <-. lia.
Qed.

Lemma argLoopBreak_next (fuel : nat) (s : string) (next : nat) (values : list Z) :
  (next <= (argLoopBreak fuel s next values).2)%nat.
Proof.
  revert next values. induction fuel as [|f IH]; intros next values; [cbn; lia|].
  cbn [argLoopBreak]. case_match; [|cbn; lia].
  destruct (parseNumberDefault s (S next) 0) as [[arg n2]| | |] eqn:Hn; try (cbn; lia).
  apply parseNumberDefault_next in Hn. specialize (IH n2 (values ++ [arg])%list). lia.
Qed.

Lemma parseNote_next (s : string) (at_ : nat) (st : parseState) ev dur (next : nat) :
  parseNote s at_ st = Ok (ev, dur, next) -> (at_ < next)%nat.
Proof.
  unfold parseNote. cbv zeta. intros Hrun. inv_bind Hrun. destruct a as [d n].
  injection Hrun as _ _ <-. apply parseLengthWithTie_next in Ha.
  pose proof (skipWhile_ge isAccidental s (S at_)). lia.
Qed.

Lemma parseNoteByNumber_next (s : string) (at_ : nat) (st : parseState) ev dur (next : nat) :
  parseNoteByNumber s at_ st = Ok (ev, dur, next) -> (at_ < next)%nat.
Proof.
  unfold parseNoteByNumber. intros Hrun. inv_bind Hrun. destruct a as [nn n0].
  inv_bind Hrun. destruct a as [d n]. injection Hrun as _ _ <-.
  apply parseNumberDefault_next in Ha. apply parseLengthWithTie_next in Ha0. lia.
Qed.

(** A table word starts with a byte of a word. *)
Lemma slice_head (s : string) (i k : nat) :
  (i < len s)%nat -> exists t, slice s i (i + S k) = String (byteAt s i) t.
Proof.
  unfold slice, byteAt, len. replace (i + S k - i)%nat with (S k) by lia. revert i.
  induction s as [|c s IH]; intros i Hi; cbn in Hi; [lia|].
  destruct i as [|i].
  - cbn. eexists. reflexivity.
  - cbn. apply IH. lia.
Qed.

Lemma lower_word_byte (c : ascii) :
  lower c = "n"%char \/ lower c = "_"%char \/ lower c = "@"%char -> isWordByte c = true.
Proof.
  destruct c as [[] [] [] [] [] [] [] []]; vm_compute;
    intros [H | [H | H]]; first [reflexivity | discriminate].
Qed.

Lemma startsWithWord_head (s : string) (i : nat) (w0 : ascii) (w : string) :
  startsWithWord s i (String w0 w) = true ->
  (i < len s)%nat /\ lower (byteAt s i) = lower w0.
Proof.
  unfold startsWithWord. change (len (String w0 w)) with (S (len w)).
  destruct (len s <? i + S (len w))%nat eqn:Hl; [discriminate|].
  apply Nat.ltb_ge in Hl. intros Heq. split; [lia|].
  destruct (slice_head s i (len w)) as [t Ht]; [lia|]. rewrite Ht in Heq.
  cbn [mapB] in Heq. apply String.eqb_eq in Heq. injection Heq as Hc _. exact Hc.
Qed.

Lemma isTableWord_next (s : string) (i : nat) :
  isTableWord s i = true -> (i < skipWhile isWordByte s i)%nat.
Proof.
  unfold isTableWord. intros Hw.
  assert (Hb : (i < len s)%nat /\ isWordByte (byteAt s i) = true).
  { cbn [existsb] in Hw.
    repeat (apply orb_true_iff in Hw; destruct Hw as [Hw | Hw];
            [apply startsWithWord_head in Hw; destruct Hw as [Hi Hc];
             split; [exact Hi|]; apply lower_word_byte; rewrite Hc; vm_compute; tauto|]).
    discriminate. }
  destruct Hb as [Hi Hb]. unfold skipWhile. rewrite sliceFrom_cons by assumption.
  cbn [spanLen]. rewrite Hb. lia.
Qed.

Ltac invert_step :=
  repeat match goal with
    | H : Fail _ = Ok _ |- _ => discriminate H
    | H : Panic _ = Ok _ |- _ => discriminate H
    | H : Fuel = Ok _ |- _ => discriminate H
    | H : Ok _ = Ok _ |- _ => injection H as <-
    | H : (_, _) = (_, _) |- _ => injection H; clear H; intros; subst
    | H : ?x = (_, _) |- _ => is_var x; subst x
    | H : (_ ≫= _) = Ok _ |- _ =>
        let r := fresh "r" in let Hr := fresh "Hr" in
        apply bind_Ok in H; destruct H as (r & Hr & H)
    | H : (if ?c then _ else _) = _ |- _ => destruct c eqn:?
    | H : (match ?p with _ => _ end) = _ |- _ => destruct p eqn:?
    end.

Ltac next_facts :=
  repeat match goal with
    | H : parseNumberDefault _ _ _ = Ok (_, _) |- _ => apply parseNumberDefault_next in H
    | H : parseSignedNumberDefault _ _ _ = Ok (_, _) |- _ =>
        apply parseSignedNumberDefault_next in H
    | H : parseLengthToken _ _ _ _ = Ok (_, _) |- _ => apply parseLengthToken_next in H
    | H : parseLengthWithTie _ _ _ = Ok (_, _) |- _ => apply parseLengthWithTie_next in H
    | H : parseNote _ _ _ = Ok (_, _, _) |- _ => apply parseNote_next in H
    | H : parseNoteByNumber _ _ _ = Ok (_, _, _) |- _ => apply parseNoteByNumber_next in H
    | H : argLoop parseNumberDefault _ _ _ _ = Ok (_, _) |- _ =>
        apply argLoop_next in H; [|exact parseNumberDefault_next]
    | H : argLoop parseSignedNumberDefault _ _ _ _ = Ok (_, _) |- _ =>
        apply argLoop_next in H; [|exact parseSignedNumberDefault_next]
    | H : argLoopBreak ?f ?s ?n ?v = (_, _) |- _ =>
        let F := fresh "F" in
        pose proof (argLoopBreak_next f s n v) as F; rewrite H in F; cbn [snd] in F; clear H
    | H : isTableWord _ _ = true |- _ => apply isTableWord_next in H
    end.

Lemma step_progress (cfg : ParserConfig.t) (opts : parserOptions)
  (expanded : string) (a a' : trackAcc) :
  parseTrackStep cfg opts expanded a = Ok a' ->
  (a.(pos) < a'.(pos))%nat
  /\ exists new, a'.(evs) = (a.(evs) ++ new)%list /\ (length new <= 1)%nat.
Proof.
  unfold parseTrackStep, stepPercent, stepAt, stepDefault, parseWordToken.
  cbv zeta. intros Hrun. invert_step; next_facts;
    pose proof (skipWhile_ge isTailByte expanded) as Htail;
    pose proof (skipWhile_ge (fun c => isAlpha (lower c)) expanded) as Halpha;
    (split;
     [ cbn [pos]; change (len guillemetL) with 2%nat; change (len guillemetR) with 2%nat;
       repeat match goal with
         | |- context [skipWhile isTailByte expanded ?n] =>
             pose proof (Htail n); generalize dependent (skipWhile isTailByte expanded n);
             intros
         end;
       try (specialize (Halpha (S (pos a)))); lia
     | cbn [evs]; first [ eexists; split; [reflexivity | cbn; lia]
                        | exists []; rewrite app_nil_r; split; [reflexivity | cbn; lia] ] ]).
Qed.

(** One round of the loop of [parseTrack] that succeeds consumes at
    least one byte of the text, and it only appends to the events parsed
    so far, one event at most. *)
Theorem parse_step_progress (cfg : ParserConfig.t) (opts : parserOptions)
  (expanded : string) (a a' : trackAcc) :
  parseTrackStep cfg opts expanded a = Ok a' ->
  (a.(pos) < a'.(pos))%nat
  /\ exists new, a'.(evs) = (a.(evs) ++ new)%list /\ (length new <= 1)%nat.
Proof. apply step_progress. Qed.

(** *** Termination *)



















End Progress.

(** ** Tables *)

Section TableOps.
Import sequencer.

Lemma repeat_lookup {A} (v : A) (n r : nat) : (r < n)%nat -> repeat v n !! r = Some v.
Proof.
  revert r. induction n as [|n IH]; intros r Hr; [lia|].
  destruct r as [|r]; [reflexivity|]. cbn. apply IH. lia.
Qed.

Lemma stretched_lookup (l : list Z) (n k r : nat) (v : Z) :
  l !! k = Some v -> (r < n)%nat ->
  flat_map (fun v => repeat v n) l !! (k * n + r)%nat = Some v.
Proof.
  revert k. induction l as [|x l IH]; intros k Hk Hr; [discriminate|].
  cbn [flat_map]. destruct k as [|k].
  - injection Hk as ->. cbn [Nat.mul Nat.add].
    rewrite lookup_app_l by (rewrite repeat_length; exact Hr). apply repeat_lookup. exact Hr.
  - rewrite lookup_app_r by (rewrite repeat_length; lia).
    rewrite repeat_length. replace (S k * n + r - n)%nat with (k * n + r)%nat by lia.
    apply IH; assumption.
Qed.

Lemma stretched_length (l : list Z) (n : nat) :
  length (flat_map (fun v => repeat v n) l) = (length l * n)%nat.
Proof.
  induction l as [|x l IH]; [reflexivity|].
  cbn [flat_map length]. rewrite length_app, repeat_length, IH. lia.
Qed.

(** The operations after a table's braces ([applyTableOps]): a stretch
    factor above 1 repeats every value that many times, in place; then
    every value is multiplied by the magnification and the offset is
    added, unless they are 1 and 0. *)
Theorem table_ops_values (values : list Z) (stretch magnify offset : Z) :
  let n := Z.to_nat (Z.max 1 stretch) in
  let out := applyTableOps values stretch magnify offset in
  length out = (length values * n)%nat
  /\ forall (k r : nat) (v : Z),
      values !! k = Some v -> (r < n)%nat ->
      out !! (k * n + r)%nat
      = Some (if (magnify =? 1) && (offset =? 0) then v else v ⊠ magnify ⊞ offset).
Proof.
  cbv zeta. unfold applyTableOps.
  set (n := Z.to_nat (Z.max 1 stretch)).
  set (st := if stretch >? 1 then flat_map (fun v => repeat v (Z.to_nat stretch)) values
             else values).
  assert (Hst : length st = (length values * n)%nat
                /\ forall k r v, values !! k = Some v -> (r < n)%nat ->
                                 st !! (k * n + r)%nat = Some v).
  { unfold st, n. destruct (stretch >? 1) eqn:Hs.
    - replace (Z.max 1 stretch) with stretch by lia. split.
      + apply stretched_length.
      + intros k r v. apply stretched_lookup.
    - replace (Z.max 1 stretch) with 1 by lia. change (Z.to_nat 1) with 1%nat. split.
      + lia.
      + intros k r v Hk Hr. replace (k * 1 + r)%nat with k by lia. exact Hk. }
  destruct Hst as [Hlen Hget].
  destruct (magnify =? 1) eqn:Hm; destruct (offset =? 0) eqn:Ho; cbn [negb orb andb].
  - split; [exact Hlen | exact Hget].
  - split; [rewrite length_map; exact Hlen|]. intros k r v Hk Hr.
    rewrite list_lookup_fmap, (Hget k r v Hk Hr). reflexivity.
  - split; [rewrite length_map; exact Hlen|]. intros k r v Hk Hr.
    rewrite list_lookup_fmap, (Hget k r v Hk Hr). reflexivity.
  - split; [rewrite length_map; exact Hlen|]. intros k r v Hk Hr.
    rewrite list_lookup_fmap, (Hget k r v Hk Hr). reflexivity.
Qed.

End TableOps.

Section TableIndex.
Context {E : Type} {VE : VoiceEngine E} {GM : GoMath}.
Import sequencer.

(** The index into a table envelope ([sampleTable]) when no frame rate
    is set: the ticks since the table started, divided by a quarter of
    the resolution times the table's step.  Up to the start tick the
    index is 0; after it, a resolution below 4 ticks makes the sequencer
    panic with a division by zero. *)
Theorem table_index_by_resolution (s : Sequencer E) (rt : runtimeState) (kind : string)
  (eventTick : Z) :
  rt.(fpsRate) <= 0 -> s.(score).(mml.Definitions) !! "FPS" = None ->
  let start := default 0 (rt.(tableStart) !! kind) in
  let rate := Z.max 1 (default 0 (rt.(tableRate) !! kind)) in
  let res := s.(score).(mml.Resolution) in
  (eventTick <= start -> tableIndex s rt kind eventTick = Ok 0)
  /\ (start < eventTick -> 0 <= res < 4 ->
      tableIndex s rt kind eventTick = Panic "integer divide by zero")
  /\ (0 <= start < eventTick -> eventTick <= GoInt.maxInt ->
      4 <= res <= GoInt.maxInt -> res / 4 * rate <= GoInt.maxInt ->
      tableIndex s rt kind eventTick = Ok ((eventTick - start) / (res / 4 * rate))).
Proof.
  intros Hfps Hdef start rate res. unfold tableIndex. cbv zeta.
  rewrite Hdef. fold start. fold res.
  destruct (fpsRate rt <=? 0) eqn:E1; [|lia].
  destruct (fpsRate rt >? 0) eqn:E2; [lia|].
  set (r0 := default 0 (tableRate rt !! kind)).
  assert (Hrate : (if r0 <=? 0 then 1 else r0) = rate).
  { unfold rate. fold r0. case_match; lia. }
  rewrite Hrate. unfold GoInt.maxInt. split; [|split].
  - intros Hle. destruct (eventTick >? start) eqn:E3; [lia|reflexivity].
  - intros Hlt Hres. destruct (eventTick >? start) eqn:E3; [|lia].
    unfold GoInt.divP.
    assert (Hq : res ⊘ 4 = 0).
    { rewrite div_small by (unfold GoInt.maxInt; lia). apply Z.div_small. lia. }
    rewrite Hq. unfold GoInt.mul. rewrite Z.mul_0_l. reflexivity.
  - intros Hlt Hmax Hres Hb. destruct (eventTick >? start) eqn:E3; [|lia].
    assert (Hr1 : 1 <= rate) by (unfold rate; lia).
    assert (Hq0 : 1 <= res / 4) by (apply Z.div_le_lower_bound; lia).
    rewrite (div_small res 4) by (unfold GoInt.maxInt; lia).
    rewrite mul_small by (unfold GoInt.inRange, GoInt.minInt, GoInt.maxInt; nia).
    rewrite sub_small by (unfold GoInt.inRange, GoInt.minInt, GoInt.maxInt; lia).
    unfold GoInt.divP. destruct (res / 4 * rate =? 0) eqn:E4; [nia|].
    rewrite div_small by (unfold GoInt.maxInt; nia). reflexivity.
Qed.

End TableIndex.

(** ** The calls a Note event makes *)

Section NoteOnRanges.
Context {E : Type} {VE : VoiceEngine E} {GM : GoMath}.
Import sequencer observe.

Lemma applyAmpControls_range (s : Sequencer (traced.t E)) (rt : runtimeState) (vel t : Z)
  (rt' : runtimeState) (vel' : Z) :
  applyAmpControls s rt vel t = Ok (rt', vel') -> 1 <= vel' <= 127.
Proof.
  unfold applyAmpControls. cbv zeta.
  destruct (if filterEnvOn rt then _ else _) as [rt1 cut].
  intros Hrun. inv_bind Hrun.
  apply (f_equal (fun o => match o with Ok (_, v) => v | _ => 0 end)) in Hrun.
  cbv beta iota in Hrun. rewrite <- Hrun. apply clampInt_range. lia.
Qed.

(** A Note event that is applied calls [NoteOn] last, with a note number
    of 0..127, a velocity of 1..127 and a pan of -64..64, whatever the
    transposition, the tables and the modulation are, and queues as last
    entry a note-off, not fired, for the voice [NoteOn] returned. *)
Theorem note_on_arguments_in_range (s : Sequencer (traced.t E)) (rt : runtimeState)
  (ev : mml.Event) (t : Z) (s' : Sequencer (traced.t E)) (rt' : runtimeState) :
  applyNote s rt ev t = Ok (s', rt') ->
  exists before note velocity pan program queue tick,
    callsOf s' = (before ++ [traced.CallNoteOn note velocity pan program])%list
    /\ 0 <= note <= 127 /\ 1 <= velocity <= 127 /\ -64 <= pan <= 64
    /\ rt'.(lastNote) = note
    /\ s'.(noteOffs) = (queue ++ [mkNoteOff tick rt'.(lastVoice) false])%list.
Proof.
  unfold applyNote.
  match goal with |- context [if ?c then ?x else s] => set (s1 := if c then x else s) end.
  clearbody s1. intros Hrun. cbv zeta in Hrun.
  repeat inv_bind Hrun. destruct a1 as [rt1 vel].
  apply applyAmpControls_range in Ha1.
  destruct (NoteOn _ _ _ _ _) as [e voiceID] eqn:En in Hrun.
  injection Hrun as <- <-.
  cbn [NoteOn traced.voiceEngine] in En.
  destruct (NoteOn _ _ _ _ _) as [e0 id0] in En. injection En as <- <-.
  unfold callsOf. cbn [engine set_engine set_noteOffs noteOffs traced.calls lastNote lastVoice
                         set_lastNote set_lastVoice].
  do 7 eexists. split; [reflexivity|].
  split; [apply clampInt_range; lia|]. split; [exact Ha1|].
  split; [apply clampInt_range; lia|]. split; reflexivity.
Qed.

End NoteOnRanges.

(** ** Key signatures *)

Section KeySignature.
Import GoStr mml props.

Lemma wellKeyed_insert (m : gmap ascii Z) (k : ascii) (v : Z) :
  wellKeyed m -> isNote k = true -> -1 <= v <= 1 -> wellKeyed (<[k := v]> m).
Proof.
  intros Hm Hk Hv c. destruct (decide (k = c)) as [<- | Hne].
  - rewrite lookup_insert_eq. split; [split; [intros _; exact Hk | intros _; eauto]|].
    intros w [= <-]. exact Hv.
  - rewrite lookup_insert_ne by exact Hne. apply Hm.
Qed.

Lemma wellKeyed_keySig0 : wellKeyed keySig0.
Proof.
  intros c. destruct c as [[] [] [] [] [] [] [] []]; vm_compute;
    (split;
     [ split; intros H;
       first [ reflexivity | eexists; reflexivity | destruct H; discriminate | discriminate ]
     | intros v H; first [ injection H as <-; split; discriminate | discriminate ] ]).
Qed.

Lemma wellKeyed_setKeys (keys : list ascii) (v : Z) (m : gmap ascii Z) :
  wellKeyed m -> forallb isNote keys = true -> -1 <= v <= 1 -> wellKeyed (setKeys keys v m).
Proof.
  unfold setKeys. revert m. induction keys as [|k keys IH]; intros m Hm Hk Hv; [exact Hm|].
  cbn [foldl]. cbn [forallb] in Hk. apply andb_true_iff in Hk. destruct Hk as [Hk Hks].
  apply IH; [apply wellKeyed_insert; assumption | exact Hks | exact Hv].
Qed.

Lemma wellKeyed_applySignToken (m : gmap ascii Z) (tok : string) :
  wellKeyed m -> wellKeyed (applySignToken m tok).
Proof.
  intros Hm. unfold applySignToken. cbv zeta.
  destruct (len (TrimSpace tok) <? 2)%nat; [exact Hm|].
  destruct (m !! byteAt (TrimSpace tok) 0) as [v|] eqn:Hn; [|exact Hm].
  assert (Hk : isNote (byteAt (TrimSpace tok) 0) = true).
  { apply (Hm (byteAt (TrimSpace tok) 0)). eauto. }
  repeat case_match; apply wellKeyed_insert; assumption || lia.
Qed.

Lemma lookupKey_table (key : string) (keys : list ascii) (v : Z) :
  lookupKey key keyTable = Some (keys, v) -> forallb isNote keys = true /\ -1 <= v <= 1.
Proof.
  unfold keyTable. cbn [lookupKey].
  repeat (case_match; [intros [= <- <-]; split; [reflexivity | lia]|]). discriminate.
Qed.

(** The key signature of [#SIGN] ([parseKeySignature]): whatever the
    definition holds, the signature has an entry for each of the seven
    note letters and for no other byte, and every entry is -1, 0 or 1;
    without the definition every entry is 0. *)
Theorem key_signature_shape (defs : gmap string string) :
  wellKeyed (parseKeySignature defs)
  /\ (defs !! "SIGN" = None -> parseKeySignature defs = keySig0).
Proof.
  split.
  - unfold parseKeySignature. cbv zeta.
    destruct (String.eqb _ ""); [exact wellKeyed_keySig0|].
    destruct (Contains _ ",").
    + generalize (SplitB (ToLower (TrimSpace (default "" (defs !! "SIGN")))) ",").
      intros toks. generalize wellKeyed_keySig0. generalize keySig0.
      induction toks as [|tok toks IH]; intros m Hm; [exact Hm|].
      cbn [foldl]. apply IH. apply wellKeyed_applySignToken. exact Hm.
    + destruct (lookupKey _ keyTable) as [[keys v]|] eqn:Hl; [|exact wellKeyed_keySig0].
      apply lookupKey_table in Hl. destruct Hl as [Hk Hv].
      apply wellKeyed_setKeys; [exact wellKeyed_keySig0 | exact Hk | exact Hv].
  - intros Hnone. unfold parseKeySignature. rewrite Hnone. reflexivity.
Qed.

End KeySignature.

(** ** The engine a module is routed to *)

Section EngineLookup.
Context {E : Type} {VE : VoiceEngine E}.

(** [MultiEngine.engine]: the engine registered for the module is
    taken first, the one of the default module second; only when both
    are missing another registered engine is taken.  What is returned
    is always a registered engine, and nothing is returned only when no
    engine is registered at all.  An engine is found under the module
    it was added for. *)
Theorem engine_lookup_order (m : multi.t E) (module : Z) :
  (forall p, m.(multi.engines) !! module = Some p -> multi.engine m module = Some p)
  /\ (forall p, m.(multi.engines) !! module = None ->
                m.(multi.engines) !! m.(multi.defaultMod) = Some p ->
                multi.engine m module = Some p)
  /\ (forall p, multi.engine m module = Some p -> exists k, m.(multi.engines) !! k = Some p)
  /\ (multi.engine m module = None <-> m.(multi.engines) = ∅)
  /\ forall p, multi.engine (multi.AddEngine m module p) module = Some p.
Proof.
  unfold multi.engine. split; [|split; [|split; [|split]]].
  - intros p ->. reflexivity.
  - intros p -> ->. reflexivity.
  - intros p. destruct (multi.engines m !! module) as [q|] eqn:Hq.
    { intros [= <-]. exists module. exact Hq. }
    destruct (multi.engines m !! multi.defaultMod m) as [q|] eqn:Hd.
    { intros [= <-]. exists (multi.defaultMod m). exact Hd. }
    destruct (map_to_list (multi.engines m)) as [|[k q] l] eqn:Hl; [discriminate|].
    cbn. intros [= <-]. exists k. apply elem_of_map_to_list. rewrite Hl. left.
  - destruct (multi.engines m !! module) as [q|] eqn:Hq.
    { split; [discriminate|]. intros He. rewrite He, lookup_empty in Hq. discriminate Hq. }
    destruct (multi.engines m !! multi.defaultMod m) as [q|] eqn:Hd.
    { split; [discriminate|]. intros He. rewrite He, lookup_empty in Hd. discriminate Hd. }
    destruct (map_to_list (multi.engines m)) as [|[k q] l] eqn:Hl.
    + split; [|reflexivity]. intros _. apply map_to_list_empty_iff. exact Hl.
    + split; [discriminate|]. intros He. rewrite He, map_to_list_empty in Hl.
      discriminate Hl.
  - intros p. cbn. rewrite lookup_insert_eq. reflexivity.
Qed.

End EngineLookup.

(** ** What a loop block expands to *)

Section LoopBlocks.
Import GoStr mml props.

Lemma free_cons (x c : ascii) (r : string) :
  free x (String c r) -> Ascii.eqb c x = false /\ free x r.
Proof.
  intros Hf. split.
  - apply Ascii.eqb_neq. exact (Hf 0%nat).
  - intros i. exact (Hf (S i)).
Qed.

Lemma append_snoc (X : string) (c : ascii) (tail : string) :
  X +:+ String c tail = (X +:+ String c "") +:+ tail.
Proof. rewrite append_assoc, append_cons, append_nil_l. reflexivity. Qed.

Lemma len_cons (c : ascii) (s : string) : len (String c s) = S (len s).
Proof. reflexivity. Qed.

Lemma len_snoc (X : string) (c : ascii) : len (X +:+ String c "") = S (len X).
Proof. rewrite len_append. cbn. lia. Qed.

Lemma byteAt_here (X : string) (c : ascii) (tail : string) :
  byteAt (X +:+ String c tail) (len X) = c.
Proof. rewrite <- (Nat.add_0_r (len X)). rewrite byteAt_append_r. reflexivity. Qed.

Lemma here_lt (X : string) (c : ascii) (tail : string) :
  (len X <? len (X +:+ String c tail))%nat = true.
Proof. apply Nat.ltb_lt. rewrite len_append. cbn. lia. Qed.

Lemma sliceFrom_append (X tail : string) : sliceFrom (X +:+ tail) (len X) = tail.
Proof.
  induction X as [|c X IH]; [apply sliceFrom_0|].
  rewrite append_cons. unfold sliceFrom, len in *. cbn. exact IH.
Qed.

Lemma slice_one (X : string) (c : ascii) (tail : string) :
  slice (X +:+ String c tail) (len X) (S (len X)) = String c "".
Proof.
  unfold slice. replace (S (len X) - len X)%nat with 1%nat by lia.
  induction X as [|x X IH]; [cbn; destruct tail; reflexivity|].
  rewrite append_cons. cbn. exact IH.
Qed.

(** [parseLoopBody] over bytes that are no bracket and no break. *)
Lemma parseLoopBody_scan (body : string) :
  forall (X tail : string) (k : nat) (depth : Z) (pre post : string) (breakHit : bool),
    free "[" body -> free "]" body -> free "|" body ->
    parseLoopBody (len body + k) (X +:+ body +:+ tail) (len X) depth pre post breakHit
    = parseLoopBody k ((X +:+ body) +:+ tail) (len (X +:+ body)) depth
        (if breakHit then pre else pre +:+ body)
        (if breakHit then post +:+ body else post) breakHit.
Proof.
  induction body as [|c r IH]; intros X tail k depth pre post breakHit Ho Hc Hb.
  - cbn [len String.length Nat.add]. rewrite append_nil_l, !append_nil_r.
    destruct breakHit; reflexivity.
  - apply free_cons in Ho, Hc, Hb. destruct Ho as [Ho Ho'], Hc as [Hc Hc'], Hb as [Hb Hb'].
    change (len (String c r) + k)%nat with (S (len r + k)).
    cbn [parseLoopBody]. rewrite append_cons, here_lt, byteAt_here, Ho, Hb, Hc.
    cbn [andb]. rewrite (append_snoc X c (r +:+ tail)), <- len_snoc with (c := c).
    destruct breakHit; rewrite IH by assumption;
      rewrite ?(append_assoc X), ?(append_assoc pre), ?(append_assoc post),
        ?append_cons, ?append_nil_l; reflexivity.
Qed.

(** The break of a loop at depth 1. *)
Lemma parseLoopBody_break (X tail : string) (k : nat) (pre post : string) (breakHit : bool) :
  parseLoopBody (S k) (X +:+ String "|" tail) (len X) 1 pre post breakHit
  = parseLoopBody k ((X +:+ "|") +:+ tail) (len (X +:+ "|")) 1 pre post true.
Proof.
  cbn [parseLoopBody]. rewrite here_lt, byteAt_here. cbn [Ascii.eqb Bool.eqb andb Z.eqb Pos.eqb].
  rewrite (append_snoc X "|" tail), len_snoc. reflexivity.
Qed.

(** The end of a loop. *)
Lemma parseLoopBody_close (X tail : string) (k : nat) (depth : Z) (pre post : string)
  (breakHit : bool) :
  parseLoopBody (S k) (X +:+ String "]" tail) (len X) depth pre post breakHit
  = '(repeat, next) ← parseNumberDefault ((X +:+ "]") +:+ tail) (len (X +:+ "]")) 2;
    let repeat := if repeat <? 1 then 1 else repeat in
    if breakHit
    then Ok (repeatStr (Z.to_nat (repeat - 1)) pre +:+ post, next)
    else Ok (repeatStr (Z.to_nat repeat) pre, next).
Proof.
  cbn [parseLoopBody]. rewrite here_lt, byteAt_here. cbn [Ascii.eqb Bool.eqb andb].
  rewrite (append_snoc X "]" tail), len_snoc. reflexivity.
Qed.

Lemma spanLen_stop (p : ascii -> bool) (s : string) :
  p (byteAt s 0) = false -> spanLen p s = 0%nat.
Proof. destruct s as [|c r]; [reflexivity|]. cbn. intros ->. reflexivity. Qed.

(** No count after the bracket: the default. *)
Lemma parseNumberDefault_none (X tail : string) (def : Z) :
  isDigit (byteAt tail 0) = false ->
  parseNumberDefault (X +:+ tail) (len X) def = Ok (def, len X).
Proof.
  intros Hd. unfold parseNumberDefault, parseNumberOptional, skipWhile.
  rewrite sliceFrom_append, (spanLen_stop _ _ Hd), Nat.add_0_r, Nat.eqb_refl.
  reflexivity.
Qed.

Lemma Atoi_digit (d : ascii) : isDigit d = true -> Atoi (String d "") = Some (digitVal d).
Proof.
  destruct d as [[] [] [] [] [] [] [] []]; intros Hd; try discriminate Hd; reflexivity.
Qed.

Lemma digitVal_range (d : ascii) : isDigit d = true -> 0 <= digitVal d <= 9.
Proof.
  destruct d as [[] [] [] [] [] [] [] []]; intros Hd; try discriminate Hd; vm_compute; split; discriminate.
Qed.

Lemma count_of_digit (d : ascii) :
  (if digitVal d <? 1 then 1 else digitVal d) = Z.max 1 (digitVal d).
Proof. destruct (digitVal d <? 1) eqn:Hlt; lia. Qed.

(** A count of one digit. *)
Lemma parseNumberDefault_digit (X : string) (d : ascii) (tail : string) (def : Z) :
  isDigit d = true -> isDigit (byteAt tail 0) = false ->
  parseNumberDefault (X +:+ String d tail) (len X) def
  = Ok (digitVal d, S (len X)).
Proof.
  intros Hd Ht. unfold parseNumberDefault, parseNumberOptional, skipWhile.
  rewrite sliceFrom_append. cbn [spanLen]. rewrite Hd, (spanLen_stop _ _ Ht).
  replace (len X + 1)%nat with (S (len X)) by lia.
  replace (len X =? S (len X))%nat with false by (symmetry; apply Nat.eqb_neq; lia).
  rewrite slice_one, (Atoi_digit d Hd). cbn [mbind outcome_bind].
  destruct (digitVal_range d Hd) as [H0 _].
  replace (digitVal d =? -1) with false by (symmetry; apply Z.eqb_neq; lia).
  reflexivity.
Qed.

(** [parseExpanded] over bytes that are no bracket. *)
Lemma parseExpanded_scan (text : string) :
  forall (X tail : string) (k : nat) (depth : Z) (out : string),
    free "[" text -> free "]" text ->
    parseExpanded (len text + k) (X +:+ text +:+ tail) (len X) depth out
    = parseExpanded k ((X +:+ text) +:+ tail) (len (X +:+ text)) depth (out +:+ text).
Proof.
  induction text as [|c r IH]; intros X tail k depth out Ho Hc.
  - cbn [len String.length Nat.add]. rewrite append_nil_l, !append_nil_r. reflexivity.
  - apply free_cons in Ho, Hc. destruct Ho as [Ho Ho'], Hc as [Hc Hc'].
    change (len (String c r) + k)%nat with (S (len r + k)).
    cbn [parseExpanded]. rewrite append_cons, here_lt, byteAt_here, Ho, Hc.
    cbn [negb]. rewrite (append_snoc X c (r +:+ tail)), <- len_snoc with (c := c).
    rewrite IH by assumption.
    rewrite ?(append_assoc X), ?(append_assoc out), ?append_cons, ?append_nil_l.
    reflexivity.
Qed.

Lemma parseExpanded_open (X tail : string) (k : nat) (out : string) :
  parseExpanded (S k) (X +:+ String "[" tail) (len X) 0 out
  = '(body, next) ← parseLoopBody (2 * len ((X +:+ "[") +:+ tail) + 2) ((X +:+ "[") +:+ tail)
                      (len (X +:+ "[")) 1 "" "" false;
    parseExpanded k ((X +:+ "[") +:+ tail) next 0 (out +:+ body).
Proof.
  cbn [parseExpanded]. rewrite here_lt, byteAt_here. cbn [Ascii.eqb Bool.eqb negb].
  rewrite (append_snoc X "[" tail), len_snoc. reflexivity.
Qed.

Lemma parseExpanded_end (X : string) (k : nat) (out : string) :
  parseExpanded (S k) X (len X) 0 out = Ok (out, len X).
Proof. cbn [parseExpanded]. rewrite Nat.ltb_irrefl. reflexivity. Qed.

(** One loop block in a text without other brackets: when the loop body
    read from [inner] gives [expansion] and ends after the count [cnt],
    the text expands to what is before the block, the expansion, and
    what is after it. *)
Lemma expandLoops_block (a inner cnt rest expansion : string) :
  free "[" a -> free "]" a -> free "[" rest -> free "]" rest ->
  (forall (X : string) (k : nat),
      parseLoopBody (len inner + S k) (X +:+ inner +:+ String "]" (cnt +:+ rest)) (len X) 1
        "" "" false
      = Ok (expansion, len (((X +:+ inner) +:+ "]") +:+ cnt))) ->
  expandLoops (a +:+ String "[" (inner +:+ String "]" (cnt +:+ rest)))
  = Ok (a +:+ expansion +:+ rest).
Proof.
  intros Hao Hac Hro Hrc Hbody. unfold expandLoops.
  set (T := inner +:+ String "]" (cnt +:+ rest)).
  set (Y := (((a +:+ "[") +:+ inner) +:+ "]") +:+ cnt).
  assert (Hopen : a +:+ String "[" T = (a +:+ "[") +:+ T) by apply append_snoc.
  assert (Hrest : (a +:+ "[") +:+ T = (Y +:+ rest) +:+ "").
  { unfold Y, T. rewrite append_nil_r, !append_assoc, !append_cons, !append_nil_l.
    reflexivity. }
  assert (Hlen : len (a +:+ String "[" T)
                 = (len a + S (len inner + S (len cnt + len rest)))%nat).
  { unfold T. repeat (rewrite len_append || rewrite len_cons). reflexivity. }
  rewrite Hlen.
  replace (len a + S (len inner + S (len cnt + len rest)) + 1)%nat
    with (len a + S (len rest + S (S (len inner + len cnt))))%nat by lia.
  pose proof (parseExpanded_scan a "" (String "[" T)
                (S (len rest + S (S (len inner + len cnt)))) 0 "" Hao Hac) as Hscan.
  rewrite !append_nil_l in Hscan. change (len "") with 0%nat in Hscan.
  rewrite Hscan, parseExpanded_open. clear Hscan.
  rewrite <- Hopen, Hlen, Hopen.
  replace (2 * (len a + S (len inner + S (len cnt + len rest))) + 2)%nat
    with (len inner + S (2 * len a + len inner + 2 * len cnt + 2 * len rest + 5))%nat by lia.
  rewrite Hbody. cbn [mbind outcome_bind]. fold Y.
  rewrite Hrest, append_nil_r.
  pose proof (parseExpanded_scan rest Y "" (S (S (len inner + len cnt))) 0
                (a +:+ expansion) Hro Hrc) as Hscan.
  rewrite append_nil_r in Hscan at 1. rewrite Hscan, append_nil_r, parseExpanded_end.
  cbn [mbind outcome_bind]. rewrite <- Hlen, Hopen, Hrest, append_nil_r, Nat.eqb_refl.
  rewrite append_assoc. reflexivity.
Qed.

(** One loop block in a text without other brackets: the text in the
    block, which has no bracket and no break, is repeated as often as
    the count after the block says, twice when there is no count and
    once for a count of 0; with a break in the block the text before
    the break is repeated one time less, followed by the text after
    the break.  A text that ends inside a block is an error. *)
Theorem loop_block_expansion (a body pre post rest : string) (d : ascii) :
  free "[" a -> free "]" a -> free "[" rest -> free "]" rest ->
  free "[" body -> free "]" body -> free "|" body ->
  free "[" pre -> free "]" pre -> free "|" pre ->
  free "[" post -> free "]" post -> free "|" post ->
  isDigit (byteAt rest 0) = false -> isDigit d = true ->
  let n := Z.to_nat (Z.max 1 (digitVal d)) in
  expandLoops (a +:+ "[" +:+ body +:+ "]" +:+ rest) = Ok (a +:+ body +:+ body +:+ rest)
  /\ expandLoops (a +:+ "[" +:+ body +:+ "]" +:+ String d rest)
     = Ok (a +:+ repeatStr n body +:+ rest)
  /\ expandLoops (a +:+ "[" +:+ pre +:+ "|" +:+ post +:+ "]" +:+ String d rest)
     = Ok (a +:+ (repeatStr (n - 1) pre +:+ post) +:+ rest)
  /\ expandLoops (a +:+ "[" +:+ body) = Fail "unclosed loop block".
Proof.
  intros Hao Hac Hro Hrc Hbo Hbc Hbb Hpo Hpc Hpb Hqo Hqc Hqb Hrd Hd n.
  rewrite !append_cons, !append_nil_l.
  split; [|split; [|split]].
  - change (String "]" rest) with (String "]" ("" +:+ rest)).
    rewrite (expandLoops_block a body "" rest (body +:+ body)); try assumption.
    + rewrite append_assoc. reflexivity.
    + intros X k.
      rewrite (parseLoopBody_scan body X _ (S k) 1 "" "" false Hbo Hbc Hbb).
      rewrite parseLoopBody_close, append_nil_l.
      rewrite (parseNumberDefault_none _ rest 2 Hrd). cbn [mbind outcome_bind].
      change (Z.to_nat (if 2 <? 1 then 1 else 2)) with 2%nat. cbn [repeatStr].
      rewrite !append_nil_r. reflexivity.
  - change (String "]" (String d rest)) with (String "]" (String d "" +:+ rest)).
    rewrite (expandLoops_block a body (String d "") rest (repeatStr n body)); try assumption.
    + reflexivity.
    + intros X k.
      rewrite (parseLoopBody_scan body X _ (S k) 1 "" "" false Hbo Hbc Hbb).
      rewrite parseLoopBody_close, append_nil_l. rewrite append_cons, append_nil_l.
      rewrite (parseNumberDefault_digit _ d rest 2 Hd Hrd). cbn [mbind outcome_bind].
      rewrite !len_snoc. cbv zeta. rewrite (count_of_digit d). reflexivity.
  - change (String "]" (String d rest)) with (String "]" (String d "" +:+ rest)).
    rewrite <- (append_cons "|" post), <- (append_assoc pre).
    rewrite (expandLoops_block a (pre +:+ String "|" post) (String d "") rest
               (repeatStr (n - 1) pre +:+ post)); try assumption.
    + reflexivity.
    + intros X k. rewrite len_append, len_cons, append_assoc, append_cons.
      replace (len pre + S (len post) + S k)%nat with (len pre + S (len post + S k))%nat
        by lia.
      rewrite (parseLoopBody_scan pre X _ (S (len post + S k)) 1 "" "" false Hpo Hpc Hpb).
      rewrite parseLoopBody_break, append_nil_l.
      rewrite (parseLoopBody_scan post _ _ (S k) 1 pre "" true Hqo Hqc Hqb).
      rewrite parseLoopBody_close, append_nil_l. rewrite append_cons, append_nil_l.
      rewrite (parseNumberDefault_digit _ d rest 2 Hd Hrd). cbn [mbind outcome_bind].
      cbv zeta. rewrite (count_of_digit d).
      replace (Z.to_nat (Z.max 1 (digitVal d) - 1)) with (n - 1)%nat by (unfold n; lia).
      f_equal. f_equal.
      rewrite !len_snoc, !len_append, !len_cons. cbn [len String.length]. lia.
  - unfold expandLoops.
    assert (Hlen : len (a +:+ String "[" body) = (len a + S (len body))%nat)
      by (rewrite len_append, len_cons; reflexivity).
    rewrite Hlen.
    replace (len a + S (len body) + 1)%nat with (len a + S (S (len body)))%nat by lia.
    pose proof (parseExpanded_scan a "" (String "[" body) (S (S (len body))) 0 "" Hao Hac)
      as Hscan.
    rewrite !append_nil_l in Hscan. change (len "") with 0%nat in Hscan.
    rewrite Hscan, parseExpanded_open. clear Hscan.
    rewrite <- (append_snoc a "[" body), Hlen, (append_snoc a "[" body).
    replace (2 * (len a + S (len body)) + 2)%nat
      with (len body + S (2 * len a + len body + 3))%nat by lia.
    pose proof (parseLoopBody_scan body (a +:+ "[") "" (S (2 * len a + len body + 3)) 1
                  "" "" false Hbo Hbc Hbb) as Hscan.
    rewrite append_nil_r in Hscan at 1. rewrite Hscan, append_nil_r.
    cbn [parseLoopBody]. rewrite Nat.ltb_irrefl. reflexivity.
Qed.
End LoopBlocks.

(** ** Splitting into sections and tracks *)

Section Splitting.
Import GoStr mml props.

Lemma concat_snoc (sep : string) (l : list string) (x y : string) :
  String.concat sep (l ++ [x; y])%list = String.concat sep (l ++ [x +:+ sep +:+ y])%list.
Proof.
  induction l as [|h t IH]; [reflexivity|].
  cbn [app]. destruct t as [|h' t'].
  - reflexivity.
  - cbn [app String.concat] in *. rewrite IH. reflexivity.
Qed.

Lemma snoc_not_empty (l : list string) (x : string) :
  (0 < length (l ++ [x]))%nat.
Proof. rewrite length_app. cbn. lia. Qed.

Lemma sliceFrom_split (s : string) :
  forall a i : nat, (a <= i)%nat -> (i <= len s)%nat ->
    sliceFrom s a = slice s a i +:+ sliceFrom s i.
Proof.
  unfold sliceFrom, slice, len.
  induction s as [|c s IH]; intros a i Hai Hi.
  - cbn in Hi. replace i with 0%nat by lia. replace a with 0%nat by lia. reflexivity.
  - destruct a as [|a].
    + destruct i as [|i]; [reflexivity|].
      cbn [String.length Nat.sub substring]. rewrite append_cons. f_equal.
      cbn in Hi. specialize (IH 0%nat i ltac:(lia) ltac:(lia)).
      rewrite !Nat.sub_0_r in IH. exact IH.
    + destruct i as [|i]; [lia|]. cbn in Hi.
      cbn [String.length Nat.sub substring]. apply IH; lia.
Qed.

Lemma splitLoop_joins (src : string) (sep : ascii) (fuel : nat) :
  forall (i : nat) (depth : Z) (start : nat) (parts : list string),
    (start <= i)%nat -> (len src - i < fuel)%nat ->
    String.concat (String sep "") (splitLoop fuel src sep i depth start parts)
    = String.concat (String sep "") (parts ++ [sliceFrom src start])%list
    /\ (0 < length (splitLoop fuel src sep i depth start parts))%nat.
Proof.
  induction fuel as [|f IH]; intros i depth start parts Hs Hlt; [lia|].
  cbn [splitLoop]. destruct (i <? len src)%nat eqn:Hi; [|split; [reflexivity | apply snoc_not_empty]].
  apply Nat.ltb_lt in Hi.
  destruct (Ascii.eqb (byteAt src i) "["); [apply IH; lia|].
  destruct (Ascii.eqb (byteAt src i) "]"); [apply IH; lia|].
  destruct (Ascii.eqb (byteAt src i) sep) eqn:Hsep; [|apply IH; lia].
  destruct (depth =? 0); cbn [andb]; [|apply IH; lia].
  destruct (Ascii.eqb sep "," && isArgumentComma src i); [apply IH; lia|].
  destruct (IH (S i) depth (S i) (parts ++ [slice src start i])%list ltac:(lia) ltac:(lia))
    as [Hj Hn].
  split; [|exact Hn]. rewrite Hj, <- app_assoc. cbn [app]. rewrite concat_snoc.
  do 3 f_equal. apply Ascii.eqb_eq in Hsep.
  rewrite (sliceFrom_split src start i) by lia.
  rewrite (sliceFrom_cons src i) by lia. rewrite Hsep. reflexivity.
Qed.

Lemma splitLoop_whole (src : string) (sep : ascii) (fuel : nat) :
  forall (i : nat) (depth : Z) (start : nat) (parts : list string),
    free sep src -> (len src - i < fuel)%nat ->
    splitLoop fuel src sep i depth start parts = (parts ++ [sliceFrom src start])%list.
Proof.
  induction fuel as [|f IH]; intros i depth start parts Hf Hlt; [lia|].
  cbn [splitLoop]. destruct (i <? len src)%nat eqn:Hi; [|reflexivity].
  apply Nat.ltb_lt in Hi. rewrite (eqb_free sep src i Hf). cbn [andb].
  destruct (Ascii.eqb (byteAt src i) "["); [apply IH; [assumption | lia]|].
  destruct (Ascii.eqb (byteAt src i) "]"); apply IH; (assumption || lia).
Qed.

(** [splitTopLevel]: the parts, joined again by the separator, are the
    text that was split; there is always at least one part; and a text
    without the separator is its only part. *)
Theorem split_joins_back (src : string) (sep : ascii) :
  String.concat (String sep "") (splitTopLevel src sep) = src
  /\ (0 < length (splitTopLevel src sep))%nat
  /\ (free sep src -> splitTopLevel src sep = [src]).
Proof.
  unfold splitTopLevel.
  destruct (splitLoop_joins src sep (S (len src)) 0%nat 0 0%nat [] ltac:(lia) ltac:(lia))
    as [Hj Hn].
  split; [|split; [exact Hn|]].
  - rewrite Hj. cbn. apply sliceFrom_0.
  - intros Hf. rewrite splitLoop_whole by (assumption || lia). cbn [app].
    rewrite sliceFrom_0. reflexivity.
Qed.

End Splitting.

(** ** Examples of the further properties *)

Section Checks.
Import GoStr props.

(** [free] and [blank], decided on a given text. *)
Lemma free_check (c : ascii) (s : string) :
  mml.existsB (fun x => Ascii.eqb x c) s = false -> c <> zero -> free c s.
Proof.
  intros Hs Hz i. revert i. induction s as [|x r IH]; intros i.
  - destruct i; cbn; congruence.
  - cbn [mml.existsB] in Hs. apply orb_false_iff in Hs. destruct Hs as [Hx Hr].
    destruct i as [|i]; [cbn; apply Ascii.eqb_neq; exact Hx|]. apply (IH Hr i).
Qed.

End Checks.

Lemma gate_duration_bounds_witness : 1 <= mml.parseGateDuration 480 75 <= 480.
Proof.
  destruct (gate_duration_bounds 480 75) as [_ H]; [lia | unfold GoInt.maxInt; lia |].
  apply H; lia.
Defined.

Lemma dotted_length_bounds_witness :
  480 <= mml.addDots 2 480 480 < 2 * 480 /\ mml.addDots 1 480 480 = 480 + 480 / 2.
Proof. apply (dotted_length_bounds 2 480); [lia | unfold GoInt.maxInt; lia]. Defined.


Lemma clampInt_within_witness : 0 <= clampInt 300 0 127 <= 127.
Proof. apply (clampInt_within 300 0 127). lia. Defined.

Lemma parsed_note_ranges_witness :
  exists ev dur next,
    @mml.parseNote linearMath "c+" 0 observe.startState = Ok (ev, dur, next)
    /\ ev.(mml.Type_) = mml.EventNote /\ ev.(mml.Tick) = 0
    /\ 0 <= ev.(mml.Note) <= 127 /\ 0 <= ev.(mml.Value) <= 127
    /\ (-1 > 0 -> 0 <= ev.(mml.Duration)).
Proof.
  eexists _, _, _.
  match goal with |- ?A /\ _ => assert (Hrun : A) by (vm_compute; reflexivity) end.
  split; [exact Hrun|].
  apply (@parsed_note_ranges linearMath "c+" 0%nat observe.startState _ _ _ (or_introl Hrun)).
Defined.

Lemma filter_step_range_witness :
  0 <= (sequencer.step (sequencer.mkFilterEnv 200 4 4 0 0 64 32 0 0 0 1 200)).2 <= 128.
Proof. apply (filter_step_range (sequencer.mkFilterEnv 200 4 4 0 0 64 32 0 0 0 1 200)). Defined.

Lemma voice_id_round_trip_witness :
  multi.decodeVoiceID (multi.encodeVoiceID 3 7) = (3, 7).
Proof. apply (voice_id_round_trip 3 7); lia. Defined.


Lemma no_engine_no_voice_witness :
  multi.NoteOn (@multi.NewMultiEngine countingEngine.t 0 48000) 60 100 0 256
  = (multi.NewMultiEngine 0 48000, -1)
  /\ multi.NoteOff (@multi.NewMultiEngine countingEngine.t 0 48000) 65536
     = multi.NewMultiEngine 0 48000.
Proof. apply (no_engine_no_voice (multi.NewMultiEngine 0 48000) 60 100 0 256 65536). reflexivity. Defined.

Lemma cancel_marks_voice_witness :
  exists n',
    sequencer.cancel 1 [sequencer.mkNoteOff 480 0 false; sequencer.mkNoteOff 960 1 false]
      !! 1%nat = Some n'
    /\ n'.(sequencer.tick) = 960 /\ n'.(sequencer.voice) = 1
    /\ (1 = 1 -> n'.(sequencer.fired) = true)
    /\ (1 <> 1 -> n' = sequencer.mkNoteOff 960 1 false).
Proof.
  apply (proj2 (cancel_marks_voice 1
                  [sequencer.mkNoteOff 480 0 false; sequencer.mkNoteOff 960 1 false])
           1%nat (sequencer.mkNoteOff 960 1 false)).
  reflexivity.
Defined.

Lemma table_ops_values_witness :
  sequencer.applyTableOps [1; 2] 2 3 1 !! 3%nat = Some (2 ⊠ 3 ⊞ 1).
Proof.
  apply (proj2 (table_ops_values [1; 2] 2 3 1) 1%nat 1%nat 2); [reflexivity | cbn; lia].
Defined.

Lemma key_signature_shape_witness :
  mml.parseKeySignature {[ "SIGN" := "g" ]} !! "f"%char = Some 1
  /\ is_Some (mml.parseKeySignature {[ "SIGN" := "g" ]} !! "c"%char)
  /\ mml.parseKeySignature {[ "SIGN" := "g" ]} !! "h"%char = None.
Proof.
  split; [vm_compute; reflexivity|]. split; [|vm_compute; reflexivity].
  apply (proj2 (proj1 (proj1 (key_signature_shape {[ "SIGN" := "g" ]}) "c"%char))).
  reflexivity.
Defined.

Lemma preprocess_plain_text_witness :
  mml.stripComments "l8 cde" = "l8 cde"
  /\ mml.preprocessInput "l8 cde" = mml.mkPreprocessed "l8 cde" ∅.
Proof.
  apply (preprocess_plain_text "l8 cde"); apply free_check; (reflexivity || discriminate).
Defined.

Lemma expandLoops_plain_text_witness :
  mml.expandLoops "cde" = Ok "cde"
  /\ forall rest, mml.expandLoops ("cde" +:+ String "]" rest) = Fail "unmatched ']'".
Proof.
  apply (expandLoops_plain_text "cde"); apply free_check; (reflexivity || discriminate).
Defined.


Lemma parse_step_progress_witness :
  exists a',
    @mml.parseTrackStep linearMath mml.DefaultParserConfig observe.defaultOptions "c4 d"
      observe.startAcc = Ok a'
    /\ (0 < a'.(mml.pos))%nat
    /\ exists new, a'.(mml.evs) = ([] ++ new)%list /\ (length new <= 1)%nat.
Proof.
  eexists.
  match goal with |- ?A /\ _ => assert (Hrun : A) by (vm_compute; reflexivity) end.
  split; [exact Hrun|].
  apply (@parse_step_progress linearMath mml.DefaultParserConfig observe.defaultOptions "c4 d"
           observe.startAcc _ Hrun).
Defined.


Lemma event_changes_its_track_only_witness :
  exists s tc ev s',
    observe.afterTicks "l4 c d;l4 e" 0 = Ok s
    /\ s.(sequencer.trackState) !! 0%nat = Some tc
    /\ tc.(sequencer.events) !! 0%nat = Some ev
    /\ @sequencer.applyEvent _ _ linearMath s 0 tc ev 0 = Ok s'
    /\ props.fixed s' = props.fixed s /\ observe.lifecycle s' = observe.lifecycle s
    /\ length s'.(sequencer.trackRuntime) = length s.(sequencer.trackRuntime)
    /\ forall j : nat, j <> 0%nat ->
        s'.(sequencer.trackRuntime) !! j = s.(sequencer.trackRuntime) !! j.
Proof.
  eexists _, _, _, _. split; [vm_compute; reflexivity|]. split; [vm_compute; reflexivity|].
  split; [vm_compute; reflexivity|].
  match goal with |- ?A /\ _ => assert (Hrun : A) by (vm_compute; reflexivity) end.
  split; [exact Hrun|].
  apply (proj2 (@event_changes_its_track_only _ _ linearMath _ 0%nat _ _ 0) _ Hrun).
Defined.

Lemma masked_updates_discarded_witness :
  exists s tc ev rt,
    observe.afterTicks "@mask1 l4 c v9 c" 1 = Ok s
    /\ s.(sequencer.trackState) !! 0%nat = Some tc
    /\ tc.(sequencer.events) !! 2%nat = Some ev
    /\ ev.(mml.Type_) = mml.EventVolume
    /\ s.(sequencer.trackRuntime) !! 0%nat = Some rt
    /\ @sequencer.applyEvent _ _ linearMath s 0 tc ev 480 = Ok (sequencer.hinted s rt).
Proof.
  eexists _, _, _, _. split; [vm_compute; reflexivity|]. split; [vm_compute; reflexivity|].
  split; [vm_compute; reflexivity|]. split; [reflexivity|].
  match goal with |- ?A /\ _ => assert (Hrt : A) by (vm_compute; reflexivity) end.
  split; [exact Hrt|].
  apply (@masked_updates_discarded _ _ linearMath _ 0%nat _ _ 480 _ Hrt).
  left. split; [vm_compute; discriminate | left; reflexivity].
Defined.

Lemma queue_after_tick_witness :
  exists s s',
    observe.afterTicks "l4 q8 c c" 480 = Ok s
    /\ @sequencer.dispatchTick _ _ linearMath 64 s 480 = Ok s'
    /\ Forall (props.pending 480) s'.(sequencer.noteOffs)
    /\ props.ordered s'.(sequencer.noteOffs).
Proof.
  eexists _, _. split; [vm_compute; reflexivity|].
  match goal with |- ?A /\ _ => assert (Hrun : A) by (vm_compute; reflexivity) end.
  split; [exact Hrun|].
  apply (@queue_after_tick _ _ linearMath 64 _ 480 _ Hrun).
Defined.

Lemma looping_track_never_ends_witness :
  exists score s' dst,
    @mml.Parse linearMath mml.DefaultParserConfig "c $ d" = Ok score
    /\ let opts := sequencer.mkOptions false true false 0 0 in
       let s0 := sequencer.NewWithOptions score countingEngine.new 100 opts in
       @sequencer.Process _ _ linearMath 64 s0 300 = Ok (s', dst)
       /\ s'.(sequencer.commandExhausted) = false
       /\ s'.(sequencer.playbackEndedFired) = false
       /\ s'.(sequencer.onEventCalls) = [].
Proof.
  eexists _, _, _. split; [vm_compute; reflexivity|]. cbv zeta.
  match goal with |- ?A /\ _ => assert (Hrun : A) by (vm_compute; reflexivity) end.
  split; [exact Hrun|].
  refine (@looping_track_never_ends _ _ linearMath _ countingEngine.new 100
            (sequencer.mkOptions false true false 0 0) 64 300 _ _ _ Hrun).
  vm_compute. reflexivity.
Defined.

Lemma whole_score_loop_never_ends_witness :
  exists score s' dst,
    @mml.Parse linearMath mml.DefaultParserConfig "c" = Ok score
    /\ let opts := sequencer.mkOptions true true false 0 0 in
       let s0 := sequencer.NewWithOptions score countingEngine.new 100 opts in
       @sequencer.Process _ _ linearMath 64 s0 300 = Ok (s', dst)
       /\ s'.(sequencer.commandExhausted) = false
       /\ s'.(sequencer.playbackEndedFired) = false
       /\ observe.endedCount s' = 0%nat.
Proof.
  eexists _, _, _. split; [vm_compute; reflexivity|]. cbv zeta.
  match goal with |- ?A /\ _ => assert (Hrun : A) by (vm_compute; reflexivity) end.
  split; [exact Hrun|].
  refine (@whole_score_loop_never_ends _ _ linearMath _ countingEngine.new 100
            (sequencer.mkOptions true true false 0 0) 64 300 _ _ eq_refl Hrun).
Defined.

Lemma note_on_arguments_in_range_witness :
  exists s tc ev rt s' rt',
    observe.afterTicks "o9 v16 p8 b" 0 = Ok s
    /\ s.(sequencer.trackState) !! 0%nat = Some tc
    /\ tc.(sequencer.events) !! 2%nat = Some ev
    /\ s.(sequencer.trackRuntime) !! 0%nat = Some rt
    /\ @sequencer.applyNote _ _ linearMath s rt ev 0 = Ok (s', rt')
    /\ exists before note velocity pan program queue tick,
        observe.callsOf s' = (before ++ [traced.CallNoteOn note velocity pan program])%list
        /\ 0 <= note <= 127 /\ 1 <= velocity <= 127 /\ -64 <= pan <= 64
        /\ rt'.(sequencer.lastNote) = note
        /\ s'.(sequencer.noteOffs)
           = (queue ++ [sequencer.mkNoteOff tick rt'.(sequencer.lastVoice) false])%list.
Proof.
  eexists _, _, _, _, _, _. split; [vm_compute; reflexivity|].
  split; [vm_compute; reflexivity|]. split; [vm_compute; reflexivity|].
  split; [vm_compute; reflexivity|].
  match goal with |- ?A /\ _ => assert (Hrun : A) by (vm_compute; reflexivity) end.
  split; [exact Hrun|].
  apply (@note_on_arguments_in_range _ _ linearMath _ _ _ 0 _ _ Hrun).
Defined.

Lemma table_index_by_resolution_witness :
  exists s rt,
    observe.afterTicks "c" 0 = Ok s
    /\ s.(sequencer.trackRuntime) !! 0%nat = Some rt
    /\ sequencer.tableIndex s rt "na" 960 = Ok 2.
Proof.
  eexists _, _. split; [vm_compute; reflexivity|]. split; [vm_compute; reflexivity|].
  refine (proj2 (proj2 (table_index_by_resolution _ _ "na" 960 _ _)) _ _ _ _).
  - vm_compute. discriminate.
  - vm_compute. reflexivity.
  - vm_compute. split; [discriminate | reflexivity].
  - vm_compute. discriminate.
  - vm_compute. split; discriminate.
  - vm_compute. discriminate.
Defined.

Lemma compact_unfired_ordered_witness :
  let s := sequencer.set_noteOffs
             [sequencer.mkNoteOff 960 0 false; sequencer.mkNoteOff 480 1 true;
              sequencer.mkNoteOff 480 2 false]
             (sequencer.New (mml.mkScore 1920 120 [] ∅) countingEngine.new 48000) in
  map sequencer.voice (sequencer.compactNoteOffs s).(sequencer.noteOffs) = [2; 0]
  /\ props.ordered (sequencer.compactNoteOffs s).(sequencer.noteOffs).
Proof.
  cbv zeta. split; [vm_compute; reflexivity|].
  apply (compact_unfired_ordered
           (sequencer.set_noteOffs
             [sequencer.mkNoteOff 960 0 false; sequencer.mkNoteOff 480 1 true;
              sequencer.mkNoteOff 480 2 false]
             (sequencer.New (mml.mkScore 1920 120 [] ∅) countingEngine.new 48000))).
Defined.

Lemma loop_block_expansion_witness :
  mml.expandLoops "c[de]a" = Ok "cdedea"
  /\ mml.expandLoops "c[de]3a" = Ok "cdededea"
  /\ mml.expandLoops "c[f|g]3a" = Ok "cffga"
  /\ mml.expandLoops "c[de" = Fail "unclosed loop block".
Proof.
  apply (loop_block_expansion "c" "de" "f" "g" "a" "3");
    first [reflexivity | apply free_check; [reflexivity | discriminate]].
Defined.

Lemma split_joins_back_witness :
  mml.splitTopLevel "a[b;c];d" ";" = ["a[b;c]"; "d"]
  /\ String.concat ";" (mml.splitTopLevel "a[b;c];d" ";") = "a[b;c];d"
  /\ mml.splitTopLevel "a[b;c];d" "," = ["a[b;c];d"].
Proof.
  split; [reflexivity|]. split.
  - apply (split_joins_back "a[b;c];d" ";").
  - apply (split_joins_back "a[b;c];d" ","). apply free_check; [reflexivity | discriminate].
Defined.

Lemma engine_lookup_order_witness :
  multi.engine (multi.mk [countingEngine.new] {[ 2 := 0%nat ]} 2 2 48000) 5 = Some 0%nat.
Proof.
  apply (proj1 (proj2 (engine_lookup_order
                         (multi.mk [countingEngine.new] {[ 2 := 0%nat ]} 2 2 48000) 5)));
    reflexivity.
Defined.
